(** * Campaign workflow scheduler: a shallow embedding

    The development follows [services/workflow_service.py] together with the
    parts of [models/workflow.py], [database/mongodb_client.py],
    [services/contact_service.py] and [services/smtp_service.py] it drives.  Python objects become records,
    the service's mutable attributes become an explicit state, and every
    [try]/[except] of the source is written out over a small result type.
    Logging calls have no effect on any value and are left out. *)

From Stdlib Require Import Ascii String List ZArith QArith Bool Lia DecimalString.
Import ListNotations.

Open Scope string_scope.
Open Scope Z_scope.

(** ** Python values shared by the services *)

(** [datetime] values are compared and stored, never taken apart: an
    integer clock reading stands for each of them. *)
Definition datetime := Z.

(** The exceptions that can travel through the code below. *)
Inductive exn :=
| AttributeError      (* attribute access on [None] *)
| TypeError           (* a call that does not fit the callee's signature *)
| RuntimeError
| KeyError (key : string)   (* [d[key]] on a missing key *)
| PyMongoError        (* the document store could not serve a request *)
| JobStoreError       (* the scheduler's job store could not serve a request *)
| GenerationError     (* the content generator failed *)
| ZeroDivisionError
| NotImplementedError. (* [bool()] of an object that refuses truth testing *)

Inductive result (A : Type) :=
| Ok (a : A)
| Raise (e : exn).
Arguments Ok {A} a.
Arguments Raise {A} e.

Definition bind {A B : Type} (r : result A) (k : A -> result B) : result B :=
  match r with
  | Ok a => k a
  | Raise e => Raise e
  end.

(** ** models/workflow.py *)

Inductive CampaignStatus :=
| DRAFT | SCHEDULED | ACTIVE | PAUSED | COMPLETED | CANCELLED.

Inductive EmailStatus :=
| PENDING | SENT | FAILED | BOUNCED | OPENED | CLICKED | REPLIED.

Definition CampaignStatus_eqb (a b : CampaignStatus) : bool :=
  match a, b with
  | DRAFT, DRAFT | SCHEDULED, SCHEDULED | ACTIVE, ACTIVE
  | PAUSED, PAUSED | COMPLETED, COMPLETED | CANCELLED, CANCELLED => true
  | _, _ => false
  end.

Definition EmailStatus_eqb (a b : EmailStatus) : bool :=
  match a, b with
  | PENDING, PENDING | SENT, SENT | FAILED, FAILED | BOUNCED, BOUNCED
  | OPENED, OPENED | CLICKED, CLICKED | REPLIED, REPLIED => true
  | _, _ => false
  end.

Definition option_eqb {A : Type} (eqb : A -> A -> bool) (a b : option A) : bool :=
  match a, b with
  | Some x, Some y => eqb x y
  | None, None => true
  | _, _ => false
  end.

Module WorkflowPlan.
Record t := mk {
  invite : option datetime;
  reminder : option datetime;
  thank_you : option datetime;
  follow_up : option datetime
}.

Definition eqb (a b : t) : bool :=
  option_eqb Z.eqb (invite a) (invite b)
  && option_eqb Z.eqb (reminder a) (reminder b)
  && option_eqb Z.eqb (thank_you a) (thank_you b)
  && option_eqb Z.eqb (follow_up a) (follow_up b).
End WorkflowPlan.

Module CampaignTargets.
(** The two rates are Python floats; a rational stands for the float. *)
Record t := mk {
  total_registrations : Z;
  total_emails_sent : Z;
  open_rate_target : Q;
  click_rate_target : Q
}.

Definition eqb (a b : t) : bool :=
  (total_registrations a =? total_registrations b)
  && (total_emails_sent a =? total_emails_sent b)
  && Qeq_bool (open_rate_target a) (open_rate_target b)
  && Qeq_bool (click_rate_target a) (click_rate_target b).
End CampaignTargets.

Module Campaign.
Record t := mk {
  name : string;
  title : string;
  status : CampaignStatus;
  workflow_plan : WorkflowPlan.t;
  targets : CampaignTargets.t;
  created_at : datetime;
  updated_at : datetime;
  created_by : option string
}.

(** Do two stored documents hold the same values? *)
Definition eqb (a b : t) : bool :=
  (name a =? name b)%string
  && (title a =? title b)%string
  && CampaignStatus_eqb (status a) (status b)
  && WorkflowPlan.eqb (workflow_plan a) (workflow_plan b)
  && CampaignTargets.eqb (targets a) (targets b)
  && (created_at a =? created_at b)
  && (updated_at a =? updated_at b)
  && option_eqb String.eqb (created_by a) (created_by b).

Definition set_status (st : CampaignStatus) (now : datetime) (c : t) : t :=
  mk (name c) (title c) st (workflow_plan c) (targets c)
     (created_at c) now (created_by c).

Definition set_targets (tg : CampaignTargets.t) (now : datetime) (c : t) : t :=
  mk (name c) (title c) (status c) (workflow_plan c) tg
     (created_at c) now (created_by c).
End Campaign.

Module EmailLog.
Record t := mk {
  campaign_name : string;
  email : string;
  email_type : string;
  status : EmailStatus;
  message_id : option string;
  error_message : option string;
  retry_count : Z
}.
End EmailLog.

(** A stored [email_logs] document: the dumped [EmailLog] plus the two
    engagement keys the metrics read with [log.get('opened', False)] and
    [log.get('clicked', False)] (absent keys read as [false]). *)
Module LogDoc.
Record t := mk {
  log : EmailLog.t;
  opened : bool;
  clicked : bool
}.

Definition of_log (l : EmailLog.t) : t := mk l false false.
End LogDoc.

(** [log['status'] == st] *)
Definition has_status (st : EmailStatus) (d : LogDoc.t) : bool :=
  EmailStatus_eqb (EmailLog.status (LogDoc.log d)) st.

(** [log['campaign_name'] == n] *)
Definition of_campaign (n : string) (d : LogDoc.t) : bool :=
  (EmailLog.campaign_name (LogDoc.log d) =? n)%string.

(** ** The scheduler, as far as the service drives it

    A job of the [date] trigger keeps its [run_date] for life; the
    scheduler's [next_run_time] is that date while the job is scheduled and
    [None] while it is paused. *)
Module Job.
Record t := mk {
  id : string;
  run_date : datetime;
  next_run_time : option datetime;
  args : string * string * option (list string)
}.

Definition pause (j : t) : t := mk (id j) (run_date j) None (args j).

(** Resuming asks the trigger for its next fire time, which for a date
    trigger that has not fired is the run date. *)
Definition resume (j : t) : t :=
  mk (id j) (run_date j) (Some (run_date j)) (args j).
End Job.

(** The job store chosen by [_initialize_scheduler].  The in-memory store
    cannot fail; the durable one talks to a server, and [unreachable jid]
    says that requests about job [jid] raise. *)
Inductive JobStore :=
| MemoryJobStore
| MongoDBJobStore (unreachable : string -> bool).

Module Scheduler.
Record t := mk {
  jobstore : JobStore;
  jobs : list Job.t
}.

Definition raises (s : t) (jid : string) : bool :=
  match jobstore s with
  | MemoryJobStore => false
  | MongoDBJobStore unreachable => unreachable jid
  end.

Definition lookup_job (jid : string) (js : list Job.t) : option Job.t :=
  find (fun k => Job.id k =? jid)%string js.

(** Apply [f] to the stored job called [jid]. *)
Fixpoint modify_job (jid : string) (f : Job.t -> Job.t) (js : list Job.t)
  : list Job.t :=
  match js with
  | [] => []
  | k :: rest =>
      if (Job.id k =? jid)%string then f k :: rest
      else k :: modify_job jid f rest
  end.

(** [add_job(..., id=jid, replace_existing=True)] on a running scheduler:
    the store refuses a second job with a known id, and the scheduler
    then updates the stored one instead. *)
Definition add_job (j : Job.t) (s : t) : result t :=
  if raises s (Job.id j) then Raise JobStoreError
  else
    match lookup_job (Job.id j) (jobs s) with
    | Some _ => Ok (mk (jobstore s) (modify_job (Job.id j) (fun _ => j) (jobs s)))
    | None => Ok (mk (jobstore s) (jobs s ++ [j]))
    end.

(** [get_jobs()]: the jobs of the store.  The scheduler hands them out
    sorted by next run time; the service only tests each job's id, reads
    its [next_run_time] and pauses or resumes it, so the list is kept in the
    order of insertion here, and the read itself is taken to answer. *)
Definition get_jobs (s : t) : list Job.t := jobs s.

(** [pause_job] and [resume_job] both fetch the job by id and store it
    back with a new [next_run_time]. *)
Definition restore (f : Job.t -> Job.t) (jid : string) (s : t) : result t :=
  if raises s jid then Raise JobStoreError
  else Ok (mk (jobstore s) (modify_job jid f (jobs s))).

Definition pause_job : string -> t -> result t := restore Job.pause.

Definition resume_job : string -> t -> result t := restore Job.resume.
End Scheduler.

(** ** services/contact_service.py *)

Module Contact.
Record t := mk {
  email : string;
  name : option string;
  role : option string;
  school_name : option string;
  tags : list string
}.
End Contact.

Module ContactService.
(** The contacts collection handle, when the service got one.
    [truth_test_raises] says what [bool(handle)] does: a pymongo
    [Collection] refuses truth-value testing and raises
    [NotImplementedError]; a handle of another driver tests true. *)
Record Collection := mkCollection {
  docs : list Contact.t;
  unreachable : bool;
  truth_test_raises : bool
}.

(** The handle [MongoDBClient] gives out, [self.database[collection_name]]:
    a pymongo collection. *)
Definition pymongo (docs : list Contact.t) (unreachable : bool) : Collection :=
  mkCollection docs unreachable true.

Record t := mk {
  collection : option Collection
}.

(** [not self.collection] *)
Definition not_collection (self : t) : result bool :=
  match collection self with
  | None => Ok true
  | Some coll =>
      if truth_test_raises coll then Raise NotImplementedError else Ok false
  end.

Definition has_tag (tag : string) (c : Contact.t) : bool :=
  existsb (fun x => (x =? tag)%string) (Contact.tags c).

(** [get_contacts_by_tag]: the test [if not self.collection] stands before
    the [try], so what it raises leaves the method. *)
Definition get_contacts_by_tag (self : t) (tag : string)
  : result (list Contact.t) :=
  bind (not_collection self) (fun missing =>
  if missing then Ok []
  else
    match collection self with
    | None => Ok []                          (* AttributeError, caught *)
    | Some coll =>
        if unreachable coll then Ok []
        else Ok (filter (has_tag tag) (docs coll))
    end).

(** [cursor.limit(limit)]: zero is no limit, a negative limit counts by
    its absolute value. *)
Definition limited {A : Type} (limit : Z) (l : list A) : list A :=
  if limit =? 0 then l else firstn (Z.abs_nat limit) l.

(** [get_all_contacts]: the whole body is inside the [try]; there is no
    truth test. *)
Definition get_all_contacts (self : t) (limit : Z) : list Contact.t :=
  match collection self with
  | None => []                               (* AttributeError, caught *)
  | Some coll =>
      if unreachable coll then []
      else limited limit (docs coll)
  end.
End ContactService.

(** ** database/mongodb_client.py *)

Module MongoDBClient.
(** The client holds one collection handle, the contacts collection.
    [self.collection] is [None] until [_connect] got through and then
    [self.database[collection_name]], a pymongo collection: [contacts] are
    the documents it holds and [down] says that its server does not
    answer. *)
Record t := mk {
  connected : bool;
  contacts : list Contact.t;
  down : bool
}.

Definition collection (self : t) : option ContactService.Collection :=
  if connected self
  then Some (ContactService.pymongo (contacts self) (down self))
  else None.

(** [get_collection(self)]: the method takes no collection name, so
    [args], the positional arguments of a call, must be empty. *)
Definition get_collection (self : t) (args : list string)
  : result ContactService.Collection :=
  match args with
  | [] =>
      match collection self with
      | None => Raise RuntimeError
      | Some c => Ok c
      end
  | _ :: _ => Raise TypeError
  end.
End MongoDBClient.

(** [ContactService._initialize_database]: [client] is what importing the
    module-level [mongodb_client] gave. *)
Definition _initialize_database (client : result MongoDBClient.t)
  : ContactService.t :=
  match client with
  | Ok c =>
      match MongoDBClient.get_collection c [] with
      | Ok coll => ContactService.mk (Some coll)
      | Raise _ => ContactService.mk None
      end
  | Raise _ => ContactService.mk None
  end.

(** ** The document store behind [self.mongodb_client]

    The workflow service reaches its collections with
    [get_collection(name)].  [lookup_raises] records that this call itself
    raises, which is what [MongoDBClient.get_collection] above does when it
    is given a name; [server_down] records that requests on a collection
    raise. *)
Module Mongo.
Record t := mk {
  lookup_raises : bool;
  server_down : bool;
  campaigns : list Campaign.t;
  email_logs : list LogDoc.t
}.

Definition set_campaigns (cs : list Campaign.t) (m : t) : t :=
  mk (lookup_raises m) (server_down m) cs (email_logs m).

Definition set_email_logs (ls : list LogDoc.t) (m : t) : t :=
  mk (lookup_raises m) (server_down m) (campaigns m) ls.

Definition get_collection (m : t) (collection_name : string) : result string :=
  if lookup_raises m then Raise TypeError else Ok collection_name.

(** The store as seen through a [MongoDBClient]: whether the lookup by
    name raises is what the client's method says. *)
Definition through (c : MongoDBClient.t) (cs : list Campaign.t)
           (logs : list LogDoc.t) : t :=
  mk (match MongoDBClient.get_collection c ["campaigns"] with
      | Ok _ => false
      | Raise _ => true
      end)
     false cs logs.

Definition request {A : Type} (m : t) (a : A) : result A :=
  if server_down m then Raise PyMongoError else Ok a.

Definition named (n : string) (c : Campaign.t) : bool :=
  (Campaign.name c =? n)%string.

(** [find_one({'name': n})] *)
Definition find_one (n : string) (m : t) : result (option Campaign.t) :=
  request m (find (named n) (campaigns m)).

(** Rewrite the first document called [n] with [f]; report whether one
    matched and whether the rewrite changed it. *)
Fixpoint update_first (n : string) (f : Campaign.t -> Campaign.t)
         (cs : list Campaign.t) : list Campaign.t * bool * bool :=
  match cs with
  | [] => ([], false, false)
  | c :: rest =>
      if named n c then (f c :: rest, true, negb (Campaign.eqb c (f c)))
      else
        let '(rest', matched, modified) := update_first n f rest in
        (c :: rest', matched, modified)
  end.

(** [replace_one({'name': n}, doc, upsert=True)] *)
Definition replace_one (n : string) (doc : Campaign.t) (m : t) : result t :=
  bind (request m tt) (fun _ =>
  let '(cs, matched, _) := update_first n (fun _ => doc) (campaigns m) in
  Ok (set_campaigns (if matched then cs else campaigns m ++ [doc]) m)).

(** [update_one({'name': n}, {'$set': ...})]: the new store and the
    result's [modified_count]. *)
Definition update_one (n : string) (f : Campaign.t -> Campaign.t) (m : t)
  : result (t * Z) :=
  bind (request m tt) (fun _ =>
  let '(cs, _, modified) := update_first n f (campaigns m) in
  Ok (set_campaigns cs m, if modified then 1 else 0)).

(** [find({'campaign_name': n})] on [email_logs] *)
Definition find_logs (n : string) (m : t) : result (list LogDoc.t) :=
  request m (filter (of_campaign n) (email_logs m)).

(** [find({'status': st})] and [count_documents({'status': st})] on
    [email_logs] *)
Definition find_logs_by_status (st : EmailStatus) (m : t)
  : result (list LogDoc.t) :=
  request m (filter (has_status st) (email_logs m)).

Definition count_logs_by_status (st : EmailStatus) (m : t) : result Z :=
  bind (find_logs_by_status st m) (fun ls => Ok (Z.of_nat (length ls))).

(** [count_documents({})] and [count_documents({'status': st})] on
    [campaigns] *)
Definition count_campaigns (m : t) : result Z :=
  request m (Z.of_nat (length (campaigns m))).

Definition count_campaigns_by_status (st : CampaignStatus) (m : t) : result Z :=
  request m (Z.of_nat (length (filter
    (fun c => CampaignStatus_eqb (Campaign.status c) st) (campaigns m)))).

(** [insert_one(doc)] on [email_logs] *)
Definition insert_log (d : LogDoc.t) (m : t) : result t :=
  bind (request m tt) (fun _ => Ok (set_email_logs (email_logs m ++ [d]) m)).
End Mongo.

(** ** services/smtp_service.py *)

(** Python's [str(e)], as far as the logs below keep it. *)
Definition str (e : exn) : string :=
  match e with
  | AttributeError => "AttributeError"
  | TypeError => "TypeError"
  | RuntimeError => "MongoDB connection not established"
  | KeyError key => "'" ++ key ++ "'"
  | PyMongoError => "PyMongoError"
  | JobStoreError => "JobStoreError"
  | GenerationError => "GenerationError"
  | ZeroDivisionError => "division by zero"
  | NotImplementedError => "NotImplementedError"
  end.

(** Truth value of a string: empty strings are false. *)
Definition truthy (x : string) : bool := negb (x =? "")%string.

(** A [Dict[str, str]]. *)
Module Dict.
Definition t := list (string * string).

(** [d.get(k)] *)
Fixpoint get (d : t) (k : string) : option string :=
  match d with
  | [] => None
  | (k', v) :: rest => if (k' =? k)%string then Some v else get rest k
  end.

(** [d.get(k, default)] *)
Definition get_default (d : t) (k default : string) : string :=
  match get d k with
  | Some v => v
  | None => default
  end.

(** [d[k]] *)
Definition item (d : t) (k : string) : result string :=
  match get d k with
  | Some v => Ok v
  | None => Raise (KeyError k)
  end.
End Dict.

Module SMTPService.
Section Transport.

(** The mail server: its state, and what one SMTP session (login and
    [send_message]) does with a message, [true] when nothing raised. *)
Variable server : Type.
Variable session : server -> string * string * string * string -> bool * server.

(** [self.sender_email], and the clock-and-hash part of a message id. *)
Variable sender_email : string.
Variable stamp : string -> string.

(** [send_email]: every exception of the session is caught and turned into
    [None]. *)
Definition send_email (to_email subject body : string)
           (from_email : option string) (srv : server)
  : option string * server :=
  let from_email :=
    match from_email with
    | Some f => if truthy f then f else sender_email
    | None => sender_email
    end in
  let (ok, srv') := session srv (to_email, from_email, subject, body) in
  if ok then (Some ("smpt_" ++ stamp to_email), srv') else (None, srv').

Definition is_sent (message_id : option string) : bool :=
  match message_id with
  | Some i => truthy i
  | None => false
  end.

(** The [try] block of the loop body of [send_bulk_emails].  The log's
    [timestamp], read from the clock, is not kept. *)
Definition try_send (email_data : Dict.t) (srv : server)
  : result EmailLog.t * server :=
  match Dict.item email_data "to" with
  | Raise e => (Raise e, srv)
  | Ok to =>
  match Dict.item email_data "subject" with
  | Raise e => (Raise e, srv)
  | Ok subject =>
  match Dict.item email_data "body" with
  | Raise e => (Raise e, srv)
  | Ok body =>
      let (message_id, srv') :=
        send_email to subject body (Dict.get email_data "from") srv in
      (Ok (EmailLog.mk (Dict.get_default email_data "campaign_name" "")
                       to
                       (Dict.get_default email_data "email_type" "")
                       (if is_sent message_id then SENT else FAILED)
                       message_id
                       (if is_sent message_id then None
                        else Some "Failed to send email")
                       0),
       srv')
  end end end.

(** The [except] block: it reads [email_data['to']] again. *)
Definition log_failure (email_data : Dict.t) (e : exn) : result EmailLog.t :=
  match Dict.item email_data "to" with
  | Raise e' => Raise e'
  | Ok to =>
      Ok (EmailLog.mk (Dict.get_default email_data "campaign_name" "")
                      to
                      (Dict.get_default email_data "email_type" "")
                      FAILED None (Some (str e)) 0)
  end.

(** [send_bulk_emails]: [logs] grows by one entry per pass; an exception
    leaving the [except] block leaves the function. *)
Fixpoint send_bulk_emails_from (logs : list EmailLog.t)
         (email_list : list Dict.t) (srv : server)
  : result (list EmailLog.t) * server :=
  match email_list with
  | [] => (Ok logs, srv)
  | email_data :: rest =>
      match try_send email_data srv with
      | (Ok log_entry, srv') =>
          send_bulk_emails_from (logs ++ [log_entry]) rest srv'
      | (Raise e, srv') =>
          match log_failure email_data e with
          | Ok log_entry => send_bulk_emails_from (logs ++ [log_entry]) rest srv'
          | Raise e' => (Raise e', srv')
          end
      end
  end.

Definition send_bulk_emails (email_list : list Dict.t) (srv : server)
  : result (list EmailLog.t) * server :=
  send_bulk_emails_from [] email_list srv.

End Transport.
End SMTPService.

(** ** services/workflow_service.py: the service and its state *)

Record WorkflowService := mkWorkflowService {
  mongodb_client : option Mongo.t;
  contact_service : ContactService.t;
  scheduler : Scheduler.t
}.

Definition set_client (m : Mongo.t) (s : WorkflowService) : WorkflowService :=
  mkWorkflowService (Some m) (contact_service s) (scheduler s).

Definition set_scheduler (sch : Scheduler.t) (s : WorkflowService)
  : WorkflowService :=
  mkWorkflowService (mongodb_client s) (contact_service s) sch.

(** [_initialize_scheduler]: the durable store is tried only when a client
    is bound; [durable] is what building it gives, the reachability of the
    store together with the jobs it already holds. *)
Definition _initialize_scheduler (client : option Mongo.t)
           (durable : result ((string -> bool) * list Job.t)) : Scheduler.t :=
  match client with
  | Some _ =>
      match durable with
      | Ok (unreachable, persisted) =>
          Scheduler.mk (MongoDBJobStore unreachable) persisted
      | Raise _ => Scheduler.mk MemoryJobStore []
      end
  | None => Scheduler.mk MemoryJobStore []
  end.

(** [__init__]: [connection] is what [MongoDBClient()] gave. *)
Definition init (connection : result Mongo.t) (contacts : ContactService.t)
           (durable : result ((string -> bool) * list Job.t))
  : WorkflowService :=
  let client := match connection with Ok m => Some m | Raise _ => None end in
  mkWorkflowService client contacts (_initialize_scheduler client durable).

(** A method body: it reads and writes the service and may raise; what it
    wrote before raising stays written. *)
Definition M (A : Type) : Type := WorkflowService -> result A * WorkflowService.

Definition ret {A : Type} (a : A) : M A := fun s => (Ok a, s).

Definition raise {A : Type} (e : exn) : M A := fun s => (Raise e, s).

Definition mbind {A B : Type} (c : M A) (k : A -> M B) : M B :=
  fun s =>
    match c s with
    | (Ok a, s') => k a s'
    | (Raise e, s') => (Raise e, s')
    end.

Notation "x <- c ;; k" := (mbind c (fun x => k))
  (at level 61, c at next level, right associativity).

(** [try: c except Exception as e: h e] *)
Definition try_except {A : Type} (c : M A) (h : exn -> M A) : M A :=
  fun s =>
    match c s with
    | (Ok a, s') => (Ok a, s')
    | (Raise e, s') => h e s'
    end.

(** [for x in xs: body x] *)
Fixpoint for_each {A : Type} (xs : list A) (body : A -> M unit) : M unit :=
  match xs with
  | [] => ret tt
  | x :: rest => _ <- body x ;; for_each rest body
  end.

(** [self.mongodb_client.get_collection(name)] *)
Definition get_collection (collection_name : string) : M string :=
  fun s =>
    match mongodb_client s with
    | None => (Raise AttributeError, s)
    | Some m => (Mongo.get_collection m collection_name, s)
    end.

(** A read on a collection obtained from [get_collection]. *)
Definition query {A : Type} (q : Mongo.t -> result A) : M A :=
  fun s =>
    match mongodb_client s with
    | None => (Raise AttributeError, s)
    | Some m => (q m, s)
    end.

(** A write on a collection obtained from [get_collection]. *)
Definition command {A : Type} (w : Mongo.t -> result (Mongo.t * A)) : M A :=
  fun s =>
    match mongodb_client s with
    | None => (Raise AttributeError, s)
    | Some m =>
        match w m with
        | Ok (m', a) => (Ok a, set_client m' s)
        | Raise e => (Raise e, s)
        end
    end.

(** A call on [self.scheduler] that changes the job store. *)
Definition on_scheduler (op : Scheduler.t -> result Scheduler.t) : M unit :=
  fun s =>
    match op (scheduler s) with
    | Ok sch => (Ok tt, set_scheduler sch s)
    | Raise e => (Raise e, s)
    end.

Definition get_jobs : M (list Job.t) :=
  fun s => (Ok (Scheduler.get_jobs (scheduler s)), s).

(** [f"{campaign_name}_{stage}"] *)
Definition job_id (campaign_name stage : string) : string :=
  campaign_name ++ "_" ++ stage.

(** One of the four [if workflow_plan.<stage>:] blocks of
    [schedule_campaign]. *)
Definition schedule_stage (campaign_name stage : string)
           (run_date : option datetime) (audience_segments : option (list string))
           (scheduled_jobs : list string) : M (list string) :=
  match run_date with
  | Some d =>
      _ <- on_scheduler (Scheduler.add_job
             (Job.mk (job_id campaign_name stage) d (Some d)
                     (campaign_name, stage, audience_segments))) ;;
      ret (scheduled_jobs ++ [job_id campaign_name stage])%list
  | None => ret scheduled_jobs
  end.

Definition save_campaign (campaign : Campaign.t) : M unit :=
  fun s =>
    match mongodb_client s with
    | Some _ =>
        try_except
          (_ <- get_collection "campaigns" ;;
           command (fun m =>
             bind (Mongo.replace_one (Campaign.name campaign) campaign m)
                  (fun m' => Ok (m', tt))))
          (fun _ => ret tt) s
    | None => ret tt s
    end.

Definition schedule_campaign (campaign_name : string)
           (workflow_plan : WorkflowPlan.t) (targets : CampaignTargets.t)
           (audience_segments : option (list string)) (now : datetime) : M bool :=
  try_except
    (let campaign :=
       Campaign.mk campaign_name campaign_name SCHEDULED workflow_plan targets
                   now now (Some "system") in
     _ <- save_campaign campaign ;;
     scheduled_jobs <- ret [] ;;
     scheduled_jobs <- schedule_stage campaign_name "invite"
                         (WorkflowPlan.invite workflow_plan)
                         audience_segments scheduled_jobs ;;
     scheduled_jobs <- schedule_stage campaign_name "reminder"
                         (WorkflowPlan.reminder workflow_plan)
                         audience_segments scheduled_jobs ;;
     scheduled_jobs <- schedule_stage campaign_name "thank_you"
                         (WorkflowPlan.thank_you workflow_plan)
                         audience_segments scheduled_jobs ;;
     scheduled_jobs <- schedule_stage campaign_name "follow_up"
                         (WorkflowPlan.follow_up workflow_plan)
                         audience_segments scheduled_jobs ;;
     ret true)
    (fun _ => ret false).

(** The status write shared by [pause_campaign] and [resume_campaign]. *)
Definition set_campaign_status (campaign_name : string) (st : CampaignStatus)
           (now : datetime) : M Z :=
  _ <- get_collection "campaigns" ;;
  command (Mongo.update_one campaign_name (Campaign.set_status st now)).

Definition pause_campaign (campaign_name : string) (now : datetime) : M bool :=
  try_except
    (_ <- set_campaign_status campaign_name PAUSED now ;;
     jobs <- get_jobs ;;
     _ <- for_each jobs (fun job =>
            if prefix (campaign_name ++ "_") (Job.id job)
            then on_scheduler (Scheduler.pause_job (Job.id job))
            else ret tt) ;;
     ret true)
    (fun _ => ret false).

Definition resume_campaign (campaign_name : string) (now : datetime) : M bool :=
  try_except
    (_ <- set_campaign_status campaign_name ACTIVE now ;;
     jobs <- get_jobs ;;
     _ <- for_each jobs (fun job =>
            if prefix (campaign_name ++ "_") (Job.id job)
            then on_scheduler (Scheduler.resume_job (Job.id job))
            else ret tt) ;;
     ret true)
    (fun _ => ret false).

(** ** The dispatch callback of [services/workflow_service.py] *)

(** Python's [s.replace(old, new)] for a non-empty [old]. *)
Fixpoint replace_upto (fuel : nat) (old new s : string) : string :=
  match fuel with
  | O => s
  | S fuel' =>
      match s with
      | EmptyString => EmptyString
      | String c rest =>
          if prefix old s
          then new ++ replace_upto fuel' old new
                        (substring (String.length old)
                                   (String.length s - String.length old) s)
          else String c (replace_upto fuel' old new rest)
      end
  end.

Definition replace (s old new : string) : string :=
  replace_upto (String.length s) old new s.

(** "Get contacts based on audience segments": the recipients of one
    dispatch.  An absent or empty segment list falls back to
    [get_all_contacts()], whose limit defaults to 100. *)
Fixpoint extend_by_segment (contacts : ContactService.t)
         (segments : list string) (found : list Contact.t)
  : result (list Contact.t) :=
  match segments with
  | [] => Ok found
  | segment :: rest =>
      bind (ContactService.get_contacts_by_tag contacts segment)
           (fun segment_contacts =>
              extend_by_segment contacts rest (found ++ segment_contacts)%list)
  end.

Definition resolve_contacts (audience_segments : option (list string))
           (contacts : ContactService.t) : result (list Contact.t) :=
  match audience_segments with
  | Some ((_ :: _) as segments) => extend_by_segment contacts segments []
  | _ => Ok (ContactService.get_all_contacts contacts 100)
  end.

Module EmailContent.
Record t := mk {
  subject : string;
  body : string
}.
End EmailContent.

Section Dispatch.

Variable server : Type.
Variable session : server -> string * string * string * string -> bool * server.
Variable sender_email : string.
Variable stamp : string -> string.

(** The content generator: given the campaign title, the contact's role
    and the email type it returns content, returns nothing, or raises. *)
Variable generate_email_content :
  string -> string -> string -> result (option EmailContent.t).

(** The body of the loop over the contacts: the batch entry of one
    contact, when the generator gave content for it. *)
Definition batch_entry (campaign : Campaign.t) (campaign_name email_type : string)
           (contact : Contact.t) : option Dict.t :=
  let role := match Contact.role contact with Some r => r | None => "general" end in
  match generate_email_content (Campaign.title campaign) role email_type with
  | Raise _ => None
  | Ok None => None
  | Ok (Some email_content) =>
      let personalized_body := EmailContent.body email_content in
      let personalized_body :=
        match Contact.name contact with
        | Some nm => if truthy nm
                     then replace personalized_body "{contact_name}" nm
                     else personalized_body
        | None => personalized_body
        end in
      let personalized_body :=
        match Contact.school_name contact with
        | Some sn => if truthy sn
                     then replace personalized_body "{school_name}" sn
                     else personalized_body
        | None => personalized_body
        end in
      Some [ ("to", Contact.email contact);
             ("subject", EmailContent.subject email_content);
             ("body", personalized_body);
             ("campaign_name", campaign_name);
             ("email_type", email_type) ]
  end.

Definition email_batches_of (campaign : Campaign.t)
           (campaign_name email_type : string) (contacts : list Contact.t)
  : list Dict.t :=
  flat_map (fun contact =>
              match batch_entry campaign campaign_name email_type contact with
              | Some entry => [entry]
              | None => []
              end) contacts.

(** [_send_campaign_emails]: every exception ends the dispatch; what was
    sent and stored before stays. *)
Definition _send_campaign_emails (campaign_name email_type : string)
           (audience_segments : option (list string))
           (srv : server) (s : WorkflowService) : server * WorkflowService :=
  match (_ <- get_collection "campaigns" ;;
         query (Mongo.find_one campaign_name)) s with
  | (Raise _, s') => (srv, s')
  | (Ok None, s') => (srv, s')
  | (Ok (Some campaign), s') =>
      match resolve_contacts audience_segments (contact_service s') with
      | Raise _ => (srv, s')
      | Ok [] => (srv, s')
      | Ok contacts =>
          let email_batches :=
            email_batches_of campaign campaign_name email_type contacts in
          match email_batches with
          | [] => (srv, s')
          | _ =>
              match SMTPService.send_bulk_emails server session sender_email stamp
                      email_batches srv with
              | (Raise _, srv') => (srv', s')
              | (Ok email_logs, srv') =>
                  (srv',
                   snd ((_ <- get_collection "email_logs" ;;
                         for_each email_logs (fun log =>
                           command (fun m =>
                             bind (Mongo.insert_log (LogDoc.of_log log) m)
                                  (fun m' => Ok (m', tt))))) s'))
              end
          end
      end
  end.

End Dispatch.

(** ** The metrics of [services/workflow_service.py] *)

(** Python's [a / b] on integers; the rational stands for the float. *)
Definition truediv (a b : Z) : result Q :=
  if b =? 0 then Raise ZeroDivisionError
  else Ok (Qred (inject_Z a / inject_Z b)).

Definition lift {A : Type} (r : result A) : M A := fun s => (r, s).

(** [len([x for x in xs if p(x)])] *)
Definition count_where {A : Type} (p : A -> bool) (xs : list A) : Z :=
  Z.of_nat (length (filter p xs)).

Module CampaignStatusResponse.
Record t := mk {
  campaign_name : string;
  status : CampaignStatus;
  targets : CampaignTargets.t;
  total_failed : Z;
  opened_count : Z;
  clicked_count : Z;
  progress_percentage : Q;
  next_scheduled_action : option datetime;
  total_emails_sent : Z;
  total_emails_pending : Z;
  open_rate : Q;
  click_rate : Q;
  registration_count : Z
}.
End CampaignStatusResponse.

Module DashboardMetrics.
Record t := mk {
  total_campaigns : Z;
  active_campaigns : Z;
  total_emails_sent : Z;
  total_emails_pending : Z;
  average_open_rate : Q;
  average_click_rate : Q;
  total_registrations : Z;
  campaigns_by_status : list (CampaignStatus * Z)
}.

Definition zero : t := mk 0 0 0 0 0 0 0 [].
End DashboardMetrics.

(** The earliest [next_run_time] among the campaign's jobs that have one. *)
Definition earliest_run (pfx : string) (jobs : list Job.t) : option datetime :=
  fold_left
    (fun next job =>
       if prefix pfx (Job.id job) then
         match Job.next_run_time job, next with
         | Some t, None => Some t
         | Some t, Some cur => if t <? cur then Some t else Some cur
         | None, _ => next
         end
       else next)
    jobs None.

Definition get_campaign_status (campaign_name : string)
  : M (option CampaignStatusResponse.t) :=
  try_except
    (_ <- get_collection "campaigns" ;;
     campaign_data <- query (Mongo.find_one campaign_name) ;;
     match campaign_data with
     | None => ret None
     | Some campaign =>
         _ <- get_collection "email_logs" ;;
         email_logs <- query (Mongo.find_logs campaign_name) ;;
         let total_sent := count_where (has_status SENT) email_logs in
         let total_failed := count_where (has_status FAILED) email_logs in
         let total_pending := count_where (has_status PENDING) email_logs in
         let opened_count := count_where LogDoc.opened email_logs in
         let clicked_count := count_where LogDoc.clicked email_logs in
         open_rate <- (if total_sent >? 0
                       then lift (truediv opened_count total_sent)
                       else ret 0%Q) ;;
         click_rate <- (if total_sent >? 0
                        then lift (truediv clicked_count total_sent)
                        else ret 0%Q) ;;
         let target :=
           CampaignTargets.total_emails_sent (Campaign.targets campaign) in
         progress_percentage <-
           (if target >? 0
            then q <- lift (truediv total_sent target) ;; ret (Qred (q * 100))
            else ret 0%Q) ;;
         jobs <- get_jobs ;;
         let next_scheduled_action := earliest_run (campaign_name ++ "_") jobs in
         let registration_count := 0 in
         ret (Some (CampaignStatusResponse.mk
                      campaign_name (Campaign.status campaign)
                      (Campaign.targets campaign)
                      total_failed opened_count clicked_count
                      progress_percentage next_scheduled_action
                      total_sent total_pending open_rate click_rate
                      registration_count))
     end)
    (fun _ => ret None).

(** The [$group] stage over [status]: one entry per status present. *)
Definition group_by_status (cs : list Campaign.t) : list (CampaignStatus * Z) :=
  filter (fun e => snd e >? 0)
    (map (fun st =>
            (st, count_where (fun c => CampaignStatus_eqb (Campaign.status c) st) cs))
         [DRAFT; SCHEDULED; ACTIVE; PAUSED; COMPLETED; CANCELLED]).

Definition get_dashboard_metrics : M DashboardMetrics.t :=
  try_except
    (_ <- get_collection "campaigns" ;;
     _ <- get_collection "email_logs" ;;
     total_campaigns <- query Mongo.count_campaigns ;;
     active_campaigns <- query (Mongo.count_campaigns_by_status ACTIVE) ;;
     total_emails_sent <- query (Mongo.count_logs_by_status SENT) ;;
     total_emails_pending <- query (Mongo.count_logs_by_status PENDING) ;;
     sent_logs <- query (Mongo.find_logs_by_status SENT) ;;
     let opened_count := count_where LogDoc.opened sent_logs in
     let clicked_count := count_where LogDoc.clicked sent_logs in
     average_open_rate <- (if total_emails_sent >? 0
                           then lift (truediv opened_count total_emails_sent)
                           else ret 0%Q) ;;
     average_click_rate <- (if total_emails_sent >? 0
                            then lift (truediv clicked_count total_emails_sent)
                            else ret 0%Q) ;;
     campaigns_by_status <-
       query (fun m => Mongo.request m (group_by_status (Mongo.campaigns m))) ;;
     ret (DashboardMetrics.mk total_campaigns active_campaigns
            total_emails_sent total_emails_pending
            average_open_rate average_click_rate 0 campaigns_by_status))
    (fun _ => ret DashboardMetrics.zero).

Definition update_campaign_targets (campaign_name : string)
           (targets : CampaignTargets.t) (now : datetime) : M bool :=
  try_except
    (_ <- get_collection "campaigns" ;;
     modified_count <- command (Mongo.update_one campaign_name
                                  (Campaign.set_targets targets now)) ;;
     if modified_count >? 0 then ret true else ret false)
    (fun _ => ret false).

(** ** The claims' wording, for comparison with the code *)

(** The open rate of one campaign as [get_campaign_status] computes it. *)
Definition sent_of (logs : list LogDoc.t) (n : string) : Z :=
  count_where (has_status SENT) (filter (of_campaign n) logs).

Definition opened_of (logs : list LogDoc.t) (n : string) : Z :=
  count_where LogDoc.opened (filter (of_campaign n) logs).

Definition campaign_open_rate (logs : list LogDoc.t) (n : string) : Q :=
  if sent_of logs n >? 0
  then Qred (inject_Z (opened_of logs n) / inject_Z (sent_of logs n))
  else 0%Q.

(** "The average of the per-campaign rates over exactly the campaigns with
    [sent_count > 0]". *)
Definition mean_of_campaign_open_rates (names : list string)
           (logs : list LogDoc.t) : Q :=
  let rated := filter (fun n => sent_of logs n >? 0) names in
  match rated with
  | [] => 0%Q
  | _ =>
      Qred (fold_right Qplus 0%Q (map (campaign_open_rate logs) rated)
            / inject_Z (Z.of_nat (length rated)))
  end.

(** The rate [get_dashboard_metrics] computes: opened sent logs over sent
    logs, all campaigns pooled. *)
Definition pooled_rate (flag : LogDoc.t -> bool) (logs : list LogDoc.t) : Q :=
  let sent_logs := filter (has_status SENT) logs in
  let total := Z.of_nat (length sent_logs) in
  if total >? 0
  then Qred (inject_Z (count_where flag sent_logs) / inject_Z total)
  else 0%Q.

(** ** Further methods of the services *)

(** [WorkflowService.get_all_campaigns] *)
Definition get_all_campaigns : M (list Campaign.t) :=
  try_except
    (_ <- get_collection "campaigns" ;;
     query (fun m => Mongo.request m (Mongo.campaigns m)))
    (fun _ => ret []).

(** The loop of [get_workflows] in [api/dashboard.py]: one entry per
    campaign whose status could be computed. *)
Fixpoint collect_workflows (campaigns : list Campaign.t)
  : M (list (string * CampaignStatus * option datetime)) :=
  match campaigns with
  | [] => ret []
  | campaign :: rest =>
      status <- get_campaign_status (Campaign.name campaign) ;;
      workflows <- collect_workflows rest ;;
      ret (match status with
           | Some st =>
               (Campaign.name campaign, Campaign.status campaign,
                CampaignStatusResponse.next_scheduled_action st) :: workflows
           | None => workflows
           end)
  end.

Definition get_workflows : M (list (string * CampaignStatus * option datetime)) :=
  campaigns <- get_all_campaigns ;;
  collect_workflows campaigns.

(** *** [SMTPService]: what the mail server has seen *)

(** The messages [send_bulk_emails] opens a session for: the entries that
    carry recipient, subject and body, with the sender filled in. *)
Definition message_of (sender_email : string) (email_data : Dict.t)
  : option (string * string * string * string) :=
  match Dict.get email_data "to", Dict.get email_data "subject",
        Dict.get email_data "body" with
  | Some to, Some subject, Some body =>
      let from_email :=
        match Dict.get email_data "from" with
        | Some f => if truthy f then f else sender_email
        | None => sender_email
        end in
      Some (to, from_email, subject, body)
  | _, _, _ => None
  end.

Definition messages_of (sender_email : string) (email_list : list Dict.t)
  : list (string * string * string * string) :=
  flat_map (fun d => match message_of sender_email d with
                     | Some msg => [msg]
                     | None => []
                     end) email_list.

(** The server after a run of sessions. *)
Definition serve {server : Type}
           (session : server -> string * string * string * string -> bool * server)
           (srv : server) (msgs : list (string * string * string * string))
  : server :=
  fold_left (fun st msg => snd (session st msg)) msgs srv.

(** *** [database/mongodb_client.py]: the second connection attempt *)

(** ['?' in uri] *)
Fixpoint has_query (uri : string) : bool :=
  match uri with
  | EmptyString => false
  | String c rest => if Ascii.eqb c "?"%char then true else has_query rest
  end.

(** [uri.split('?')[0]] *)
Fixpoint before_query (uri : string) : string :=
  match uri with
  | EmptyString => EmptyString
  | String c rest => if Ascii.eqb c "?"%char then EmptyString
                     else String c (before_query rest)
  end.

Definition tls_options : string :=
  "tlsAllowInvalidCertificates=true&tlsAllowInvalidHostnames=true&retryWrites=true&w=majority".

(** The [ssl_uri] of [_connect_without_ssl_verification]. *)
Definition ssl_uri (mongodb_uri : string) : string :=
  let base_uri :=
    if has_query mongodb_uri then before_query mongodb_uri else mongodb_uri in
  let separator := if has_query mongodb_uri then "&" else "?" in
  base_uri ++ separator ++ tls_options.

(** *** [ContactService]: engagement, tag counts, ingestion

    [self.collection] is [None] or a collection handle.  As in
    [get_contacts_by_tag] above, the test [if not self.collection] stands
    before the [try] of each method: on a pymongo handle it raises, and the
    exception leaves the method. *)

Module Engagement.
Record t := mk {
  opened : Z;
  clicked : Z;
  replied : Z;
  last_activity : option datetime
}.

Definition zero : t := mk 0 0 0 None.
End Engagement.

(** A stored contact document with all its fields; [Contact.t] is the part
    of it the dispatch reads. *)
Module ContactDoc.
Record t := mk {
  contact : Contact.t;
  location : option string;
  engagement : Engagement.t;
  created_at : datetime
}.
End ContactDoc.

Module ContactStore.
Record t := mk {
  docs : list ContactDoc.t;
  unreachable : bool;
  truth_test_raises : bool
}.

(** The same collection, as [get_contacts_by_tag] and [get_all_contacts]
    read it. *)
Definition view (st : t) : ContactService.Collection :=
  ContactService.mkCollection (map ContactDoc.contact (docs st)) (unreachable st)
                              (truth_test_raises st).

(** [not self.collection] *)
Definition not_collection (collection : option t) : result bool :=
  match collection with
  | None => Ok true
  | Some st =>
      if truth_test_raises st then Raise NotImplementedError else Ok false
  end.

Definition emails (st : t) : list string :=
  map (fun d => Contact.email (ContactDoc.contact d)) (docs st).
End ContactStore.

(** [tag_mapping] of [update_contact_engagement]; [None] for an event type
    outside [valid_events]. *)
Definition tag_mapping (event_type : string) : option string :=
  if (event_type =? "opened")%string then Some "engaged"
  else if (event_type =? "clicked")%string then Some "high-interest"
  else if (event_type =? "replied")%string then Some "priority"
  else None.

(** [$inc engagement.<event_type>], [$set engagement.last_activity] *)
Definition record_event (event_type : string) (now : datetime) (e : Engagement.t)
  : Engagement.t :=
  Engagement.mk
    (if (event_type =? "opened")%string then Engagement.opened e + 1
     else Engagement.opened e)
    (if (event_type =? "clicked")%string then Engagement.clicked e + 1
     else Engagement.clicked e)
    (if (event_type =? "replied")%string then Engagement.replied e + 1
     else Engagement.replied e)
    (Some now).

(** [$addToSet tags] *)
Definition add_to_set (tag : string) (tags : list string) : list string :=
  if existsb (fun x => (x =? tag)%string) tags then tags else (tags ++ [tag])%list.

Definition engage (event_type tag : string) (now : datetime) (d : ContactDoc.t)
  : ContactDoc.t :=
  let c := ContactDoc.contact d in
  ContactDoc.mk
    (Contact.mk (Contact.email c) (Contact.name c) (Contact.role c)
                (Contact.school_name c) (add_to_set tag (Contact.tags c)))
    (ContactDoc.location d)
    (record_event event_type now (ContactDoc.engagement d))
    (ContactDoc.created_at d).

(** [update_one({"email": e}, ...)]: the first document with that address
    is rewritten; the flag is [matched_count > 0]. *)
Fixpoint update_contact (e : string) (f : ContactDoc.t -> ContactDoc.t)
         (ds : list ContactDoc.t) : list ContactDoc.t * bool :=
  match ds with
  | [] => ([], false)
  | d :: rest =>
      if (Contact.email (ContactDoc.contact d) =? e)%string
      then (f d :: rest, true)
      else let (rest', matched) := update_contact e f rest in (d :: rest', matched)
  end.

(** A cell of the data frame: [None] for a missing value (NaN). *)
Definition cell := option string.

(** [str(cell)] *)
Definition cell_str (c : cell) : string :=
  match c with
  | Some v => v
  | None => "nan"
  end.

Module DataFrame.
Record t := mk {
  columns : list string;
  rows : list (string -> cell)
}.
End DataFrame.

(** The columns found for the four fields of the schema. *)
Module ColumnMapping.
Record t := mk {
  name : option string;
  email : option string;
  role : option string;
  location : option string
}.

Definition empty : t := mk None None None None.
End ColumnMapping.

Module IngestionResult.
Record t := mk {
  total_processed : Z;
  contacts_added : Z;
  duplicates_skipped : Z;
  invalid_emails : Z;
  errors : list string
}.

Definition zero : t := mk 0 0 0 0 [].
End IngestionResult.

Section Contacts.

(** [str.lower], [str.strip] and the check of the [email_validator]
    package, which returns the normalised address of a valid one. *)
Variable lower : string -> string.
Variable strip : string -> string.
Variable validate_email : string -> option string.

(** [ContactService.update_contact_engagement]: the answer and the
    collection afterwards. *)
Definition update_contact_engagement (collection : option ContactStore.t)
           (email event_type : string) (now : datetime)
  : result bool * option ContactStore.t :=
  match ContactStore.not_collection collection with
  | Raise e => (Raise e, collection)
  | Ok true => (Ok false, collection)
  | Ok false =>
      match collection with
      | None => (Ok false, collection)       (* AttributeError, caught *)
      | Some st =>
          match tag_mapping event_type with
          | None => (Ok false, collection)
          | Some tag_to_add =>
              if ContactStore.unreachable st then (Ok false, collection)
              else
                let (ds, matched) :=
                  update_contact (lower email) (engage event_type tag_to_add now)
                                 (ContactStore.docs st) in
                (Ok matched,
                 Some (ContactStore.mk ds (ContactStore.unreachable st)
                                       (ContactStore.truth_test_raises st)))
          end
      end
  end.

(** [ContactService.get_contact_by_email] *)
Definition get_contact_by_email (collection : option ContactStore.t)
           (email : string) : option ContactDoc.t :=
  match collection with
  | None => None
  | Some st =>
      if ContactStore.unreachable st then None
      else find (fun d => (Contact.email (ContactDoc.contact d) =? lower email)%string)
                (ContactStore.docs st)
  end.

(** The [$unwind]/[$group] pipeline of [get_contact_counts_by_tag]: one
    count per tag that occurs, every occurrence counted. *)
Fixpoint bump (tag : string) (counts : list (string * Z)) : list (string * Z) :=
  match counts with
  | [] => [(tag, 1)]
  | (t, k) :: rest =>
      if (t =? tag)%string then (t, k + 1) :: rest else (t, k) :: bump tag rest
  end.

Definition unwind_tags (ds : list ContactDoc.t) : list string :=
  flat_map (fun d => Contact.tags (ContactDoc.contact d)) ds.

Definition group_tags (ds : list ContactDoc.t) : list (string * Z) :=
  fold_left (fun counts tag => bump tag counts) (unwind_tags ds) [].

Definition expected_tags : list string := ["engaged"; "high-interest"; "priority"].

(** [tag_counts[tag]], when the key is there. *)
Fixpoint count_of (counts : list (string * Z)) (tag : string) : option Z :=
  match counts with
  | [] => None
  | (t, k) :: rest => if (t =? tag)%string then Some k else count_of rest tag
  end.

(** [for tag in expected_tags: if tag not in tag_counts: tag_counts[tag] = 0] *)
Definition with_expected (counts : list (string * Z)) : list (string * Z) :=
  fold_left (fun acc tag =>
               match count_of acc tag with
               | Some _ => acc
               | None => (acc ++ [(tag, 0)])%list
               end) expected_tags counts.

(** [ContactService.get_contact_counts_by_tag] *)
Definition get_contact_counts_by_tag (collection : option ContactStore.t)
  : result (list (string * Z)) :=
  bind (ContactStore.not_collection collection) (fun missing =>
  if missing then Ok (map (fun tag => (tag, 0)) expected_tags)
  else
    match collection with
    | None => Ok (map (fun tag => (tag, 0)) expected_tags)
    | Some st =>
        if ContactStore.unreachable st
        then Ok (map (fun tag => (tag, 0)) expected_tags)
        else Ok (with_expected (group_tags (ContactStore.docs st)))
    end).

(** [_normalize_email] *)
Definition _normalize_email (email : cell) : option string :=
  match email with
  | None => None
  | Some v => if truthy v then validate_email (lower (strip v)) else None
  end.

Definition name_columns : list string :=
  ["name"; "school name"; "principal"; "school"; "contact name"; "full name"].
Definition email_columns : list string :=
  ["email"; "email id"; "email address"; "email_address"; "emailid"].
Definition role_columns : list string :=
  ["role"; "position"; "title"; "designation"].
Definition location_columns : list string :=
  ["location"; "city"; "state"; "address"; "school location"].

Definition mem (x : string) (l : list string) : bool :=
  existsb (fun y => (y =? x)%string) l.

Definition is_none {A : Type} (o : option A) : bool :=
  match o with
  | None => true
  | Some _ => false
  end.

(** One pass of the loop of [_map_csv_columns]. *)
Definition map_column (m : ColumnMapping.t) (col : string) : ColumnMapping.t :=
  let col_lower := strip (lower col) in
  if mem col_lower name_columns && is_none (ColumnMapping.name m)
  then ColumnMapping.mk (Some col) (ColumnMapping.email m)
                        (ColumnMapping.role m) (ColumnMapping.location m)
  else if mem col_lower email_columns && is_none (ColumnMapping.email m)
  then ColumnMapping.mk (ColumnMapping.name m) (Some col)
                        (ColumnMapping.role m) (ColumnMapping.location m)
  else if mem col_lower role_columns && is_none (ColumnMapping.role m)
  then ColumnMapping.mk (ColumnMapping.name m) (ColumnMapping.email m)
                        (Some col) (ColumnMapping.location m)
  else if mem col_lower location_columns && is_none (ColumnMapping.location m)
  then ColumnMapping.mk (ColumnMapping.name m) (ColumnMapping.email m)
                        (ColumnMapping.role m) (Some col)
  else m.

Definition _map_csv_columns (df : DataFrame.t) : ColumnMapping.t :=
  fold_left map_column (DataFrame.columns df) ColumnMapping.empty.

(** What one row of the frame comes to. *)
Inductive row_outcome :=
| Added (d : ContactDoc.t)
| Duplicate
| Invalid
| Failed (e : exn).

(** [f"Row {index + 1}: {str(e)}"] *)
Definition row_error (index : nat) (e : exn) : string :=
  "Row " ++ NilEmpty.string_of_uint (Nat.to_uint (index + 1)) ++ ": " ++ str e.

(** The body of the loop of [ingest_csv] on one row.  [insert_one] raises a
    duplicate key error for an address the collection already holds, the
    address being its unique key, and another error when the server cannot
    be reached. *)
Definition ingest_row (email_col name_col : string) (role_col location_col : option string)
           (now : datetime) (st : ContactStore.t) (row : string -> cell)
  : row_outcome :=
  let email := _normalize_email (row email_col) in
  let name := strip (cell_str (row name_col)) in
  match email with
  | None => Invalid
  | Some email =>
      if negb (truthy email) || negb (truthy name) then Invalid
      else
        let role :=
          match role_col with
          | Some rc =>
              let role_value := strip (cell_str (row rc)) in
              if truthy role_value
                 && mem (lower role_value) ["principal"; "head"; "director"]
              then "principal" else "school"
          | None => "school"
          end in
        let location :=
          match location_col with
          | Some lc =>
              let location_value := strip (cell_str (row lc)) in
              if truthy location_value then Some location_value else None
          | None => None
          end in
        if ContactStore.unreachable st then Failed PyMongoError
        else if mem email (ContactStore.emails st) then Duplicate
        else Added (ContactDoc.mk
                      (Contact.mk email (Some name) (Some role) None [])
                      location Engagement.zero now)
  end.

(** The loop over the rows: the counters and the collection it leaves. *)
Fixpoint ingest_rows (email_col name_col : string)
         (role_col location_col : option string) (now : datetime)
         (index : nat) (rows : list (string -> cell))
         (acc : IngestionResult.t * ContactStore.t)
  : IngestionResult.t * ContactStore.t :=
  match rows with
  | [] => acc
  | row :: rest =>
      let (result, st) := acc in
      let acc' :=
        match ingest_row email_col name_col role_col location_col now st row with
        | Added d =>
            (IngestionResult.mk (IngestionResult.total_processed result)
                                (IngestionResult.contacts_added result + 1)
                                (IngestionResult.duplicates_skipped result)
                                (IngestionResult.invalid_emails result)
                                (IngestionResult.errors result),
             ContactStore.mk (ContactStore.docs st ++ [d])%list
                             (ContactStore.unreachable st)
                             (ContactStore.truth_test_raises st))
        | Duplicate =>
            (IngestionResult.mk (IngestionResult.total_processed result)
                                (IngestionResult.contacts_added result)
                                (IngestionResult.duplicates_skipped result + 1)
                                (IngestionResult.invalid_emails result)
                                (IngestionResult.errors result),
             st)
        | Invalid =>
            (IngestionResult.mk (IngestionResult.total_processed result)
                                (IngestionResult.contacts_added result)
                                (IngestionResult.duplicates_skipped result)
                                (IngestionResult.invalid_emails result + 1)
                                (IngestionResult.errors result),
             st)
        | Failed e =>
            (IngestionResult.mk (IngestionResult.total_processed result)
                                (IngestionResult.contacts_added result)
                                (IngestionResult.duplicates_skipped result)
                                (IngestionResult.invalid_emails result)
                                (IngestionResult.errors result
                                 ++ [row_error index e])%list,
             st)
        end in
      ingest_rows email_col name_col role_col location_col now (S index) rest acc'
  end.

(** [ContactService.ingest_csv]: [frame] is what [pd.read_csv] gave. *)
Definition ingest_csv (collection : option ContactStore.t)
           (frame : result DataFrame.t) (now : datetime)
  : result IngestionResult.t * option ContactStore.t :=
  match ContactStore.not_collection collection with
  | Raise e => (Raise e, collection)
  | Ok true => (Ok IngestionResult.zero, collection)
  | Ok false =>
      match collection with
      | None => (Ok IngestionResult.zero, collection)
      | Some st =>
          match frame with
          | Raise e => (Ok (IngestionResult.mk 0 0 0 0 [str e]), collection)
          | Ok df =>
              let total := Z.of_nat (length (DataFrame.rows df)) in
              let column_mapping := _map_csv_columns df in
              match ColumnMapping.email column_mapping with
              | None =>
                  (Ok (IngestionResult.mk total 0 0 0
                         ["No email column found in CSV"]),
                   collection)
              | Some email_col =>
                  match ColumnMapping.name column_mapping with
                  | None =>
                      (Ok (IngestionResult.mk total 0 0 0
                             ["No name column found in CSV"]),
                       collection)
                  | Some name_col =>
                      let (result, st') :=
                        ingest_rows email_col name_col
                                    (ColumnMapping.role column_mapping)
                                    (ColumnMapping.location column_mapping) now
                                    0%nat (DataFrame.rows df)
                                    (IngestionResult.mk total 0 0 0 [], st) in
                      (Ok result, Some st')
                  end
              end
          end
      end
  end.

End Contacts.

(** ** Vocabulary for the statements *)

(** How many stored jobs carry the id [jid]. *)
Definition count_id (jid : string) (js : list Job.t) : nat :=
  length (filter (fun k => (Job.id k =? jid)%string) js).

Definition job_ids (js : list Job.t) : list string := map Job.id js.

(** The four stages in the order [schedule_campaign] visits them. *)
Definition stages_of (p : WorkflowPlan.t) : list (string * option datetime) :=
  [ ("invite", WorkflowPlan.invite p);
    ("reminder", WorkflowPlan.reminder p);
    ("thank_you", WorkflowPlan.thank_you p);
    ("follow_up", WorkflowPlan.follow_up p) ].

Definition stage_job (campaign_name : string)
           (audience_segments : option (list string))
           (stage : string) (d : datetime) : Job.t :=
  Job.mk (job_id campaign_name stage) d (Some d)
         (campaign_name, stage, audience_segments).

(** The job-store side of [schedule_campaign], stage by stage: the flag
    tells whether every [add_job] went through, the scheduler is the one
    left behind either way. *)
Fixpoint run_stages (campaign_name : string)
         (audience_segments : option (list string))
         (l : list (string * option datetime)) (sch : Scheduler.t)
  : bool * Scheduler.t :=
  match l with
  | [] => (true, sch)
  | (_, None) :: rest => run_stages campaign_name audience_segments rest sch
  | (stage, Some d) :: rest =>
      match Scheduler.add_job (stage_job campaign_name audience_segments stage d) sch with
      | Ok sch' => run_stages campaign_name audience_segments rest sch'
      | Raise _ => (false, sch)
      end
  end.

(** The loop of [pause_campaign] and [resume_campaign] read off the stored
    list: every job of the campaign gets [f] until a request raises; the
    flag tells whether the loop ran to its end. *)
Fixpoint sweep (raises : string -> bool) (pfx : string) (f : Job.t -> Job.t)
         (js : list Job.t) : list Job.t * bool :=
  match js with
  | [] => ([], true)
  | k :: rest =>
      if prefix pfx (Job.id k) then
        if raises (Job.id k) then (k :: rest, false)
        else let (rest', ok) := sweep raises pfx f rest in (f k :: rest', ok)
      else let (rest', ok) := sweep raises pfx f rest in (k :: rest', ok)
  end.

(** Can the service write to its [campaigns] collection? *)
Definition registry_writable (s : WorkflowService) : bool :=
  match mongodb_client s with
  | Some m => negb (Mongo.lookup_raises m) && negb (Mongo.server_down m)
  | None => false
  end.

(** What a log entry says about the batch entry it was made for. *)
Definition logged_for (email_data : Dict.t) (entry : EmailLog.t) : Prop :=
  Dict.get email_data "to" = Some (EmailLog.email entry)
  /\ EmailLog.campaign_name entry = Dict.get_default email_data "campaign_name" ""
  /\ EmailLog.email_type entry = Dict.get_default email_data "email_type" ""
  /\ ((EmailLog.status entry = SENT
       /\ EmailLog.message_id entry <> None
       /\ EmailLog.error_message entry = None)
      \/ (EmailLog.status entry = FAILED
          /\ EmailLog.message_id entry = None
          /\ EmailLog.error_message entry <> None)).

(** The answer of the mail server to the entry's message, and the server
    afterwards: [None] for an entry that lacks recipient, subject or body
    and so reaches no session. *)
Definition answer_of {server : Type}
           (session : server -> string * string * string * string -> bool * server)
           (sender_email : string) (srv : server) (email_data : Dict.t)
  : option bool * server :=
  match message_of sender_email email_data with
  | Some msg => let (ok, srv') := session srv msg in (Some ok, srv')
  | None => (None, srv)
  end.

(** The answers to a batch, entry by entry, each session starting from the
    server the sessions before it left. *)
Fixpoint answers {server : Type}
         (session : server -> string * string * string * string -> bool * server)
         (sender_email : string) (srv : server) (email_list : list Dict.t)
  : list (option bool) :=
  match email_list with
  | [] => []
  | email_data :: rest =>
      let (answer, srv') := answer_of session sender_email srv email_data in
      answer :: answers session sender_email srv' rest
  end.

(** What the log of an entry must say for that answer: sent, with a
    message id, when the server took the message; failed, with the text of
    [send_bulk_emails], when it refused it; failed with some error text when
    the entry reached no session. *)
Definition logged_answer (answer : option bool) (entry : EmailLog.t) : Prop :=
  match answer with
  | Some true =>
      EmailLog.status entry = SENT
      /\ EmailLog.message_id entry <> None
      /\ EmailLog.error_message entry = None
  | Some false =>
      EmailLog.status entry = FAILED
      /\ EmailLog.message_id entry = None
      /\ EmailLog.error_message entry = Some "Failed to send email"
  | None =>
      EmailLog.status entry = FAILED
      /\ EmailLog.message_id entry = None
      /\ EmailLog.error_message entry <> None
  end.

(** Did the server take the entry's message? *)
Definition accepted (answer : option bool) : bool :=
  match answer with
  | Some true => true
  | _ => false
  end.


(** Does creating one of the requested stage jobs raise? *)
Definition blocked (campaign_name : string)
           (l : list (string * option datetime)) (sch : Scheduler.t) : bool :=
  existsb (fun sr =>
             match snd sr with
             | Some _ => Scheduler.raises sch (job_id campaign_name (fst sr))
             | None => false
             end) l.

(** A call of [schedule_campaign], and a sequence of such calls. *)
Record ScheduleCall := mkScheduleCall {
  call_name : string;
  call_plan : WorkflowPlan.t;
  call_targets : CampaignTargets.t;
  call_segments : option (list string);
  call_now : datetime
}.

Definition schedule_call (c : ScheduleCall) : M bool :=
  schedule_campaign (call_name c) (call_plan c) (call_targets c)
                    (call_segments c) (call_now c).

Definition run_calls (calls : list ScheduleCall) (s : WorkflowService)
  : WorkflowService :=
  fold_left (fun st c => snd (schedule_call c st)) calls s.

(** The campaigns after [replace_one({'name': n}, doc, upsert=True)]. *)
Definition upserted (n : string) (doc : Campaign.t) (cs : list Campaign.t)
  : list Campaign.t :=
  let '(cs', matched, _) := Mongo.update_first n (fun _ => doc) cs in
  if matched then cs' else (cs ++ [doc])%list.

(** The campaigns after [update_one({'name': n}, {'$set': ...})]. *)
Definition updated (n : string) (f : Campaign.t -> Campaign.t)
           (cs : list Campaign.t) : list Campaign.t :=
  fst (fst (Mongo.update_first n f cs)).

(** The document [schedule_campaign] writes. *)
Definition scheduled_record (n : string) (p : WorkflowPlan.t)
           (t : CampaignTargets.t) (now : datetime) : Campaign.t :=
  Campaign.mk n n SCHEDULED p t now now (Some "system").

(** The four counters that account for a row. *)
Definition accounted (r : IngestionResult.t) : Z :=
  IngestionResult.contacts_added r + IngestionResult.duplicates_skipped r
  + IngestionResult.invalid_emails r
  + Z.of_nat (List.length (IngestionResult.errors r)).

(** A document as [ingest_csv] inserts it: no tag, no engagement yet. *)
Definition fresh (now : datetime) (d : ContactDoc.t) : Prop :=
  Contact.tags (ContactDoc.contact d) = []
  /\ ContactDoc.engagement d = Engagement.zero
  /\ ContactDoc.created_at d = now.

(** ** Sample data for the examples *)

Definition no_contacts : ContactService.t := ContactService.mk None.

Definition sample_targets : CampaignTargets.t :=
  CampaignTargets.mk 1000 5000 (1 # 4) (1 # 20).

(** Invite set, the three other stages left out. *)
Definition invite_only (d : datetime) : WorkflowPlan.t :=
  WorkflowPlan.mk (Some d) None None None.

(** A service without document store, on the in-memory job store. *)
Definition volatile_service (js : list Job.t) : WorkflowService :=
  mkWorkflowService None no_contacts (Scheduler.mk MemoryJobStore js).

(** A service whose document store refuses every request. *)
Definition down_store : Mongo.t := Mongo.mk false true [] [].

Definition service_with_store_down : WorkflowService :=
  mkWorkflowService (Some down_store) no_contacts (Scheduler.mk MemoryJobStore []).

(** A document store that answers, the lookup by name included: a store
    behind a client whose [get_collection] takes the collection's name.
    The repository's [MongoDBClient] is not such a client; the store behind
    it is [Mongo.through]. *)
Definition up_store (cs : list Campaign.t) (logs : list LogDoc.t) : Mongo.t :=
  Mongo.mk false false cs logs.

(** The service as the repository wires it: its client, when the
    connection succeeded, is a [MongoDBClient] in front of the stored
    campaigns and logs. *)
Definition repository_client (client : option MongoDBClient.t)
           (cs : list Campaign.t) (logs : list LogDoc.t) : option Mongo.t :=
  option_map (fun c => Mongo.through c cs logs) client.

Definition repository_service (client : option MongoDBClient.t)
           (cs : list Campaign.t) (logs : list LogDoc.t)
           (contacts : ContactService.t) (sch : Scheduler.t) : WorkflowService :=
  mkWorkflowService (repository_client client cs logs) contacts sch.

Definition service_on (m : Mongo.t) (js : list Job.t) : WorkflowService :=
  mkWorkflowService (Some m) no_contacts (Scheduler.mk MemoryJobStore js).

Definition sample_campaign (n : string) (t : CampaignTargets.t) : Campaign.t :=
  Campaign.mk n n SCHEDULED (invite_only 60) t 0 0 (Some "system").

(** A log of a sent invite, with its [opened] flag. *)
Definition sent_log (n : string) (opened : bool) : LogDoc.t :=
  LogDoc.mk (EmailLog.mk n "head@school.example" "invite" SENT (Some "smpt_1") None 0)
            opened false.

(** Targets whose email-volume goal is negative. *)
Definition negative_targets : CampaignTargets.t :=
  CampaignTargets.mk 0 (-5) (1 # 4) (1 # 20).

(** Two contacts: one carrying both tags, one carrying the first only. *)
Definition both_tags : Contact.t :=
  Contact.mk "head@school.example" (Some "Head") (Some "principal") None
             ["engaged"; "priority"].

Definition one_tag : Contact.t :=
  Contact.mk "office@school.example" (Some "Office") (Some "school") None
             ["engaged"].

Definition two_contacts : ContactService.t :=
  ContactService.mk (Some (ContactService.pymongo [both_tags; one_tag] false)).

(** The same two contacts behind a handle that tests true. *)
Definition two_contacts_tested : ContactService.t :=
  ContactService.mk
    (Some (ContactService.mkCollection [both_tags; one_tag] false false)).

(** A connected client of the repository, the two contacts in its
    collection. *)
Definition connected_client : MongoDBClient.t :=
  MongoDBClient.mk true [both_tags; one_tag] false.

(** A directory of [k] contacts with distinct addresses. *)
Definition numbered_contact (i : nat) : Contact.t :=
  Contact.mk (String (Ascii.ascii_of_nat i) "@school.example") None None None [].

Definition directory (k : nat) : ContactService.t :=
  ContactService.mk
    (Some (ContactService.pymongo (map numbered_contact (seq 0 k)) false)).

(** A mail server that refuses one address and counts its sessions. *)
Definition refusing (bad : string) (srv : nat)
           (msg : string * string * string * string) : bool * nat :=
  let '(to, _, _, _) := msg in (negb (to =? bad)%string, S srv).

Definition mail_to (to : string) : Dict.t :=
  [("to", to); ("subject", "Invitation"); ("body", "Welcome");
   ("campaign_name", "Launch"); ("email_type", "invite")].

(** The pending invite job of campaign "Launch". *)
Definition launch_invite : Job.t :=
  Job.mk "Launch_invite" 60 (Some 60) ("Launch", "invite", None).

Definition launch_service : WorkflowService :=
  service_on (up_store [sample_campaign "Launch" sample_targets] []) [launch_invite].

(** Campaign "Launch" stored, its invite pending, and the two contacts in
    the directory. *)
Definition launch_with_contacts : WorkflowService :=
  mkWorkflowService (Some (up_store [sample_campaign "Launch" sample_targets] []))
                    two_contacts (Scheduler.mk MemoryJobStore [launch_invite]).

(** A generator that gives everyone the same content. *)
Definition fixed_content (title role email_type : string)
  : result (option EmailContent.t) :=
  Ok (Some (EmailContent.mk "Invitation" "Dear {contact_name}")).

(** The two contacts as stored documents. *)
Definition head_doc : ContactDoc.t :=
  ContactDoc.mk both_tags (Some "Pune") Engagement.zero 0.

Definition office_doc : ContactDoc.t :=
  ContactDoc.mk one_tag None Engagement.zero 0.

Definition two_docs : ContactStore.t :=
  ContactStore.mk [head_doc; office_doc] false true.

(** The same documents behind a handle that tests true. *)
Definition two_docs_tested : ContactStore.t :=
  ContactStore.mk [head_doc; office_doc] false false.

(** Stand-ins for [str.lower] and the address check, and a frame of four
    rows: a new contact, one already stored, and two without a usable
    address. *)
Definition ascii_lower (c : ascii) : ascii :=
  let n := nat_of_ascii c in
  if (65 <=? n)%nat && (n <=? 90)%nat then ascii_of_nat (n + 32) else c.

Fixpoint sample_lower (s : string) : string :=
  match s with
  | EmptyString => EmptyString
  | String c rest => String (ascii_lower c) (sample_lower rest)
  end.

Fixpoint has_at (s : string) : bool :=
  match s with
  | EmptyString => false
  | String c rest => if Ascii.eqb c "@"%char then true else has_at rest
  end.

Definition sample_validate (email : string) : option string :=
  if has_at email then Some email else None.

Definition sample_row (name email : cell) (col : string) : cell :=
  if (col =? "Name")%string then name
  else if (col =? "Email ID")%string then email
  else None.

Definition sample_frame : DataFrame.t :=
  DataFrame.mk ["Name"; "Email ID"; "Phone"]
    [ sample_row (Some "Dean") (Some "Dean@School.Example");
      sample_row (Some "Office") (Some "office@school.example");
      sample_row (Some "Clerk") (Some "clerk.school.example");
      sample_row (Some "Guard") None ].

(** * Properties *)

(** ** The job store *)

Section JobStoreFacts.

Lemma lookup_job_none_count (jid : string) (js : list Job.t) :
  Scheduler.lookup_job jid js = None -> count_id jid js = 0%nat.
Proof.
  unfold Scheduler.lookup_job, count_id.
  induction js as [|k rest IH]; simpl; [reflexivity|].
  destruct (Job.id k =? jid)%string; [discriminate | exact IH].
Qed.

Lemma lookup_job_some_id (jid : string) (js : list Job.t) (j : Job.t) :
  Scheduler.lookup_job jid js = Some j -> Job.id j = jid.
Proof.
  unfold Scheduler.lookup_job. intros H.
  apply find_some in H. destruct H as [_ H].
  now apply String.eqb_eq.
Qed.

Lemma count_id_app (jid : string) (a b : list Job.t) :
  count_id jid (a ++ b) = (count_id jid a + count_id jid b)%nat.
Proof.
  unfold count_id. now rewrite filter_app, length_app.
Qed.

Lemma modify_job_ids (jid : string) (f : Job.t -> Job.t) (js : list Job.t) :
  (forall k, Job.id (f k) = Job.id k \/ Job.id (f k) = jid) ->
  job_ids (Scheduler.modify_job jid f js) = job_ids js.
Proof.
  intros Hf. unfold job_ids.
  induction js as [|k rest IH]; simpl; [reflexivity|].
  destruct (Job.id k =? jid)%string eqn:E; simpl.
  - apply String.eqb_eq in E. destruct (Hf k) as [H|H]; rewrite H; congruence.
  - now rewrite IH.
Qed.

Lemma count_id_ids (jid : string) (a b : list Job.t) :
  job_ids a = job_ids b -> count_id jid a = count_id jid b.
Proof.
  unfold count_id, job_ids. revert b.
  induction a as [|x a IH]; intros [|y b] H; simpl in *; try discriminate;
    [reflexivity|].
  injection H as Hxy Hab. rewrite Hxy.
  destruct (Job.id y =? jid)%string; simpl; now rewrite (IH b Hab).
Qed.

Lemma lookup_modify_same (jid : string) (j : Job.t) (js : list Job.t) :
  Job.id j = jid ->
  Scheduler.lookup_job jid js <> None ->
  Scheduler.lookup_job jid (Scheduler.modify_job jid (fun _ => j) js) = Some j.
Proof.
  intros Hj. unfold Scheduler.lookup_job.
  induction js as [|k rest IH]; simpl; [congruence|].
  destruct (Job.id k =? jid)%string eqn:E; simpl.
  - intros _. subst jid. now rewrite String.eqb_refl.
  - rewrite E. exact IH.
Qed.

Lemma lookup_modify_other (jid x : string) (f : Job.t -> Job.t) (js : list Job.t) :
  x <> jid ->
  (forall k, Job.id (f k) = Job.id k \/ Job.id (f k) = jid) ->
  Scheduler.lookup_job x (Scheduler.modify_job jid f js) = Scheduler.lookup_job x js.
Proof.
  intros Hx Hf. unfold Scheduler.lookup_job.
  induction js as [|k rest IH]; simpl; [reflexivity|].
  destruct (Job.id k =? jid)%string eqn:E; simpl.
  - apply String.eqb_eq in E.
    assert ((Job.id (f k) =? x)%string = false) as ->.
    { apply String.eqb_neq. destruct (Hf k) as [H|H]; rewrite H; congruence. }
    assert ((Job.id k =? x)%string = false) as ->.
    { apply String.eqb_neq. congruence. }
    reflexivity.
  - destruct (Job.id k =? x)%string; [reflexivity | exact IH].
Qed.

Lemma lookup_app_other (x : string) (j : Job.t) (js : list Job.t) :
  x <> Job.id j ->
  Scheduler.lookup_job x (js ++ [j]) = Scheduler.lookup_job x js.
Proof.
  intros Hx. unfold Scheduler.lookup_job.
  induction js as [|k rest IH]; simpl.
  - assert ((Job.id j =? x)%string = false) as ->; [|reflexivity].
    apply String.eqb_neq. congruence.
  - destruct (Job.id k =? x)%string; [reflexivity | exact IH].
Qed.

Lemma lookup_app_new (j : Job.t) (js : list Job.t) :
  Scheduler.lookup_job (Job.id j) js = None ->
  Scheduler.lookup_job (Job.id j) (js ++ [j]) = Some j.
Proof.
  unfold Scheduler.lookup_job.
  induction js as [|k rest IH]; simpl.
  - now rewrite String.eqb_refl.
  - destruct (Job.id k =? Job.id j)%string; [discriminate | exact IH].
Qed.

(** What one [add_job] does to the store. *)
Lemma add_job_effect (j : Job.t) (sch sch' : Scheduler.t) :
  Scheduler.add_job j sch = Ok sch' ->
  Scheduler.jobstore sch' = Scheduler.jobstore sch
  /\ Scheduler.lookup_job (Job.id j) (Scheduler.jobs sch') = Some j
  /\ (forall x, x <> Job.id j ->
        Scheduler.lookup_job x (Scheduler.jobs sch')
        = Scheduler.lookup_job x (Scheduler.jobs sch)
        /\ count_id x (Scheduler.jobs sch') = count_id x (Scheduler.jobs sch))
  /\ count_id (Job.id j) (Scheduler.jobs sch')
     = Nat.max 1 (count_id (Job.id j) (Scheduler.jobs sch)).
Proof.
  unfold Scheduler.add_job. intros H.
  destruct (Scheduler.raises sch (Job.id j)); [discriminate|].
  destruct (Scheduler.lookup_job (Job.id j) (Scheduler.jobs sch)) as [old|] eqn:L;
    injection H as <-; simpl.
  - assert (Hf : forall k : Job.t,
               Job.id ((fun _ => j) k) = Job.id k \/ Job.id ((fun _ => j) k) = Job.id j)
      by (intros; now right).
    repeat split.
    + apply lookup_modify_same; [reflexivity | congruence].
    + now apply lookup_modify_other.
    + apply count_id_ids. now apply modify_job_ids.
    + rewrite (count_id_ids (Job.id j) _ (Scheduler.jobs sch))
        by now apply modify_job_ids.
      assert (count_id (Job.id j) (Scheduler.jobs sch) <> 0)%nat; [|destruct (count_id (Job.id j) (Scheduler.jobs sch)); [contradiction | reflexivity]].
      unfold count_id, Scheduler.lookup_job in *.
      apply find_some in L. destruct L as [Hin Hid].
      intros Hz. apply length_zero_iff_nil in Hz.
      assert (In old (filter (fun k => (Job.id k =? Job.id j)%string)
                             (Scheduler.jobs sch)))
        by (apply filter_In; now split).
      rewrite Hz in H. contradiction.
  - repeat split.
    + now apply lookup_app_new.
    + now apply lookup_app_other.
    + rewrite count_id_app. unfold count_id at 2. simpl.
      assert ((Job.id j =? x)%string = false) as ->; [|simpl; lia].
      apply String.eqb_neq. congruence.
    + rewrite count_id_app, (lookup_job_none_count _ _ L).
      unfold count_id at 1. simpl. now rewrite String.eqb_refl.
Qed.

End JobStoreFacts.

(** ** [schedule_campaign] *)

Section ScheduleFacts.

(** The Registry write of [schedule_campaign] is guarded twice: it never
    raises to the caller and never touches the scheduler. *)
Lemma save_campaign_safe (c : Campaign.t) (s : WorkflowService) :
  fst (save_campaign c s) = Ok tt
  /\ scheduler (snd (save_campaign c s)) = scheduler s
  /\ contact_service (snd (save_campaign c s)) = contact_service s.
Proof.
  unfold save_campaign, try_except, mbind, get_collection, command, ret.
  destruct (mongodb_client s) as [m|] eqn:Hm; simpl; [|auto].
  destruct (Mongo.get_collection m "campaigns"); simpl; [|auto].
  rewrite Hm.
  destruct (Mongo.replace_one (Campaign.name c) c m); simpl; auto.
Qed.

Lemma schedule_stage_run (n stage : string) (rd : option datetime)
      (a : option (list string)) (acc : list string) (s : WorkflowService) :
  schedule_stage n stage rd a acc s =
  match rd with
  | None => (Ok acc, s)
  | Some d =>
      match Scheduler.add_job (stage_job n a stage d) (scheduler s) with
      | Ok sch' => (Ok (acc ++ [job_id n stage])%list, set_scheduler sch' s)
      | Raise e => (Raise e, s)
      end
  end.
Proof.
  unfold schedule_stage, mbind, on_scheduler, ret, stage_job.
  destruct rd as [d|]; [|reflexivity].
  destruct (Scheduler.add_job _ (scheduler s)); reflexivity.
Qed.

Lemma mbind_stage {B : Type} (n stage : string) (rd : option datetime)
      (a : option (list string)) (acc : list string)
      (k : list string -> M B) (s : WorkflowService) :
  (acc' <- schedule_stage n stage rd a acc ;; k acc') s =
  match rd with
  | None => k acc s
  | Some d =>
      match Scheduler.add_job (stage_job n a stage d) (scheduler s) with
      | Ok sch' => k (acc ++ [job_id n stage])%list (set_scheduler sch' s)
      | Raise e => (Raise e, s)
      end
  end.
Proof.
  unfold mbind at 1. rewrite schedule_stage_run.
  destruct rd as [d|]; [|reflexivity].
  destruct (Scheduler.add_job _ (scheduler s)); reflexivity.
Qed.

(** [schedule_campaign] is the guarded Registry write followed by the four
    stage blocks; its answer is whether every [add_job] went through. *)
Lemma schedule_campaign_run (n : string) (p : WorkflowPlan.t)
      (t : CampaignTargets.t) (a : option (list string)) (now : datetime)
      (s : WorkflowService) :
  schedule_campaign n p t a now s =
  let c := Campaign.mk n n SCHEDULED p t now now (Some "system") in
  let r := run_stages n a (stages_of p) (scheduler s) in
  (Ok (fst r), set_scheduler (snd r) (snd (save_campaign c s))).
Proof.
  unfold schedule_campaign, try_except. cbv zeta.
  unfold mbind at 1.
  destruct (save_campaign_safe (Campaign.mk n n SCHEDULED p t now now (Some "system")) s)
    as (Hr & Hs & _).
  destruct (save_campaign _ s) as [r0 s0]. simpl in Hr, Hs. subst r0.
  rewrite <- Hs. clear Hs.
  unfold mbind at 1. unfold ret at 1. cbv beta iota.
  destruct p as [[i|] [r|] [ty|] [f|]];
    cbn [stages_of run_stages WorkflowPlan.invite WorkflowPlan.reminder
         WorkflowPlan.thank_you WorkflowPlan.follow_up snd];
    repeat (rewrite mbind_stage; cbv beta iota;
            cbn [scheduler set_scheduler mongodb_client contact_service];
            try match goal with
                | |- context [Scheduler.add_job ?j ?x] =>
                    destruct (Scheduler.add_job j x);
                    [|destruct s0; reflexivity]
                end);
    destruct s0; reflexivity.
Qed.

Lemma append_inj_l (n a b : string) : n ++ a = n ++ b -> a = b.
Proof.
  induction n as [|c n IH]; simpl; intros H; [exact H|].
  injection H as H. now apply IH.
Qed.

Lemma job_id_inj (n s1 s2 : string) : job_id n s1 = job_id n s2 -> s1 = s2.
Proof.
  unfold job_id. intros H. apply append_inj_l in H. now apply append_inj_l in H.
Qed.

Lemma stages_of_nodup (p : WorkflowPlan.t) : NoDup (map fst (stages_of p)).
Proof.
  simpl. repeat constructor; simpl; intuition discriminate.
Qed.

Lemma count_id_count_occ (x : string) (js : list Job.t) :
  count_id x js = count_occ string_dec (job_ids js) x.
Proof.
  unfold count_id, job_ids. induction js as [|k rest IH]; simpl; [reflexivity|].
  destruct (string_dec (Job.id k) x) as [E|E].
  - apply String.eqb_eq in E. rewrite E. simpl. now rewrite IH.
  - apply String.eqb_neq in E. rewrite E. exact IH.
Qed.

Lemma nodup_count_id (js : list Job.t) :
  NoDup (job_ids js) <-> (forall x, (count_id x js <= 1)%nat).
Proof.
  rewrite (NoDup_count_occ string_dec).
  split; intros H x; specialize (H x); now rewrite count_id_count_occ in *.
Qed.

Lemma run_stages_jobstore (n : string) (a : option (list string))
      (l : list (string * option datetime)) (sch : Scheduler.t) :
  Scheduler.jobstore (snd (run_stages n a l sch)) = Scheduler.jobstore sch.
Proof.
  revert sch. induction l as [|[st [d|]] rest IH]; intros sch; simpl; auto.
  destruct (Scheduler.add_job _ sch) as [sch'|] eqn:E; [|reflexivity].
  rewrite IH. now apply add_job_effect in E.
Qed.

Lemma raises_jobstore (s1 s2 : Scheduler.t) (x : string) :
  Scheduler.jobstore s1 = Scheduler.jobstore s2 ->
  Scheduler.raises s1 x = Scheduler.raises s2 x.
Proof. unfold Scheduler.raises. now intros ->. Qed.

Lemma blocked_jobstore (n : string) (l : list (string * option datetime))
      (s1 s2 : Scheduler.t) :
  Scheduler.jobstore s1 = Scheduler.jobstore s2 ->
  blocked n l s1 = blocked n l s2.
Proof.
  intros H. unfold blocked.
  induction l as [|[st [d|]] rest IH]; simpl; [reflexivity| |exact IH].
  now rewrite IH, (raises_jobstore s1 s2).
Qed.

(** The answer of the stage blocks: no requested job creation raised. *)
Lemma run_stages_flag (n : string) (a : option (list string))
      (l : list (string * option datetime)) (sch : Scheduler.t) :
  fst (run_stages n a l sch) = negb (blocked n l sch).
Proof.
  revert sch. induction l as [|[st [d|]] rest IH]; intros sch; simpl; auto.
  unfold Scheduler.add_job at 1. simpl Job.id.
  destruct (Scheduler.raises sch (job_id n st)) eqn:R; [reflexivity|].
  simpl.
  assert (exists sch', Scheduler.add_job (stage_job n a st d) sch = Ok sch'
                       /\ Scheduler.jobstore sch' = Scheduler.jobstore sch)
    as (sch' & E & Hjs).
  { unfold Scheduler.add_job. simpl Job.id. rewrite R.
    destruct (Scheduler.lookup_job _ _); eexists; split; reflexivity. }
  unfold Scheduler.add_job in E. simpl Job.id in E. rewrite R in E.
  rewrite E, IH. f_equal. now apply blocked_jobstore.
Qed.

(** Ids no stage block writes keep their jobs, even when a later block
    raises. *)
Lemma run_stages_other (n : string) (a : option (list string))
      (l : list (string * option datetime)) (sch : Scheduler.t) (x : string) :
  (forall stage d, In (stage, Some d) l -> x <> job_id n stage) ->
  Scheduler.lookup_job x (Scheduler.jobs (snd (run_stages n a l sch)))
  = Scheduler.lookup_job x (Scheduler.jobs sch)
  /\ count_id x (Scheduler.jobs (snd (run_stages n a l sch)))
     = count_id x (Scheduler.jobs sch).
Proof.
  revert sch. induction l as [|[st [d|]] rest IH]; intros sch Hx; simpl; auto.
  - destruct (Scheduler.add_job _ sch) as [sch'|] eqn:E; [|auto].
    apply add_job_effect in E. destruct E as (_ & _ & Ho & _).
    destruct (Ho x) as [Hl Hc]; [apply (Hx st d); now left|].
    destruct (IH sch') as [Hl' Hc'].
    { intros stage d' Hin. apply (Hx stage d'). now right. }
    split; congruence.
  - apply IH. intros stage d' Hin. apply (Hx stage d'). now right.
Qed.

(** A stage block that ran leaves its job behind, and later blocks do not
    disturb it. *)
Lemma run_stages_some (n : string) (a : option (list string))
      (l : list (string * option datetime)) (sch : Scheduler.t)
      (stage : string) (d : datetime) :
  NoDup (map fst l) ->
  fst (run_stages n a l sch) = true ->
  In (stage, Some d) l ->
  Scheduler.lookup_job (job_id n stage) (Scheduler.jobs (snd (run_stages n a l sch)))
  = Some (stage_job n a stage d)
  /\ count_id (job_id n stage) (Scheduler.jobs (snd (run_stages n a l sch)))
     = Nat.max 1 (count_id (job_id n stage) (Scheduler.jobs sch)).
Proof.
  revert sch. induction l as [|[st rd] rest IH]; intros sch Hnd Hok Hin;
    [contradiction|].
  simpl in Hnd. inversion Hnd as [|? ? Hnotin Hnd']; subst.
  assert (Hfresh : forall st' rd', In (st', rd') rest -> st' <> st).
  { intros st' rd' H <-. apply Hnotin. apply in_map_iff. now exists (st', rd'). }
  destruct Hin as [Hhead|Htail].
  - injection Hhead as -> ->. simpl in *.
    destruct (Scheduler.add_job _ sch) as [sch'|] eqn:E; [|discriminate].
    apply add_job_effect in E. destruct E as (_ & Hl & _ & Hc).
    change (Job.id (stage_job n a stage d)) with (job_id n stage) in Hl, Hc.
    destruct (run_stages_other n a rest sch' (job_id n stage)) as [Hl' Hc'].
    { intros st' d' H Heq. apply job_id_inj in Heq. subst st'.
      now apply (Hfresh stage (Some d')). }
    split; [rewrite Hl'; exact Hl | rewrite Hc'; exact Hc].
  - assert (st <> stage) by (intros ->; now apply (Hfresh stage (Some d))).
    destruct rd as [d0|]; simpl in *; [|now apply IH].
    destruct (Scheduler.add_job _ sch) as [sch'|] eqn:E; [|discriminate].
    apply add_job_effect in E. destruct E as (_ & _ & Ho & _).
    change (Job.id (stage_job n a st d0)) with (job_id n st) in Ho.
    destruct (Ho (job_id n stage)) as [_ Hc].
    { intros Heq. apply job_id_inj in Heq. congruence. }
    destruct (IH sch' Hnd' Hok Htail) as [Hl' Hc'].
    split; [exact Hl' | rewrite Hc', Hc; reflexivity].
Qed.

(** Every id stays single through the stage blocks, raised or not. *)
Lemma run_stages_unique (n : string) (a : option (list string))
      (l : list (string * option datetime)) (sch : Scheduler.t) :
  (forall x, (count_id x (Scheduler.jobs sch) <= 1)%nat) ->
  forall x, (count_id x (Scheduler.jobs (snd (run_stages n a l sch))) <= 1)%nat.
Proof.
  revert sch. induction l as [|[st [d|]] rest IH]; intros sch H; simpl; auto.
  destruct (Scheduler.add_job _ sch) as [sch'|] eqn:E; [|exact H].
  apply IH. intros x. apply add_job_effect in E.
  destruct E as (_ & _ & Ho & Hc).
  destruct (string_dec x (Job.id (stage_job n a st d))) as [->|Hne].
  - rewrite Hc. specialize (H (Job.id (stage_job n a st d))). lia.
  - destruct (Ho x Hne) as [_ ->]. apply H.
Qed.

Lemma nodup_fst_functional {A B : Type} (l : list (A * B)) (x : A) (u v : B) :
  NoDup (map fst l) -> In (x, u) l -> In (x, v) l -> u = v.
Proof.
  induction l as [|[y w] rest IH]; simpl; intros Hnd Hu Hv; [contradiction|].
  inversion Hnd as [|? ? Hnotin Hnd']; subst.
  assert (Hno : forall z, ~ In (y, z) rest).
  { intros z Hz. apply Hnotin. apply in_map_iff. now exists (y, z). }
  destruct Hu as [Hu|Hu], Hv as [Hv|Hv].
  - congruence.
  - injection Hu as -> ->. now destruct (Hno v).
  - injection Hv as -> ->. now destruct (Hno u).
  - now apply IH.
Qed.

Lemma blocked_false_iff (n : string) (l : list (string * option datetime))
      (sch : Scheduler.t) :
  blocked n l sch = false <->
  (forall stage d, In (stage, Some d) l ->
                   Scheduler.raises sch (job_id n stage) = false).
Proof.
  unfold blocked. induction l as [|[st [d|]] rest IH]; simpl.
  - split; [intros _ ? ? []|reflexivity].
  - rewrite orb_false_iff, IH. split.
    + intros [H1 H2] stage d' [Heq|Hin]; [congruence|eauto].
    + intros H. split; [apply (H st d); now left|].
      intros stage d' Hin. apply (H stage d'). now right.
  - rewrite IH. split.
    + intros H stage d' [Heq|Hin]; [discriminate|eauto].
    + intros H stage d' Hin. apply (H stage d'). now right.
Qed.


Lemma schedule_campaign_answer (n : string) (p : WorkflowPlan.t)
      (t : CampaignTargets.t) (a : option (list string)) (now : datetime)
      (s : WorkflowService) :
  fst (schedule_campaign n p t a now s)
  = Ok (negb (blocked n (stages_of p) (scheduler s))).
Proof.
  rewrite schedule_campaign_run. cbv zeta. cbn [fst].
  now rewrite run_stages_flag.
Qed.

Lemma schedule_campaign_jobs (n : string) (p : WorkflowPlan.t)
      (t : CampaignTargets.t) (a : option (list string)) (now : datetime)
      (s : WorkflowService) :
  scheduler (snd (schedule_campaign n p t a now s))
  = snd (run_stages n a (stages_of p) (scheduler s)).
Proof.
  rewrite schedule_campaign_run. reflexivity.
Qed.

(** What a successful [schedule_campaign] leaves in the job store. *)
Lemma schedule_campaign_effect
      (n : string) (p : WorkflowPlan.t) (t : CampaignTargets.t)
      (a : option (list string)) (now : datetime) (s : WorkflowService) :
  (forall x, (count_id x (Scheduler.jobs (scheduler s)) <= 1)%nat) ->
  fst (schedule_campaign n p t a now s) = Ok true ->
  let before := Scheduler.jobs (scheduler s) in
  let after := Scheduler.jobs (scheduler (snd (schedule_campaign n p t a now s))) in
  (forall stage rd, In (stage, rd) (stages_of p) ->
     match rd with
     | Some d =>
         Scheduler.lookup_job (job_id n stage) after = Some (stage_job n a stage d)
         /\ count_id (job_id n stage) after = 1%nat
     | None =>
         Scheduler.lookup_job (job_id n stage) after
         = Scheduler.lookup_job (job_id n stage) before
         /\ count_id (job_id n stage) after = count_id (job_id n stage) before
     end)
  /\ (forall x, (forall stage rd, In (stage, rd) (stages_of p) -> x <> job_id n stage) ->
        Scheduler.lookup_job x after = Scheduler.lookup_job x before
        /\ count_id x after = count_id x before).
Proof.
  intros Hnd Hok before after. subst before after.
  rewrite schedule_campaign_jobs.
  rewrite schedule_campaign_answer in Hok.
  assert (Hflag : fst (run_stages n a (stages_of p) (scheduler s)) = true).
  { rewrite run_stages_flag. congruence. }
  split.
  - intros stage [d|] Hin.
    + destruct (run_stages_some n a (stages_of p) (scheduler s) stage d
                  (stages_of_nodup p) Hflag Hin) as [Hl Hc].
      split; [exact Hl|].
      rewrite Hc. specialize (Hnd (job_id n stage)). lia.
    + apply run_stages_other. intros st' d' Hin' Heq.
      apply job_id_inj in Heq. subst st'.
      pose proof (nodup_fst_functional _ _ _ _ (stages_of_nodup p) Hin Hin').
      discriminate.
  - intros x Hx. apply run_stages_other.
    intros stage d Hin. now apply (Hx stage (Some d)).
Qed.

Lemma run_calls_unique (calls : list ScheduleCall) (s : WorkflowService) :
  (forall x, (count_id x (Scheduler.jobs (scheduler s)) <= 1)%nat) ->
  forall x, (count_id x (Scheduler.jobs (scheduler (run_calls calls s))) <= 1)%nat.
Proof.
  revert s. induction calls as [|c rest IH]; intros s H; [exact H|].
  simpl. apply IH. unfold schedule_call.
  rewrite schedule_campaign_jobs. now apply run_stages_unique.
Qed.

End ScheduleFacts.

Section AttemptedFacts.

Local Open Scope list_scope.





End AttemptedFacts.




(** C5: from a store whose ids are single, any sequence of
    [schedule_campaign] calls leaves at most one job under every id, hence
    at most one per (campaign, stage); and when the last call answers
    [True], each stage it gave a timestamp has exactly one job, carrying
    that last timestamp, whatever earlier calls had scheduled for it. *)
Theorem reschedule_replaces_job (s : WorkflowService) (calls : list ScheduleCall) :
  NoDup (job_ids (Scheduler.jobs (scheduler s))) ->
  (forall x, (count_id x (Scheduler.jobs (scheduler (run_calls calls s))) <= 1)%nat)
  /\ (forall c stage d,
        In (stage, Some d) (stages_of (call_plan c)) ->
        fst (schedule_call c (run_calls calls s)) = Ok true ->
        let final := Scheduler.jobs (scheduler (run_calls (calls ++ [c]) s)) in
        count_id (job_id (call_name c) stage) final = 1%nat
        /\ Scheduler.lookup_job (job_id (call_name c) stage) final
           = Some (stage_job (call_name c) (call_segments c) stage d)
        /\ option_map Job.run_date
             (Scheduler.lookup_job (job_id (call_name c) stage) final) = Some d).
Proof.
  intros Hnd.
  pose proof (run_calls_unique calls s (proj1 (nodup_count_id _) Hnd)) as Huniq.
  split; [exact Huniq|].
  intros c stage d Hin Hok final. subst final.
  unfold run_calls. rewrite fold_left_app. simpl. fold (run_calls calls s).
  destruct (schedule_campaign_effect
              (call_name c) (call_plan c) (call_targets c) (call_segments c)
              (call_now c) (run_calls calls s) Huniq Hok) as [H _].
  specialize (H stage (Some d) Hin). simpl in H.
  destruct H as (Hl & Hc). unfold schedule_call.
  repeat split; [exact Hc | exact Hl | now rewrite Hl].
Qed.

Lemma reschedule_replaces_job_witness :
  let first := mkScheduleCall "Launch" (invite_only 60) sample_targets None 0 in
  let again := mkScheduleCall "Launch" (invite_only 120) sample_targets None 5 in
  let final := Scheduler.jobs (scheduler (run_calls [first; again] (volatile_service []))) in
  count_id "Launch_invite" final = 1%nat
  /\ option_map Job.run_date (Scheduler.lookup_job "Launch_invite" final) = Some 120.
Proof.
  intros first again final.
  destruct (reschedule_replaces_job (volatile_service []) [first]) as [_ H].
  - constructor.
  - destruct (H again "invite" 120) as (Hc & _ & Hd).
    + now left.
    + reflexivity.
    + split; [exact Hc | exact Hd].
Defined.




(** C9: without a document store client, [pause_campaign] and
    [resume_campaign] answer [False] and leave the whole service, its jobs
    included, as it was, while [schedule_campaign] on the same service, which
    runs on the in-memory job store, answers [True]. *)
Theorem no_client_pause_resume_fail_schedule_succeeds
        (contacts : ContactService.t)
        (durable : result ((string -> bool) * list Job.t))
        (js : list Job.t) (n : string) (now : datetime) (p : WorkflowPlan.t)
        (t : CampaignTargets.t) (a : option (list string)) :
  let s := mkWorkflowService None contacts (Scheduler.mk MemoryJobStore js) in
  Scheduler.jobstore (_initialize_scheduler None durable) = MemoryJobStore
  /\ pause_campaign n now s = (Ok false, s)
  /\ resume_campaign n now s = (Ok false, s)
  /\ fst (schedule_campaign n p t a now s) = Ok true.
Proof.
  intros s. repeat split.
  rewrite schedule_campaign_answer. f_equal.
  apply negb_true_iff. apply blocked_false_iff. reflexivity.
Qed.

(** ** [pause_campaign] and [resume_campaign] *)

Section PauseResumeFacts.

Local Open Scope list_scope.

Variable pfx : string.
Variable f : Job.t -> Job.t.
Hypothesis f_id : forall k, Job.id (f k) = Job.id k.

Let body (job : Job.t) : M unit :=
  if prefix pfx (Job.id job)
  then on_scheduler (Scheduler.restore f (Job.id job))
  else ret tt.

Lemma modify_job_app_skip (jid : string) (done rest : list Job.t) :
  ~ In jid (job_ids done) ->
  Scheduler.modify_job jid f (done ++ rest) = done ++ Scheduler.modify_job jid f rest.
Proof.
  induction done as [|k done IH]; simpl; intros H; [reflexivity|].
  destruct (Job.id k =? jid)%string eqn:E.
  - apply String.eqb_eq in E. destruct H. now left.
  - rewrite IH; [reflexivity|]. intros Hin. apply H. now right.
Qed.

Lemma body_step (k : Job.t) (s : WorkflowService) :
  body k s =
  if prefix pfx (Job.id k) then
    if Scheduler.raises (scheduler s) (Job.id k) then (Raise JobStoreError, s)
    else (Ok tt,
          set_scheduler
            (Scheduler.mk (Scheduler.jobstore (scheduler s))
               (Scheduler.modify_job (Job.id k) f (Scheduler.jobs (scheduler s))))
            s)
  else (Ok tt, s).
Proof.
  unfold body, on_scheduler, Scheduler.restore, ret.
  destruct (prefix pfx (Job.id k)); [|reflexivity].
  now destruct (Scheduler.raises (scheduler s) (Job.id k)).
Qed.

Lemma set_scheduler_same (s : WorkflowService) :
  set_scheduler
    (Scheduler.mk (Scheduler.jobstore (scheduler s)) (Scheduler.jobs (scheduler s)))
    s = s.
Proof. now destruct s as [c cs [js l]]. Qed.

(** The loop over the snapshot of [get_jobs()] acts on the store as [sweep]
    does on the list, as long as ids are single. *)
Lemma for_each_sweep (snapshot done : list Job.t) (s : WorkflowService) :
  Scheduler.jobs (scheduler s) = done ++ snapshot ->
  NoDup (job_ids (done ++ snapshot)) ->
  for_each snapshot body s =
  (if snd (sweep (Scheduler.raises (scheduler s)) pfx f snapshot)
   then Ok tt else Raise JobStoreError,
   set_scheduler
     (Scheduler.mk (Scheduler.jobstore (scheduler s))
        (done ++ fst (sweep (Scheduler.raises (scheduler s)) pfx f snapshot)))
     s).
Proof.
  revert done s. induction snapshot as [|k rest IH]; intros done s Hjobs Hnd.
  - cbn [for_each sweep fst snd]. unfold ret. rewrite <- Hjobs.
    now rewrite set_scheduler_same.
  - cbn [for_each sweep]. unfold mbind. rewrite body_step.
    destruct (prefix pfx (Job.id k)) eqn:Hp.
    + destruct (Scheduler.raises (scheduler s) (Job.id k)) eqn:Hr.
      * cbn [fst snd]. rewrite <- Hjobs. now rewrite set_scheduler_same.
      * assert (Hfresh : ~ In (Job.id k) (job_ids done)).
        { unfold job_ids in *. rewrite map_app in Hnd. simpl in Hnd.
          apply NoDup_remove_2 in Hnd. intros H. apply Hnd.
          apply in_or_app. now left. }
        rewrite Hjobs, modify_job_app_skip by exact Hfresh.
        cbn [Scheduler.modify_job]. rewrite String.eqb_refl.
        rewrite (IH (done ++ [f k])).
        -- change (Scheduler.raises (scheduler (set_scheduler _ s)))
             with (Scheduler.raises (scheduler s)).
           destruct (sweep _ pfx f rest) as [rest' ok]. cbn [fst snd].
           rewrite <- app_assoc. now destruct s.
        -- cbn. now rewrite <- app_assoc.
        -- rewrite <- app_assoc. cbn [app].
           unfold job_ids in *. rewrite map_app in *. cbn [map] in *.
           now rewrite f_id.
    + rewrite (IH (done ++ [k])).
      * destruct (sweep _ pfx f rest) as [rest' ok]. cbn [fst snd].
        now rewrite <- app_assoc.
      * now rewrite <- app_assoc.
      * now rewrite <- app_assoc.
Qed.

Lemma sweep_ids (r : string -> bool) (js : list Job.t) :
  job_ids (fst (sweep r pfx f js)) = job_ids js.
Proof.
  induction js as [|k rest IH]; [reflexivity|]. cbn [sweep].
  destruct (prefix pfx (Job.id k)); [destruct (r (Job.id k)); [reflexivity|]|];
    destruct (sweep r pfx f rest) as [rest' ok]; cbn [fst] in *;
    unfold job_ids in *; cbn [map]; rewrite IH; now rewrite ?f_id.
Qed.

Lemma sweep_dates (r : string -> bool) (js : list Job.t) :
  (forall k, Job.run_date (f k) = Job.run_date k) ->
  map Job.run_date (fst (sweep r pfx f js)) = map Job.run_date js.
Proof.
  intros Hd. induction js as [|k rest IH]; [reflexivity|]. cbn [sweep].
  destruct (prefix pfx (Job.id k)); [destruct (r (Job.id k)); [reflexivity|]|];
    destruct (sweep r pfx f rest) as [rest' ok]; cbn [fst] in *;
    cbn [map]; rewrite IH; now rewrite ?Hd.
Qed.

(** A loop that ran to its end has given [f] to every job of the campaign. *)
Lemma sweep_done (r : string -> bool) (js : list Job.t) (j : Job.t) :
  snd (sweep r pfx f js) = true ->
  In j js -> prefix pfx (Job.id j) = true ->
  In (f j) (fst (sweep r pfx f js)).
Proof.
  induction js as [|k rest IH]; [intros _ []|]. cbn [sweep].
  destruct (prefix pfx (Job.id k)) eqn:Hp.
  - destruct (r (Job.id k)); [discriminate|].
    destruct (sweep r pfx f rest) as [rest' ok]. cbn [fst snd] in *.
    intros Hok [->|Hin] Hj; [now left | right; now apply IH].
  - destruct (sweep r pfx f rest) as [rest' ok]. cbn [fst snd] in *.
    intros Hok [->|Hin] Hj; [congruence | right; now apply IH].
Qed.

(** The two status writes and loops, in one body. *)
Let status_then_sweep (n : string) (st : CampaignStatus) (now : datetime)
  : M bool :=
  try_except
    (_ <- set_campaign_status n st now ;;
     jobs <- get_jobs ;;
     _ <- for_each jobs body ;;
     ret true)
    (fun _ => ret false).

Lemma set_campaign_status_outcome (n : string) (st : CampaignStatus)
      (now : datetime) (s : WorkflowService) :
  if registry_writable s
  then exists z s', set_campaign_status n st now s = (Ok z, s')
                    /\ scheduler s' = scheduler s
                    /\ contact_service s' = contact_service s
                    /\ registry_writable s' = true
  else exists e, set_campaign_status n st now s = (Raise e, s).
Proof.
  unfold registry_writable, set_campaign_status, mbind, get_collection, command.
  destruct s as [[m|] cs sch]; cbn [mongodb_client]; [|now eexists].
  unfold Mongo.get_collection, Mongo.update_one, Mongo.request, bind.
  destruct (Mongo.lookup_raises m) eqn:Hl; cbn [negb andb]; [now eexists|].
  destruct (Mongo.server_down m) eqn:Hd; cbn [negb]; [now eexists|].
  destruct (Mongo.update_first _ _ _) as [[cs' matched] modified].
  eexists. eexists. split; [reflexivity|].
  cbn. now rewrite Hl, Hd.
Qed.

Lemma status_then_sweep_run (n : string) (st : CampaignStatus)
      (now : datetime) (s : WorkflowService) :
  NoDup (job_ids (Scheduler.jobs (scheduler s))) ->
  let sw := sweep (Scheduler.raises (scheduler s)) pfx f
                  (Scheduler.jobs (scheduler s)) in
  status_then_sweep n st now s =
  if registry_writable s
  then (Ok (snd sw),
        set_scheduler (Scheduler.mk (Scheduler.jobstore (scheduler s)) (fst sw))
                      (snd (set_campaign_status n st now s)))
  else (Ok false, s).
Proof.
  intros Hnd sw. subst sw.
  unfold status_then_sweep, try_except. unfold mbind at 1.
  pose proof (set_campaign_status_outcome n st now s) as H.
  destruct (registry_writable s) eqn:Hw.
  - destruct H as (z & s' & -> & Hsch & _ & Hw').
    unfold mbind at 1. unfold get_jobs at 1. unfold mbind at 1.
    unfold Scheduler.get_jobs.
    rewrite (for_each_sweep _ [] s') by (rewrite ?Hsch; auto).
    rewrite Hsch. cbn [app snd].
    destruct (sweep _ pfx f _) as [js ok]. cbn [fst snd].
    destruct ok; reflexivity.
  - destruct H as (e & ->). reflexivity.
Qed.

Lemma status_then_sweep_outcome (n : string) (st : CampaignStatus)
      (now : datetime) (s : WorkflowService) :
  NoDup (job_ids (Scheduler.jobs (scheduler s))) ->
  let sw := sweep (Scheduler.raises (scheduler s)) pfx f
                  (Scheduler.jobs (scheduler s)) in
  fst (status_then_sweep n st now s) = Ok (registry_writable s && snd sw)
  /\ registry_writable (snd (status_then_sweep n st now s)) = registry_writable s
  /\ scheduler (snd (status_then_sweep n st now s))
     = if registry_writable s
       then Scheduler.mk (Scheduler.jobstore (scheduler s)) (fst sw)
       else scheduler s.
Proof.
  intros Hnd sw. subst sw. rewrite (status_then_sweep_run n st now s Hnd).
  cbv zeta.
  pose proof (set_campaign_status_outcome n st now s) as H.
  destruct (registry_writable s) eqn:Hw; [|auto].
  destruct H as (z & s' & -> & Hsch & _ & Hw').
  destruct s' as [c' cs' sch']. cbn in *. auto.
Qed.

End PauseResumeFacts.

Section PauseThenResume.

Local Open Scope list_scope.

Lemma resume_pause_scheduled (j : Job.t) :
  Job.next_run_time j = Some (Job.run_date j) -> Job.resume (Job.pause j) = j.
Proof. destruct j as [i d nrt ar]. simpl. now intros ->. Qed.

(** Pausing and then resuming, each loop stopping where the job store
    first refuses, gives every scheduled job of the campaign back as it
    was. *)
Lemma sweep_resume_pause (r : string -> bool) (pfx : string)
      (js : list Job.t) (j : Job.t) :
  In j js -> prefix pfx (Job.id j) = true ->
  Job.next_run_time j = Some (Job.run_date j) ->
  In j (fst (sweep r pfx Job.resume (fst (sweep r pfx Job.pause js)))).
Proof.
  intros Hin Hp Hs. induction js as [|k rest IH]; [contradiction|].
  cbn [sweep]. destruct (prefix pfx (Job.id k)) eqn:Hk.
  - destruct (r (Job.id k)) eqn:Hr.
    + cbn [fst sweep]. rewrite Hk, Hr. exact Hin.
    + destruct (sweep r pfx Job.pause rest) as [rest' ok] eqn:E.
      cbn [fst sweep Job.pause Job.id]. rewrite Hk, Hr.
      cbn [fst] in IH.
      destruct (sweep r pfx Job.resume rest') as [rest'' ok'].
      cbn [fst] in *. destruct Hin as [->|Hin].
      * left. now apply resume_pause_scheduled.
      * right. now apply IH.
  - destruct (sweep r pfx Job.pause rest) as [rest' ok] eqn:E.
    cbn [fst sweep]. rewrite Hk. cbn [fst] in IH.
    destruct (sweep r pfx Job.resume rest') as [rest'' ok'].
    cbn [fst] in *. destruct Hin as [->|Hin]; [now left | right; now apply IH].
Qed.

Lemma pause_campaign_outcome (n : string) (now : datetime) (s : WorkflowService) :
  NoDup (job_ids (Scheduler.jobs (scheduler s))) ->
  let sw := sweep (Scheduler.raises (scheduler s)) (n ++ "_")%string Job.pause
                  (Scheduler.jobs (scheduler s)) in
  fst (pause_campaign n now s) = Ok (registry_writable s && snd sw)
  /\ registry_writable (snd (pause_campaign n now s)) = registry_writable s
  /\ scheduler (snd (pause_campaign n now s))
     = if registry_writable s
       then Scheduler.mk (Scheduler.jobstore (scheduler s)) (fst sw)
       else scheduler s.
Proof.
  intros Hnd.
  exact (status_then_sweep_outcome (n ++ "_")%string Job.pause (fun _ => eq_refl)
                                   n PAUSED now s Hnd).
Qed.

Lemma resume_campaign_outcome (n : string) (now : datetime) (s : WorkflowService) :
  NoDup (job_ids (Scheduler.jobs (scheduler s))) ->
  let sw := sweep (Scheduler.raises (scheduler s)) (n ++ "_")%string Job.resume
                  (Scheduler.jobs (scheduler s)) in
  fst (resume_campaign n now s) = Ok (registry_writable s && snd sw)
  /\ registry_writable (snd (resume_campaign n now s)) = registry_writable s
  /\ scheduler (snd (resume_campaign n now s))
     = if registry_writable s
       then Scheduler.mk (Scheduler.jobstore (scheduler s)) (fst sw)
       else scheduler s.
Proof.
  intros Hnd.
  exact (status_then_sweep_outcome (n ++ "_")%string Job.resume (fun _ => eq_refl)
                                   n ACTIVE now s Hnd).
Qed.

End PauseThenResume.

(** C6: on a store whose ids are single, [pause_campaign] followed by
    [resume_campaign] gives back every job of the campaign that was
    scheduled (its [next_run_time] being its trigger date) exactly as it
    was, and leaves the ids and trigger dates of all stored jobs unchanged;
    and a [pause_campaign] that answered [True] did pause each of the
    campaign's jobs in between. *)
Theorem pause_then_resume_restores_jobs
        (n : string) (now1 now2 : datetime) (s : WorkflowService) :
  NoDup (job_ids (Scheduler.jobs (scheduler s))) ->
  let s1 := snd (pause_campaign n now1 s) in
  let s2 := snd (resume_campaign n now2 s1) in
  (forall j, In j (Scheduler.jobs (scheduler s)) ->
             prefix (n ++ "_") (Job.id j) = true ->
             Job.next_run_time j = Some (Job.run_date j) ->
             In j (Scheduler.jobs (scheduler s2)))
  /\ job_ids (Scheduler.jobs (scheduler s2)) = job_ids (Scheduler.jobs (scheduler s))
  /\ map Job.run_date (Scheduler.jobs (scheduler s2))
     = map Job.run_date (Scheduler.jobs (scheduler s))
  /\ (fst (pause_campaign n now1 s) = Ok true ->
      forall j, In j (Scheduler.jobs (scheduler s)) ->
                prefix (n ++ "_") (Job.id j) = true ->
                In (Job.pause j) (Scheduler.jobs (scheduler s1))).
Proof.
  intros Hnd s1 s2.
  destruct (pause_campaign_outcome n now1 s Hnd) as (Hr1 & Hw1 & Hs1).
  fold s1 in Hw1, Hs1.
  assert (Hnd1 : NoDup (job_ids (Scheduler.jobs (scheduler s1)))).
  { rewrite Hs1. destruct (registry_writable s); [|exact Hnd].
    cbn [Scheduler.jobs]. rewrite sweep_ids; [exact Hnd | reflexivity]. }
  destruct (resume_campaign_outcome n now2 s1 Hnd1) as (_ & _ & Hs2).
  fold s2 in Hs2. rewrite Hw1 in Hs2. rewrite Hs2, Hs1.
  destruct (registry_writable s) eqn:Hw; cbn [Scheduler.jobs Scheduler.jobstore].
  - change (Scheduler.raises (Scheduler.mk (Scheduler.jobstore (scheduler s)) _))
      with (Scheduler.raises (scheduler s)).
    repeat split.
    + intros j Hin Hp Hsched. now apply sweep_resume_pause.
    + rewrite !sweep_ids; reflexivity.
    + rewrite !sweep_dates; reflexivity.
    + intros Hok j Hin Hp. rewrite Hok in Hr1. injection Hr1 as Hr1.
      symmetry in Hr1. cbn [andb] in Hr1. now apply sweep_done.
  - repeat split; auto.
    intros Hok. rewrite Hok in Hr1. discriminate.
Qed.

Lemma pause_then_resume_restores_jobs_witness :
  let s1 := snd (pause_campaign "Launch" 10 launch_service) in
  let s2 := snd (resume_campaign "Launch" 11 s1) in
  In launch_invite (Scheduler.jobs (scheduler s2))
  /\ In (Job.pause launch_invite) (Scheduler.jobs (scheduler s1)).
Proof.
  intros s1 s2.
  destruct (pause_then_resume_restores_jobs "Launch" 10 11 launch_service)
    as (Hback & _ & _ & Hpaused).
  - repeat constructor. intros [].
  - split.
    + apply Hback; [now left | reflexivity | reflexivity].
    + apply Hpaused; [reflexivity | now left | reflexivity].
Defined.

(** ** The metrics *)

Section MetricsFacts.

Lemma truediv_positive (a b : Z) :
  (b >? 0) = true -> truediv a b = Ok (Qred (inject_Z a / inject_Z b)).
Proof.
  unfold truediv. intros H. apply Z.gtb_lt in H.
  destruct (b =? 0) eqn:E; [apply Z.eqb_eq in E; lia | reflexivity].
Qed.

Lemma Qred_zero_over (b : Z) : Qred (inject_Z 0 / inject_Z b) = 0%Q.
Proof.
  change 0%Q with (Qred 0). apply Qred_complete.
  unfold Qdiv. now rewrite Qmult_0_l.
Qed.

Lemma count_where_nil {A : Type} (p : A -> bool) : count_where p [] = 0.
Proof. reflexivity. Qed.

(** With a store that answers, [get_campaign_status] on a known campaign
    returns a response, computed from the campaign's logs as below. *)
Lemma get_campaign_status_run (n : string) (s : WorkflowService)
      (m : Mongo.t) (c : Campaign.t) :
  mongodb_client s = Some m ->
  Mongo.lookup_raises m = false ->
  Mongo.server_down m = false ->
  find (Mongo.named n) (Mongo.campaigns m) = Some c ->
  let logs := filter (of_campaign n) (Mongo.email_logs m) in
  let sent := count_where (has_status SENT) logs in
  let target := CampaignTargets.total_emails_sent (Campaign.targets c) in
  get_campaign_status n s =
  (Ok (Some (CampaignStatusResponse.mk
               n (Campaign.status c) (Campaign.targets c)
               (count_where (has_status FAILED) logs)
               (count_where LogDoc.opened logs)
               (count_where LogDoc.clicked logs)
               (if target >? 0
                then Qred (Qred (inject_Z sent / inject_Z target) * 100)
                else 0%Q)
               (earliest_run (n ++ "_") (Scheduler.jobs (scheduler s)))
               sent
               (count_where (has_status PENDING) logs)
               (if sent >? 0
                then Qred (inject_Z (count_where LogDoc.opened logs) / inject_Z sent)
                else 0%Q)
               (if sent >? 0
                then Qred (inject_Z (count_where LogDoc.clicked logs) / inject_Z sent)
                else 0%Q)
               0)),
   s).
Proof.
  intros Hm Hl Hd Hc logs sent target.
  destruct s as [cl cs sch]. cbn [mongodb_client] in Hm. subst cl.
  unfold get_campaign_status, try_except, mbind, get_collection, query, get_jobs,
    lift, ret, Mongo.get_collection, Mongo.find_one, Mongo.find_logs,
    Mongo.request.
  subst logs sent target.
  repeat (cbn [mongodb_client scheduler]; rewrite ?Hl, ?Hd, ?Hc; cbv beta iota zeta).
  destruct (count_where (has_status SENT) _ >? 0) eqn:Hs;
    rewrite ?(truediv_positive _ _ Hs); cbv beta iota;
    repeat (cbn [mongodb_client scheduler]; rewrite ?Hl, ?Hd, ?Hc; cbv beta iota zeta);
    (destruct (CampaignTargets.total_emails_sent (Campaign.targets c) >? 0) eqn:Ht;
     rewrite ?(truediv_positive _ _ Ht); reflexivity).
Qed.

End MetricsFacts.

(** C7, on the service as the repository wires it: its client is a
    [MongoDBClient], whose [get_collection] takes no collection name, so
    [get_collection('campaigns')] raises, the [except] branch is taken and
    [get_campaign_status] answers [None] for every campaign name, whatever
    is stored; without a client it answers [None] as well.  In particular a
    stored campaign without any log gets no response at all, where a
    response with [open_rate = 0.0] and [progress_percentage = 0.0] was
    due. *)
Theorem campaign_status_is_none_on_repository_client :
  (forall (client : option MongoDBClient.t) (cs : list Campaign.t)
          (logs : list LogDoc.t) (contacts : ContactService.t)
          (sch : Scheduler.t) (n : string),
     let s := repository_service client cs logs contacts sch in
     get_campaign_status n s = (Ok None, s))
  /\ (let s := repository_service (Some connected_client)
                 [sample_campaign "Launch" sample_targets] []
                 two_contacts (Scheduler.mk MemoryJobStore []) in
      find (Mongo.named "Launch") [sample_campaign "Launch" sample_targets]
      = Some (sample_campaign "Launch" sample_targets)
      /\ filter (of_campaign "Launch") [] = []
      /\ get_campaign_status "Launch" s = (Ok None, s)).
Proof.
  split.
  - intros [c|] cs logs contacts sch n; reflexivity.
  - repeat split.
Qed.

Section DashboardFacts.

(** With a store that answers, [get_dashboard_metrics] returns the pooled
    rates of the sent logs. *)
Lemma get_dashboard_metrics_run (s : WorkflowService) (m : Mongo.t) :
  mongodb_client s = Some m ->
  Mongo.lookup_raises m = false ->
  Mongo.server_down m = false ->
  get_dashboard_metrics s =
  (Ok (DashboardMetrics.mk
         (Z.of_nat (length (Mongo.campaigns m)))
         (Z.of_nat (length (filter
            (fun c => CampaignStatus_eqb (Campaign.status c) ACTIVE)
            (Mongo.campaigns m))))
         (Z.of_nat (length (filter (has_status SENT) (Mongo.email_logs m))))
         (Z.of_nat (length (filter (has_status PENDING) (Mongo.email_logs m))))
         (pooled_rate LogDoc.opened (Mongo.email_logs m))
         (pooled_rate LogDoc.clicked (Mongo.email_logs m))
         0
         (group_by_status (Mongo.campaigns m))),
   s).
Proof.
  intros Hm Hl Hd.
  destruct s as [cl cs sch]. cbn [mongodb_client] in Hm. subst cl.
  unfold get_dashboard_metrics, try_except, mbind, get_collection, query,
    lift, ret, Mongo.get_collection, Mongo.count_campaigns,
    Mongo.count_campaigns_by_status, Mongo.count_logs_by_status,
    Mongo.find_logs_by_status, Mongo.request, bind, pooled_rate.
  repeat (cbn [mongodb_client]; rewrite ?Hl, ?Hd; cbv beta iota zeta).
  destruct (Z.of_nat (length (filter (has_status SENT) (Mongo.email_logs m))) >? 0)
    eqn:Hs;
    rewrite ?(truediv_positive _ _ Hs); cbv beta iota;
    repeat (cbn [mongodb_client]; rewrite ?Hl, ?Hd; cbv beta iota zeta);
    rewrite ?(truediv_positive _ _ Hs); reflexivity.
Qed.

(** Logs of a campaign without sent mail are not among the sent logs. *)
Lemma sent_logs_without (n : string) (logs : list LogDoc.t) :
  sent_of logs n = 0 ->
  filter (has_status SENT) (filter (fun d => negb (of_campaign n d)) logs)
  = filter (has_status SENT) logs.
Proof.
  unfold sent_of, count_where. intros H.
  assert (Hnil : filter (has_status SENT) (filter (of_campaign n) logs) = []).
  { apply length_zero_iff_nil. lia. }
  clear H. induction logs as [|d rest IH]; [reflexivity|].
  cbn [filter] in *. destruct (of_campaign n d) eqn:E; cbn [negb filter] in *.
  - destruct (has_status SENT d); [discriminate|]. now apply IH.
  - destruct (has_status SENT d); [f_equal|]; now apply IH.
Qed.

End DashboardFacts.

(** C2, on the service as the repository wires it: its client is a
    [MongoDBClient], whose [get_collection] takes no collection name, so
    [get_collection('campaigns')] raises, the [except] branch is taken and
    [get_dashboard_metrics] reports the all-zero metrics, whatever is
    stored; without a client it does so as well.  On the example of the
    specification, campaign A with 100 sent logs of which 25 are opened and
    campaign B with nothing sent, the reported [average_open_rate] is [0],
    where [0.25] was due. *)
Theorem dashboard_metrics_are_zero_on_repository_client :
  (forall (client : option MongoDBClient.t) (cs : list Campaign.t)
          (logs : list LogDoc.t) (contacts : ContactService.t)
          (sch : Scheduler.t),
     let s := repository_service client cs logs contacts sch in
     get_dashboard_metrics s = (Ok DashboardMetrics.zero, s))
  /\ (let logs := (repeat (sent_log "A" true) 25
                   ++ repeat (sent_log "A" false) 75)%list in
      let s := repository_service (Some connected_client)
                 [sample_campaign "A" sample_targets;
                  sample_campaign "B" sample_targets] logs
                 two_contacts (Scheduler.mk MemoryJobStore []) in
      sent_of logs "A" = 100 /\ opened_of logs "A" = 25 /\ sent_of logs "B" = 0
      /\ exists d,
           get_dashboard_metrics s = (Ok d, s)
           /\ DashboardMetrics.average_open_rate d = 0%Q
           /\ ~ (DashboardMetrics.average_open_rate d == 1 # 4)%Q).
Proof.
  split.
  - intros [c|] cs logs contacts sch; reflexivity.
  - cbv zeta. split; [reflexivity|]. split; [reflexivity|]. split; [reflexivity|].
    eexists. split; [reflexivity|]. split; [reflexivity|].
    intros H. discriminate H.
Qed.

(** ** [update_campaign_targets] *)

Section TargetsFacts.

Lemma CampaignStatus_eqb_refl (a : CampaignStatus) : CampaignStatus_eqb a a = true.
Proof. now destruct a. Qed.

Lemma option_eqb_refl {A : Type} (eqb : A -> A -> bool) (a : option A) :
  (forall x, eqb x x = true) -> option_eqb eqb a a = true.
Proof. intros H. destruct a; simpl; auto. Qed.

Lemma WorkflowPlan_eqb_refl (p : WorkflowPlan.t) : WorkflowPlan.eqb p p = true.
Proof.
  unfold WorkflowPlan.eqb. now rewrite !(option_eqb_refl _ _ Z.eqb_refl).
Qed.

(** Rewriting the targets changes the document exactly when the targets
    or the update time differ from the stored ones. *)
Lemma eqb_set_targets (c : Campaign.t) (t : CampaignTargets.t) (now : datetime) :
  Campaign.eqb c (Campaign.set_targets t now c)
  = CampaignTargets.eqb (Campaign.targets c) t && (Campaign.updated_at c =? now).
Proof.
  unfold Campaign.eqb, Campaign.set_targets. cbn.
  rewrite !String.eqb_refl, CampaignStatus_eqb_refl, WorkflowPlan_eqb_refl,
    Z.eqb_refl, (option_eqb_refl _ _ String.eqb_refl).
  cbn. now rewrite !andb_true_r.
Qed.

Lemma update_first_run (n : string) (f : Campaign.t -> Campaign.t)
      (cs : list Campaign.t) :
  (forall c, Mongo.named n (f c) = Mongo.named n c) ->
  match find (Mongo.named n) cs with
  | None => Mongo.update_first n f cs = (cs, false, false)
  | Some c =>
      exists cs', Mongo.update_first n f cs
                  = (cs', true, negb (Campaign.eqb c (f c)))
                  /\ find (Mongo.named n) cs' = Some (f c)
  end.
Proof.
  intros Hf. induction cs as [|c rest IH]; [reflexivity|].
  cbn [find Mongo.update_first]. destruct (Mongo.named n c) eqn:E.
  - eexists. split; [reflexivity|]. cbn [find]. now rewrite Hf, E.
  - destruct (find (Mongo.named n) rest) as [c'|].
    + destruct IH as (cs' & -> & Hfind). eexists. split; [reflexivity|].
      cbn [find]. now rewrite E.
    + now rewrite IH.
Qed.

Lemma update_campaign_targets_run (n : string) (t : CampaignTargets.t)
      (now : datetime) (s : WorkflowService) (m : Mongo.t) :
  mongodb_client s = Some m ->
  Mongo.lookup_raises m = false ->
  Mongo.server_down m = false ->
  match find (Mongo.named n) (Mongo.campaigns m) with
  | None => update_campaign_targets n t now s = (Ok false, s)
  | Some c =>
      exists m',
        update_campaign_targets n t now s
        = (Ok (negb (CampaignTargets.eqb (Campaign.targets c) t
                     && (Campaign.updated_at c =? now))),
           set_client m' s)
        /\ find (Mongo.named n) (Mongo.campaigns m')
           = Some (Campaign.set_targets t now c)
  end.
Proof.
  intros Hm Hl Hd.
  destruct s as [cl cs sch]. cbn [mongodb_client] in Hm. subst cl.
  unfold update_campaign_targets, try_except, mbind, get_collection, command,
    ret, Mongo.get_collection, Mongo.update_one, Mongo.request, bind.
  cbn [mongodb_client]. rewrite Hl, Hd. cbv beta iota.
  pose proof (update_first_run n (Campaign.set_targets t now) (Mongo.campaigns m)
                (fun c => eq_refl)) as H.
  destruct (find (Mongo.named n) (Mongo.campaigns m)) as [c|].
  - destruct H as (cs' & -> & Hfind). rewrite eqb_set_targets.
    exists (Mongo.set_campaigns cs' m). split; [|exact Hfind].
    now destruct (CampaignTargets.eqb (Campaign.targets c) t
                  && (Campaign.updated_at c =? now)).
  - rewrite H. cbn. now destruct m.
Qed.

End TargetsFacts.

(** C10, on the service as the repository wires it: the lookup
    [get_collection('campaigns')] of [update_campaign_targets] raises on the
    repository's [MongoDBClient] (and on no client), so no update reaches
    the store: the call answers [False] and leaves every document as it
    was, for a name that is not stored as for one that is, and for targets
    equal to the stored ones as for others.  Setting the same targets twice
    is answered [False] both times, and [True] is never answered, so in
    particular only when a document changed. *)
Theorem update_targets_reports_no_modification
        (client : option MongoDBClient.t) (cs : list Campaign.t)
        (logs : list LogDoc.t) (contacts : ContactService.t) (sch : Scheduler.t)
        (n : string) (t : CampaignTargets.t) (now now' : datetime) :
  let s := repository_service client cs logs contacts sch in
  let first := update_campaign_targets n t now s in
  let second := update_campaign_targets n t now' (snd first) in
  first = (Ok false, s)
  /\ second = (Ok false, s)
  /\ (forall r s', update_campaign_targets n t now s = (r, s') ->
        (r = Ok true -> mongodb_client s' <> mongodb_client s)
        /\ (mongodb_client s' = mongodb_client s -> r = Ok false)).
Proof.
  intros s first second. subst s first second.
  assert (H : update_campaign_targets n t now
                (repository_service client cs logs contacts sch)
              = (Ok false, repository_service client cs logs contacts sch)).
  { destruct client as [c|]; reflexivity. }
  rewrite H. cbn [snd]. split; [reflexivity|]. split.
  - destruct client as [c|]; reflexivity.
  - intros r s' Hrun. injection Hrun as <- <-.
    split; [discriminate | reflexivity].
Qed.

(** ** The recipients of a dispatch *)

Section RecipientFacts.

Local Open Scope list_scope.

Lemma length_flat_map {A B : Type} (g : A -> list B) (l : list A) :
  length (flat_map g l) = list_sum (map (fun x => length (g x)) l).
Proof.
  induction l as [|x l IH]; [reflexivity|].
  cbn [flat_map map list_sum]. now rewrite length_app, IH.
Qed.

End RecipientFacts.

Section SegmentFacts.

Local Open Scope list_scope.

Variable server : Type.
Variable session : server -> string * string * string * string -> bool * server.
Variable sender_email : string.
Variable stamp : string -> string.
Variable generate_email_content :
  string -> string -> string -> result (option EmailContent.t).

(** Without a collection each segment contributes nothing. *)
Lemma extend_without_collection (contacts : ContactService.t)
      (segments : list string) (found : list Contact.t) :
  ContactService.collection contacts = None ->
  extend_by_segment contacts segments found = Ok found.
Proof.
  intros H. revert found. induction segments as [|seg rest IH]; intros found;
    cbn [extend_by_segment]; [reflexivity|].
  unfold ContactService.get_contacts_by_tag, ContactService.not_collection.
  rewrite H. cbn [bind]. rewrite app_nil_r. apply IH.
Qed.

(** On a handle that refuses the truth test the first segment ends the
    loop. *)
Lemma extend_on_refusing_handle (contacts : ContactService.t)
      (coll : ContactService.Collection) (segment : string)
      (rest : list string) (found : list Contact.t) :
  ContactService.collection contacts = Some coll ->
  ContactService.truth_test_raises coll = true ->
  extend_by_segment contacts (segment :: rest) found = Raise NotImplementedError.
Proof.
  intros Hc Ht. cbn [extend_by_segment].
  unfold ContactService.get_contacts_by_tag, ContactService.not_collection.
  now rewrite Hc, Ht.
Qed.

(** With a handle that tests true the segments' contacts are put one after
    the other. *)
Lemma extend_on_tested_handle (contacts : ContactService.t)
      (coll : ContactService.Collection) (segments : list string)
      (found : list Contact.t) :
  ContactService.collection contacts = Some coll ->
  ContactService.truth_test_raises coll = false ->
  extend_by_segment contacts segments found
  = Ok (found ++ flat_map (fun seg =>
                             if ContactService.unreachable coll then []
                             else filter (ContactService.has_tag seg)
                                         (ContactService.docs coll)) segments).
Proof.
  intros Hc Ht. revert found. induction segments as [|seg rest IH]; intros found;
    cbn [extend_by_segment flat_map]; [now rewrite app_nil_r|].
  unfold ContactService.get_contacts_by_tag, ContactService.not_collection.
  rewrite Hc, Ht. cbn [bind].
  destruct (ContactService.unreachable coll); cbn [bind];
    rewrite IH, <- app_assoc; reflexivity.
Qed.

(** The handle [ContactService()] ends up with is a pymongo collection or
    none at all. *)
Lemma initialized_handle (client : result MongoDBClient.t) :
  match ContactService.collection (_initialize_database client) with
  | Some coll => ContactService.truth_test_raises coll = true
  | None => True
  end.
Proof.
  destruct client as [[[|] docs down]|e]; cbn; exact I || reflexivity.
Qed.

Lemma resolve_segments_initialized (client : result MongoDBClient.t)
      (segment : string) (rest : list string) :
  resolve_contacts (Some (segment :: rest)) (_initialize_database client)
  = match ContactService.collection (_initialize_database client) with
    | Some _ => Raise NotImplementedError
    | None => Ok []
    end.
Proof.
  pose proof (initialized_handle client) as H. cbn [resolve_contacts].
  destruct (ContactService.collection (_initialize_database client))
    as [coll|] eqn:E.
  - exact (extend_on_refusing_handle _ coll segment rest [] E H).
  - exact (extend_without_collection _ (segment :: rest) [] E).
Qed.

(** A dispatch whose recipients cannot be resolved, or come out empty,
    sends nothing. *)
Lemma send_campaign_emails_unresolved (n ty : string) (a : option (list string))
      (srv : server) (s : WorkflowService) :
  (resolve_contacts a (contact_service s) = Ok []
   \/ exists e, resolve_contacts a (contact_service s) = Raise e) ->
  _send_campaign_emails server session sender_email stamp
    generate_email_content n ty a srv s = (srv, s).
Proof.
  intros H. destruct s as [[m|] cs sch]; unfold _send_campaign_emails, mbind,
    get_collection, query, Mongo.get_collection, Mongo.find_one, Mongo.request;
    cbn [mongodb_client contact_service] in *; [|reflexivity].
  destruct (Mongo.lookup_raises m); [reflexivity|].
  destruct (Mongo.server_down m); [reflexivity|].
  destruct (find (Mongo.named n) (Mongo.campaigns m)); [|reflexivity].
  cbn [contact_service].
  destruct H as [-> | (e & ->)]; reflexivity.
Qed.

End SegmentFacts.

(** C3, on the service as the repository wires it: [ContactService()]
    holds a pymongo collection or none.  [get_contacts_by_tag] tests
    [if not self.collection] before its [try]: without a collection it
    returns no contact, and on a pymongo collection the test itself raises
    [NotImplementedError].  So for a non-empty list of segments the
    recipients are never the union of the tagged contacts: resolving them
    either raises, and the handler of [_send_campaign_emails] ends the
    dispatch, or gives nobody; in both cases no mail is sent and nothing is
    stored, whatever the document store does.  On the repository's
    [MongoDBClient] the dispatch ends even earlier, at the lookup of the
    campaigns, for every list of segments. *)
Theorem segment_dispatch_reaches_nobody
        (server : Type)
        (session : server -> string * string * string * string -> bool * server)
        (sender_email : string) (stamp : string -> string)
        (generate_email_content :
           string -> string -> string -> result (option EmailContent.t)) :
  (forall (client : result MongoDBClient.t) (segment : string) (rest : list string),
     let contacts := _initialize_database client in
     resolve_contacts (Some (segment :: rest)) contacts
     = match ContactService.collection contacts with
       | Some _ => Raise NotImplementedError
       | None => Ok []
       end
     /\ forall (mongo : option Mongo.t) (sch : Scheduler.t)
               (n ty : string) (srv : server),
          let s := mkWorkflowService mongo contacts sch in
          _send_campaign_emails server session sender_email stamp
            generate_email_content n ty (Some (segment :: rest)) srv s = (srv, s))
  /\ (forall (client : option MongoDBClient.t) (cs : list Campaign.t)
             (logs : list LogDoc.t) (contacts : ContactService.t)
             (sch : Scheduler.t) (n ty : string) (a : option (list string))
             (srv : server),
        let s := repository_service client cs logs contacts sch in
        _send_campaign_emails server session sender_email stamp
          generate_email_content n ty a srv s = (srv, s))
  /\ (let contacts := _initialize_database (Ok connected_client) in
      ContactService.collection contacts
      = Some (ContactService.pymongo [both_tags; one_tag] false)
      /\ ContactService.has_tag "engaged" both_tags = true
      /\ ContactService.has_tag "engaged" one_tag = true
      /\ resolve_contacts (Some ["engaged"]) contacts = Raise NotImplementedError).
Proof.
  split; [|split].
  - intros client segment rest contacts. subst contacts.
    split; [apply resolve_segments_initialized|].
    intros mongo sch n ty srv s. subst s.
    apply send_campaign_emails_unresolved. cbn [contact_service].
    rewrite resolve_segments_initialized.
    destruct (ContactService.collection (_initialize_database client));
      [right; now exists NotImplementedError | now left].
  - intros client cs logs contacts sch n ty a srv s. subst s.
    destruct client as [c|]; reflexivity.
  - repeat split.
Qed.

Section BulkFacts.

Local Open Scope list_scope.

Variable server : Type.
Variable session : server -> string * string * string * string -> bool * server.
Variable sender_email : string.
Variable stamp : string -> string.

Let try_send := SMTPService.try_send server session sender_email stamp.
Let send_from := SMTPService.send_bulk_emails_from server session sender_email stamp.

(** One pass of the loop on an entry that names its recipient: one log
    entry, which says what the server answered, and the server as the
    entry's session left it. *)
Lemma one_pass (email_data : Dict.t) (srv : server) :
  Dict.get email_data "to" <> None ->
  exists entry,
    logged_for email_data entry
    /\ logged_answer (fst (answer_of session sender_email srv email_data)) entry
    /\ forall logs rest,
         send_from logs (email_data :: rest) srv
         = send_from (logs ++ [entry]) rest
                     (snd (answer_of session sender_email srv email_data)).
Proof.
  intros Hto. destruct (Dict.get email_data "to") as [to|] eqn:Eto; [|congruence].
  unfold send_from. cbn [SMTPService.send_bulk_emails_from].
  unfold SMTPService.try_send, SMTPService.log_failure, Dict.item, answer_of,
    message_of. rewrite Eto.
  destruct (Dict.get email_data "subject") as [subject|].
  - destruct (Dict.get email_data "body") as [body|].
    + unfold SMTPService.send_email.
      destruct (session srv _) as [[|] srv'].
      * eexists. split; [|split; [|reflexivity]].
        -- unfold logged_for. cbn. rewrite Eto. repeat split. left.
           repeat split. discriminate.
        -- cbn. repeat split. discriminate.
      * eexists. split; [|split; [|reflexivity]].
        -- unfold logged_for. cbn. rewrite Eto. repeat split. right.
           repeat split. discriminate.
        -- cbn. repeat split.
    + eexists. split; [|split; [|reflexivity]].
      * unfold logged_for. cbn. rewrite Eto. repeat split. right.
        repeat split. discriminate.
      * cbn. repeat split. discriminate.
  - eexists. split; [|split; [|reflexivity]].
    + unfold logged_for. cbn. rewrite Eto. repeat split. right.
      repeat split. discriminate.
    + cbn. repeat split. discriminate.
Qed.

Lemma send_from_logs (email_list : list Dict.t) (logs : list EmailLog.t)
      (srv : server) :
  Forall (fun d => Dict.get d "to" <> None) email_list ->
  exists new srv',
    send_from logs email_list srv = (Ok (logs ++ new), srv')
    /\ Forall2 logged_for email_list new
    /\ Forall2 logged_answer (answers session sender_email srv email_list) new.
Proof.
  revert logs srv. induction email_list as [|d rest IH]; intros logs srv Hall.
  - exists [], srv. rewrite app_nil_r.
    split; [reflexivity | split; constructor].
  - inversion Hall as [|? ? Hd Hrest]; subst.
    destruct (one_pass d srv Hd) as (entry & Hlog & Hanswer & Hstep).
    destruct (IH (logs ++ [entry]) (snd (answer_of session sender_email srv d)) Hrest)
      as (new & srv' & Hrun & Hnew & Hanswers).
    exists (entry :: new), srv'. rewrite Hstep, Hrun, <- app_assoc.
    split; [reflexivity|]. split; [now constructor|].
    cbn [answers].
    destruct (answer_of session sender_email srv d) as [answer srv1].
    now constructor.
Qed.

(** Every batch entry the dispatch builds names its recipient. *)
Lemma email_batches_name_recipient
      (generate : string -> string -> string -> result (option EmailContent.t))
      (campaign : Campaign.t) (campaign_name email_type : string)
      (contacts : list Contact.t) :
  Forall (fun d => Dict.get d "to" <> None)
         (email_batches_of generate campaign campaign_name email_type contacts).
Proof.
  unfold email_batches_of. induction contacts as [|c rest IH]; [constructor|].
  cbn [flat_map]. apply Forall_app. split; [|exact IH].
  unfold batch_entry.
  destruct (generate _ _ _) as [[content|]|]; constructor; [discriminate|constructor].
Qed.

(** And carries a whole message, so that each entry reaches a session. *)
Lemma email_batches_carry_message
      (generate : string -> string -> string -> result (option EmailContent.t))
      (campaign : Campaign.t) (campaign_name email_type : string)
      (contacts : list Contact.t) :
  Forall (fun d => message_of sender_email d <> None)
         (email_batches_of generate campaign campaign_name email_type contacts).
Proof.
  unfold email_batches_of. induction contacts as [|c rest IH]; [constructor|].
  cbn [flat_map]. apply Forall_app. split; [|exact IH].
  unfold batch_entry.
  destruct (generate _ _ _) as [[content|]|]; constructor; [discriminate|constructor].
Qed.

Lemma answers_of_messages (email_list : list Dict.t) (srv : server) :
  Forall (fun d => message_of sender_email d <> None) email_list ->
  Forall (fun answer => answer <> None)
         (answers session sender_email srv email_list).
Proof.
  revert srv. induction email_list as [|d rest IH]; intros srv Hall;
    [constructor|].
  inversion Hall as [|? ? Hd Hrest]; subst. cbn [answers]. unfold answer_of.
  destruct (message_of sender_email d) as [msg|]; [|congruence].
  destruct (session srv msg) as [ok srv']. constructor; [discriminate|].
  now apply IH.
Qed.

End BulkFacts.

Section BulkLogs.

Variable server : Type.
Variable session : server -> string * string * string * string -> bool * server.
Variable sender_email : string.
Variable stamp : string -> string.

(** On a batch whose entries all name their recipient the loop never
    leaves early. *)
Lemma send_bulk_emails_logs (email_list : list Dict.t) (srv : server) :
  Forall (fun d => Dict.get d "to" <> None) email_list ->
  exists logs srv',
    SMTPService.send_bulk_emails server session sender_email stamp email_list srv
    = (Ok logs, srv')
    /\ length logs = length email_list
    /\ Forall2 logged_for email_list logs
    /\ Forall2 logged_answer (answers session sender_email srv email_list) logs.
Proof.
  intros Hall.
  destruct (send_from_logs server session sender_email stamp email_list [] srv Hall)
    as (new & srv' & Hrun & Hnew & Hanswers).
  exists new, srv'. split; [exact Hrun|]. split; [|split; assumption].
  symmetry. exact (Forall2_length Hnew).
Qed.

End BulkLogs.

(** C8: whatever the mail server does with each message,
    [send_bulk_emails] returns exactly one log entry per batch entry, in
    order, for every batch the dispatch hands to it, and more generally for
    every batch whose entries all name their recipient.  The log entry
    carries that entry's recipient, campaign and email type, and it says
    what the server answered to that entry's message: sent, with a message
    id, when the server took it, and failed, with the error text
    "Failed to send email", when the server refused it; an entry that lacks
    subject or body reaches no session and is logged as failed.  Each
    session starts from the server as the sessions before it left it, so a
    refused message costs the other entries nothing.  In a batch of the
    dispatch every entry reaches a session. *)
Theorem send_bulk_emails_logs_each_recipient
        (server : Type)
        (session : server -> string * string * string * string -> bool * server)
        (sender_email : string) (stamp : string -> string) (srv : server) :
  (forall generate campaign campaign_name email_type contacts,
     let email_batches :=
       email_batches_of generate campaign campaign_name email_type contacts in
     exists logs srv',
       SMTPService.send_bulk_emails server session sender_email stamp
                                    email_batches srv
       = (Ok logs, srv')
       /\ length logs = length email_batches
       /\ Forall2 logged_for email_batches logs
       /\ Forall2 logged_answer
                  (answers session sender_email srv email_batches) logs
       /\ Forall (fun answer => answer <> None)
                 (answers session sender_email srv email_batches))
  /\ (forall email_list,
        Forall (fun d => Dict.get d "to" <> None) email_list ->
        exists logs srv',
          SMTPService.send_bulk_emails server session sender_email stamp
                                       email_list srv
          = (Ok logs, srv')
          /\ length logs = length email_list
          /\ Forall2 logged_for email_list logs
          /\ Forall2 logged_answer
                     (answers session sender_email srv email_list) logs).
Proof.
  split.
  - intros generate campaign campaign_name email_type contacts email_batches.
    destruct (send_bulk_emails_logs server session sender_email stamp
                email_batches srv
                (email_batches_name_recipient generate campaign campaign_name
                   email_type contacts))
      as (logs & srv' & Hrun & Hlen & Hfor & Hanswers).
    exists logs, srv'. repeat (split; [assumption|]).
    apply answers_of_messages. apply email_batches_carry_message.
  - intros email_list. apply send_bulk_emails_logs.
Qed.

Lemma send_bulk_emails_logs_each_recipient_witness :
  exists logs srv',
    SMTPService.send_bulk_emails nat (refusing "bad@school.example")
      "agent@sender.example" (fun to => to)
      [mail_to "a@school.example"; mail_to "bad@school.example";
       mail_to "c@school.example"] 0%nat
    = (Ok logs, srv')
    /\ length logs = 3%nat
    /\ Forall2 logged_answer [Some true; Some false; Some true] logs.
Proof.
  destruct (send_bulk_emails_logs_each_recipient nat (refusing "bad@school.example")
              "agent@sender.example" (fun to => to) 0%nat) as [_ Hgen].
  destruct (Hgen [mail_to "a@school.example"; mail_to "bad@school.example";
                  mail_to "c@school.example"])
    as (logs & srv' & Hrun & Hlen & _ & Hanswers).
  - repeat constructor; discriminate.
  - exists logs, srv'. split; [exact Hrun|]. split; [exact Hlen|].
    exact Hanswers.
Defined.

(** ** The workflow service on the client of [database/mongodb_client.py] *)

Section ThroughClient.

Variable c : MongoDBClient.t.
Variable cs : list Campaign.t.
Variable logs : list LogDoc.t.
Variable contacts : ContactService.t.
Variable sch : Scheduler.t.

Let s : WorkflowService :=
  mkWorkflowService (Some (Mongo.through c cs logs)) contacts sch.

(** A lookup by name on this client raises, whatever it is connected to. *)
Lemma lookup_by_name_raises :
  Mongo.lookup_raises (Mongo.through c cs logs) = true.
Proof. reflexivity. Qed.

(** So every method of the workflow service that needs a collection takes
    its [except] branch, and the store is never written. *)
Lemma store_methods_fall_back (n : string) (now : datetime)
      (t : CampaignTargets.t) :
  pause_campaign n now s = (Ok false, s)
  /\ resume_campaign n now s = (Ok false, s)
  /\ get_campaign_status n s = (Ok None, s)
  /\ get_dashboard_metrics s = (Ok DashboardMetrics.zero, s)
  /\ update_campaign_targets n t now s = (Ok false, s).
Proof. repeat split. Qed.

End ThroughClient.

(** Outside what the dispatch builds: an entry without the key ['to'] makes
    the [except] block raise in its turn, and the call ends without logs,
    also for the entries before it. *)
Lemma entry_without_recipient_ends_call :
  fst (SMTPService.send_bulk_emails nat (refusing "bad@school.example")
         "agent@sender.example" (fun to => to)
         [mail_to "a@school.example"; [("subject", "Invitation")]] 0%nat)
  = Raise (KeyError "to").
Proof. reflexivity. Qed.

(** * Further properties of the code *)

(** ** The status and dashboard queries *)

Section QueryFacts.

Local Open Scope list_scope.

(** One pass of the loop that looks for the next scheduled action. *)
Let step (pfx : string) (next : option datetime) (job : Job.t) : option datetime :=
  if prefix pfx (Job.id job) then
    match Job.next_run_time job, next with
    | Some t, None => Some t
    | Some t, Some cur => if t <? cur then Some t else Some cur
    | None, _ => next
    end
  else next.

(** What the loop variable says about the jobs seen so far. *)
Let earliest_among (pfx : string) (seen : list Job.t) (next : option datetime)
  : Prop :=
  match next with
  | None => forall j, In j seen -> prefix pfx (Job.id j) = true ->
                      Job.next_run_time j = None
  | Some t =>
      (exists j, In j seen /\ prefix pfx (Job.id j) = true
                 /\ Job.next_run_time j = Some t)
      /\ (forall j t', In j seen -> prefix pfx (Job.id j) = true ->
                       Job.next_run_time j = Some t' -> t <= t')
  end.

Lemma earliest_step (pfx : string) (seen : list Job.t) (next : option datetime)
      (job : Job.t) :
  earliest_among pfx seen next ->
  earliest_among pfx (seen ++ [job]) (step pfx next job).
Proof.
  unfold earliest_among, step. intros H.
  destruct (prefix pfx (Job.id job)) eqn:Hp.
  - destruct (Job.next_run_time job) as [t|] eqn:Ht.
    + destruct next as [cur|].
      * destruct H as [(j & Hin & Hj & Hjt) Hmin].
        destruct (t <? cur) eqn:Hlt.
        -- apply Z.ltb_lt in Hlt. split.
           ++ exists job. split; [apply in_or_app; right; now left | auto].
           ++ intros k t' Hk Hkp Hkt. apply in_app_or in Hk.
              destruct Hk as [Hk|[<-|[]]].
              ** specialize (Hmin k t' Hk Hkp Hkt). lia.
              ** rewrite Ht in Hkt. injection Hkt as <-. lia.
        -- apply Z.ltb_ge in Hlt. split.
           ++ exists j. split; [apply in_or_app; now left | auto].
           ++ intros k t' Hk Hkp Hkt. apply in_app_or in Hk.
              destruct Hk as [Hk|[<-|[]]].
              ** now apply (Hmin k).
              ** rewrite Ht in Hkt. injection Hkt as <-. exact Hlt.
      * split.
        -- exists job. split; [apply in_or_app; right; now left | auto].
        -- intros k t' Hk Hkp Hkt. apply in_app_or in Hk.
           destruct Hk as [Hk|[<-|[]]].
           ** rewrite (H k Hk Hkp) in Hkt. discriminate.
           ** rewrite Ht in Hkt. injection Hkt as <-. lia.
    + destruct next as [cur|].
      * destruct H as [(j & Hin & Hj & Hjt) Hmin]. split.
        -- exists j. split; [apply in_or_app; now left | auto].
        -- intros k t' Hk Hkp Hkt. apply in_app_or in Hk.
           destruct Hk as [Hk|[<-|[]]]; [now apply (Hmin k)|congruence].
      * intros k Hk Hkp. apply in_app_or in Hk.
        destruct Hk as [Hk|[<-|[]]]; [now apply H | exact Ht].
  - destruct next as [cur|].
    + destruct H as [(j & Hin & Hj & Hjt) Hmin]. split.
      * exists j. split; [apply in_or_app; now left | auto].
      * intros k t' Hk Hkp Hkt. apply in_app_or in Hk.
        destruct Hk as [Hk|[<-|[]]]; [now apply (Hmin k)|congruence].
    + intros k Hk Hkp. apply in_app_or in Hk.
      destruct Hk as [Hk|[<-|[]]]; [now apply H | congruence].
Qed.

Lemma earliest_fold (pfx : string) (jobs seen : list Job.t)
      (next : option datetime) :
  earliest_among pfx seen next ->
  earliest_among pfx (seen ++ jobs) (fold_left (step pfx) jobs next).
Proof.
  revert seen next. induction jobs as [|job rest IH]; intros seen next H.
  - now rewrite app_nil_r.
  - cbn [fold_left]. replace (seen ++ job :: rest) with ((seen ++ [job]) ++ rest)
      by now rewrite <- app_assoc.
    apply IH. now apply earliest_step.
Qed.

Lemma earliest_run_spec (pfx : string) (jobs : list Job.t) :
  match earliest_run pfx jobs with
  | None => forall j, In j jobs -> prefix pfx (Job.id j) = true ->
                      Job.next_run_time j = None
  | Some t =>
      (exists j, In j jobs /\ prefix pfx (Job.id j) = true
                 /\ Job.next_run_time j = Some t)
      /\ (forall j t', In j jobs -> prefix pfx (Job.id j) = true ->
                       Job.next_run_time j = Some t' -> t <= t')
  end.
Proof.
  pose proof (earliest_fold pfx jobs [] None) as H.
  cbn [app] in H. apply H. intros j [].
Qed.

End QueryFacts.

(** X1, [get_campaign_status]: with a store that answers, the
    [next_scheduled_action] of a known campaign is the earliest
    [next_run_time] among the stored jobs whose id starts with
    ["{campaign_name}_"] and that are not paused, and it is [None] exactly
    when every such job is paused or there is none. *)
Theorem next_scheduled_action_is_earliest
        (n : string) (s : WorkflowService) (m : Mongo.t) (c : Campaign.t) :
  mongodb_client s = Some m ->
  Mongo.lookup_raises m = false ->
  Mongo.server_down m = false ->
  find (Mongo.named n) (Mongo.campaigns m) = Some c ->
  exists r,
    get_campaign_status n s = (Ok (Some r), s)
    /\ match CampaignStatusResponse.next_scheduled_action r with
       | None =>
           forall j, In j (Scheduler.jobs (scheduler s)) ->
                     prefix (n ++ "_") (Job.id j) = true ->
                     Job.next_run_time j = None
       | Some t =>
           (exists j, In j (Scheduler.jobs (scheduler s))
                      /\ prefix (n ++ "_") (Job.id j) = true
                      /\ Job.next_run_time j = Some t)
           /\ (forall j t', In j (Scheduler.jobs (scheduler s)) ->
                            prefix (n ++ "_") (Job.id j) = true ->
                            Job.next_run_time j = Some t' -> t <= t')
       end.
Proof.
  intros Hm Hl Hd Hc. eexists.
  split; [exact (get_campaign_status_run n s m c Hm Hl Hd Hc)|].
  cbn [CampaignStatusResponse.next_scheduled_action].
  apply earliest_run_spec.
Qed.

Lemma next_scheduled_action_is_earliest_witness :
  exists r,
    get_campaign_status "Launch"
      (service_on (up_store [sample_campaign "Launch" sample_targets] [])
         [Job.mk "Launch_reminder" 90 (Some 90) ("Launch", "reminder", None);
          Job.mk "Launch_invite" 60 None ("Launch", "invite", None);
          Job.mk "Launch_follow_up" 70 (Some 70) ("Launch", "follow_up", None)])
    = (Ok (Some r),
       service_on (up_store [sample_campaign "Launch" sample_targets] [])
         [Job.mk "Launch_reminder" 90 (Some 90) ("Launch", "reminder", None);
          Job.mk "Launch_invite" 60 None ("Launch", "invite", None);
          Job.mk "Launch_follow_up" 70 (Some 70) ("Launch", "follow_up", None)])
    /\ CampaignStatusResponse.next_scheduled_action r = Some 70.
Proof.
  destruct (next_scheduled_action_is_earliest "Launch"
    (service_on (up_store [sample_campaign "Launch" sample_targets] [])
       [Job.mk "Launch_reminder" 90 (Some 90) ("Launch", "reminder", None);
        Job.mk "Launch_invite" 60 None ("Launch", "invite", None);
        Job.mk "Launch_follow_up" 70 (Some 70) ("Launch", "follow_up", None)])
    (up_store [sample_campaign "Launch" sample_targets] [])
    (sample_campaign "Launch" sample_targets) eq_refl eq_refl eq_refl eq_refl)
    as (r & Hrun & _).
  exists r. split; [exact Hrun|].
  cbv in Hrun. injection Hrun as <-. reflexivity.
Defined.

Section ReadOnlyFacts.

(** When the campaigns collection cannot be read the status is [None]. *)
Lemma get_campaign_status_unreadable (n : string) (s : WorkflowService) :
  registry_writable s = false -> get_campaign_status n s = (Ok None, s).
Proof.
  unfold registry_writable. destruct s as [[m|] cs sch]; cbn [mongodb_client].
  - intros H.
    unfold get_campaign_status, try_except, mbind, get_collection, query,
      Mongo.get_collection, Mongo.find_one, Mongo.request.
    cbn [mongodb_client].
    destruct (Mongo.lookup_raises m); [reflexivity|].
    destruct (Mongo.server_down m); [reflexivity | discriminate].
  - reflexivity.
Qed.

Lemma get_campaign_status_unknown (n : string) (s : WorkflowService) (m : Mongo.t) :
  mongodb_client s = Some m ->
  find (Mongo.named n) (Mongo.campaigns m) = None ->
  get_campaign_status n s = (Ok None, s).
Proof.
  destruct s as [cl cs sch]. cbn [mongodb_client]. intros -> Hnone.
  unfold get_campaign_status, try_except, mbind, get_collection, query,
    Mongo.get_collection, Mongo.find_one, Mongo.request, ret.
  cbn [mongodb_client].
  destruct (Mongo.lookup_raises m); [reflexivity|].
  destruct (Mongo.server_down m); [reflexivity|].
  now rewrite Hnone.
Qed.

Lemma registry_writable_flags (s : WorkflowService) :
  registry_writable s = true ->
  exists m, mongodb_client s = Some m
            /\ Mongo.lookup_raises m = false /\ Mongo.server_down m = false.
Proof.
  unfold registry_writable. destruct (mongodb_client s) as [m|]; [|discriminate].
  intros H. apply andb_true_iff in H. destruct H as [H1 H2].
  apply negb_true_iff in H1, H2. now exists m.
Qed.

Lemma get_dashboard_metrics_unreadable (s : WorkflowService) :
  registry_writable s = false ->
  get_dashboard_metrics s = (Ok DashboardMetrics.zero, s).
Proof.
  unfold registry_writable. destruct s as [[m|] cs sch]; cbn [mongodb_client].
  - intros H.
    unfold get_dashboard_metrics, try_except, mbind, get_collection, query,
      Mongo.get_collection, Mongo.count_campaigns, Mongo.request.
    cbn [mongodb_client].
    destruct (Mongo.lookup_raises m); [reflexivity|].
    destruct (Mongo.server_down m); [reflexivity | discriminate].
  - reflexivity.
Qed.

End ReadOnlyFacts.

(** X2, [get_campaign_status] and [get_dashboard_metrics]: neither raises
    and neither changes the service, whatever the state of the store; the
    status is [None] exactly when the campaigns collection cannot be read or
    holds no campaign of that name. *)
Theorem status_queries_read_only (n : string) (s : WorkflowService) :
  (exists r, get_campaign_status n s = (Ok r, s)
             /\ (r = None <->
                 registry_writable s = false
                 \/ exists m, mongodb_client s = Some m
                              /\ find (Mongo.named n) (Mongo.campaigns m) = None))
  /\ (exists d, get_dashboard_metrics s = (Ok d, s)).
Proof.
  split.
  - destruct (registry_writable s) eqn:Hw.
    + destruct (registry_writable_flags s Hw) as (m & Hm & Hl & Hd).
      destruct (find (Mongo.named n) (Mongo.campaigns m)) as [c|] eqn:Hc.
      * eexists. split; [exact (get_campaign_status_run n s m c Hm Hl Hd Hc)|].
        split; [discriminate|].
        intros [H|(m' & Hm' & Hnone)]; [discriminate|].
        rewrite Hm in Hm'. injection Hm' as <-. congruence.
      * exists None. split; [exact (get_campaign_status_unknown n s m Hm Hc)|].
        split; [|reflexivity]. intros _. right. now exists m.
    + exists None. split; [now apply get_campaign_status_unreadable|].
      split; auto.
  - destruct (registry_writable s) eqn:Hw.
    + destruct (registry_writable_flags s Hw) as (m & Hm & Hl & Hd).
      eexists. exact (get_dashboard_metrics_run s m Hm Hl Hd).
    + eexists. now apply get_dashboard_metrics_unreadable.
Qed.

Section RateBounds.

Lemma count_where_bounds {A : Type} (p : A -> bool) (xs : list A) :
  0 <= count_where p xs <= Z.of_nat (length xs).
Proof.
  unfold count_where. pose proof (filter_length_le p xs). lia.
Qed.

Lemma quotient_in_unit (a b : Z) :
  0 <= a <= b -> 0 < b ->
  (0 <= Qred (inject_Z a / inject_Z b) <= 1)%Q.
Proof.
  intros Ha Hb. rewrite Qred_correct.
  assert (Hbq : (0 < inject_Z b)%Q).
  { change 0%Q with (inject_Z 0). rewrite <- Zlt_Qlt. exact Hb. }
  split.
  - apply Qle_shift_div_l; [exact Hbq|]. rewrite Qmult_0_l.
    change 0%Q with (inject_Z 0). rewrite <- Zle_Qle. lia.
  - apply Qle_shift_div_r; [exact Hbq|]. rewrite Qmult_1_l.
    rewrite <- Zle_Qle. lia.
Qed.

Lemma pooled_rate_in_unit (flag : LogDoc.t -> bool) (logs : list LogDoc.t) :
  (0 <= pooled_rate flag logs <= 1)%Q.
Proof.
  unfold pooled_rate. cbv zeta.
  destruct (Z.of_nat (length (filter (has_status SENT) logs)) >? 0) eqn:E.
  - apply quotient_in_unit; [apply count_where_bounds|].
    now apply Z.gtb_lt in E.
  - split; discriminate.
Qed.

End RateBounds.

(** X3, [get_dashboard_metrics]: whatever the store holds, and also when it
    cannot be read, the reported [average_open_rate] and
    [average_click_rate] lie between 0 and 1. *)
Theorem dashboard_rates_in_unit_interval (s : WorkflowService) :
  exists d,
    get_dashboard_metrics s = (Ok d, s)
    /\ (0 <= DashboardMetrics.average_open_rate d <= 1)%Q
    /\ (0 <= DashboardMetrics.average_click_rate d <= 1)%Q.
Proof.
  destruct (registry_writable s) eqn:Hw.
  - destruct (registry_writable_flags s Hw) as (m & Hm & Hl & Hd).
    eexists. split; [exact (get_dashboard_metrics_run s m Hm Hl Hd)|].
    split; apply pooled_rate_in_unit.
  - eexists. split; [now apply get_dashboard_metrics_unreadable|].
    repeat split; discriminate.
Qed.

(** ** The campaign record through schedule, pause, resume and target updates *)

Section RegistryFacts.

Local Open Scope list_scope.

Lemma find_app_none {A : Type} (p : A -> bool) (l1 l2 : list A) :
  find p l1 = None -> find p (l1 ++ l2) = find p l2.
Proof.
  induction l1 as [|x l1 IH]; [reflexivity|]. cbn [find app].
  destruct (p x); [discriminate | exact IH].
Qed.

Lemma find_app_some {A : Type} (p : A -> bool) (l1 l2 : list A) (x : A) :
  find p l1 = Some x -> find p (l1 ++ l2) = Some x.
Proof.
  induction l1 as [|y l1 IH]; [discriminate|]. cbn [find app].
  destruct (p y); [auto | exact IH].
Qed.

Lemma named_other (n n' : string) (c : Campaign.t) :
  n' <> n -> Mongo.named n c = true -> Mongo.named n' c = false.
Proof.
  unfold Mongo.named. intros Hne H. apply String.eqb_eq in H.
  apply String.eqb_neq. congruence.
Qed.

(** The upsert of [schedule_campaign] stores the document under its name
    and leaves the documents of other names alone. *)
Lemma upserted_find (n : string) (doc : Campaign.t) (cs : list Campaign.t) :
  Mongo.named n doc = true ->
  find (Mongo.named n) (upserted n doc cs) = Some doc
  /\ (forall n', n' <> n ->
        find (Mongo.named n') (upserted n doc cs) = find (Mongo.named n') cs).
Proof.
  intros Hdoc. unfold upserted.
  induction cs as [|c rest IH]; cbn [Mongo.update_first app find].
  - rewrite Hdoc. split; [reflexivity|]. intros n' Hne.
    now rewrite (named_other n n' doc Hne Hdoc).
  - destruct (Mongo.named n c) eqn:E.
    + cbn [find]. rewrite Hdoc. split; [reflexivity|]. intros n' Hne.
      now rewrite (named_other n n' doc Hne Hdoc), (named_other n n' c Hne E).
    + destruct (Mongo.update_first n (fun _ => doc) rest) as [[rest' matched] modified].
      destruct IH as [IH1 IH2].
      destruct matched; cbn [find app]; rewrite E; (split; [exact IH1|]);
        intros n' Hne; destruct (Mongo.named n' c); auto.
Qed.

(** An update by name rewrites the first document of that name, if there
    is one, and nothing else. *)
Lemma updated_find (n : string) (f : Campaign.t -> Campaign.t)
      (cs : list Campaign.t) :
  (forall c, Campaign.name (f c) = Campaign.name c) ->
  find (Mongo.named n) (updated n f cs) = option_map f (find (Mongo.named n) cs)
  /\ (forall n', n' <> n ->
        find (Mongo.named n') (updated n f cs) = find (Mongo.named n') cs)
  /\ (find (Mongo.named n) cs = None -> updated n f cs = cs)
  /\ length (updated n f cs) = length cs.
Proof.
  intros Hf. unfold updated.
  assert (Hnamed : forall k c, Mongo.named k (f c) = Mongo.named k c).
  { intros k c. unfold Mongo.named. now rewrite Hf. }
  induction cs as [|c rest IH]; cbn [Mongo.update_first find]; [auto|].
  destruct (Mongo.named n c) eqn:E; cbn [fst find].
  - rewrite Hnamed, E. repeat split; try discriminate.
    intros n' Hne. now rewrite Hnamed, (named_other n n' c Hne E).
  - destruct (Mongo.update_first n f rest) as [[rest' matched] modified].
    cbn [fst] in *. destruct IH as (IH1 & IH2 & IH3 & IH4).
    cbn [find length]. rewrite E. repeat split.
    + exact IH1.
    + intros n' Hne. destruct (Mongo.named n' c); auto.
    + intros Hnone. now rewrite IH3.
    + now rewrite IH4.
Qed.

(** With a store that answers, the guarded write of [schedule_campaign]
    goes through. *)
Lemma save_campaign_run (c : Campaign.t) (s : WorkflowService) (m : Mongo.t) :
  mongodb_client s = Some m ->
  Mongo.lookup_raises m = false ->
  Mongo.server_down m = false ->
  snd (save_campaign c s)
  = set_client (Mongo.set_campaigns (upserted (Campaign.name c) c (Mongo.campaigns m)) m) s.
Proof.
  destruct s as [cl cs sch]. cbn [mongodb_client]. intros -> Hl Hd.
  unfold save_campaign, try_except, mbind, get_collection, command, ret,
    Mongo.get_collection, Mongo.replace_one, Mongo.request, bind, upserted.
  cbn [mongodb_client]. rewrite Hl, Hd. cbv beta iota.
  destruct (Mongo.update_first _ _ _) as [[cs' matched] modified]. reflexivity.
Qed.

Lemma set_campaign_status_run (n : string) (st : CampaignStatus)
      (now : datetime) (s : WorkflowService) (m : Mongo.t) :
  mongodb_client s = Some m ->
  Mongo.lookup_raises m = false ->
  Mongo.server_down m = false ->
  snd (set_campaign_status n st now s)
  = set_client (Mongo.set_campaigns
                  (updated n (Campaign.set_status st now) (Mongo.campaigns m)) m) s.
Proof.
  destruct s as [cl cs sch]. cbn [mongodb_client]. intros -> Hl Hd.
  unfold set_campaign_status, mbind, get_collection, command,
    Mongo.get_collection, Mongo.update_one, Mongo.request, bind, updated.
  cbn [mongodb_client]. rewrite Hl, Hd. cbv beta iota.
  destruct (Mongo.update_first _ _ _) as [[cs' matched] modified]. reflexivity.
Qed.

Lemma writable_of_flags (s : WorkflowService) (m : Mongo.t) :
  mongodb_client s = Some m ->
  Mongo.lookup_raises m = false ->
  Mongo.server_down m = false ->
  registry_writable s = true.
Proof. unfold registry_writable. now intros -> -> ->. Qed.

End RegistryFacts.

(** X4, [schedule_campaign]: with a store that answers, the call leaves
    under the campaign's name a record with status [scheduled], the plan and
    the targets given and both timestamps set to the time of the call,
    replacing what was stored under that name; records of other names and
    the email logs are untouched.  This holds whether the call answers
    [True] or [False]: the record is written before the jobs are created
    and stays when creating a job fails.  [get_campaign_status] afterwards
    reports that status and those targets. *)
Theorem schedule_stores_scheduled_record
        (n : string) (p : WorkflowPlan.t) (t : CampaignTargets.t)
        (a : option (list string)) (now : datetime)
        (s : WorkflowService) (m : Mongo.t) :
  mongodb_client s = Some m ->
  Mongo.lookup_raises m = false ->
  Mongo.server_down m = false ->
  let s' := snd (schedule_campaign n p t a now s) in
  exists m',
    mongodb_client s' = Some m'
    /\ find (Mongo.named n) (Mongo.campaigns m') = Some (scheduled_record n p t now)
    /\ (forall n', n' <> n ->
          find (Mongo.named n') (Mongo.campaigns m')
          = find (Mongo.named n') (Mongo.campaigns m))
    /\ Mongo.email_logs m' = Mongo.email_logs m
    /\ exists r,
         get_campaign_status n s' = (Ok (Some r), s')
         /\ CampaignStatusResponse.status r = SCHEDULED
         /\ CampaignStatusResponse.targets r = t.
Proof.
  intros Hm Hl Hd s'. subst s'. rewrite schedule_campaign_run. cbv zeta.
  rewrite (save_campaign_run _ s m Hm Hl Hd). cbn [Campaign.name].
  fold (scheduled_record n p t now).
  destruct (upserted_find n (scheduled_record n p t now) (Mongo.campaigns m))
    as [Hfind Hother]; [apply String.eqb_refl|].
  exists (Mongo.set_campaigns
            (upserted n (scheduled_record n p t now) (Mongo.campaigns m)) m).
  split; [reflexivity|]. cbn [Mongo.campaigns Mongo.set_campaigns].
  split; [exact Hfind|]. split; [exact Hother|]. split; [reflexivity|].
  eexists. split.
  - apply (get_campaign_status_run n _
             (Mongo.set_campaigns
                (upserted n (scheduled_record n p t now) (Mongo.campaigns m)) m)
             (scheduled_record n p t now));
      [reflexivity | exact Hl | exact Hd | exact Hfind].
  - split; reflexivity.
Qed.

Lemma schedule_stores_scheduled_record_witness :
  let s := service_on (up_store [sample_campaign "Other" negative_targets] []) [] in
  let s' := snd (schedule_campaign "Launch" (invite_only 60) sample_targets None 5 s) in
  exists m',
    mongodb_client s' = Some m'
    /\ find (Mongo.named "Launch") (Mongo.campaigns m')
       = Some (scheduled_record "Launch" (invite_only 60) sample_targets 5)
    /\ find (Mongo.named "Other") (Mongo.campaigns m')
       = Some (sample_campaign "Other" negative_targets).
Proof.
  intros s s'.
  destruct (schedule_stores_scheduled_record "Launch" (invite_only 60)
              sample_targets None 5 s
              (up_store [sample_campaign "Other" negative_targets] [])
              eq_refl eq_refl eq_refl) as (m' & Hm' & Hfind & Hother & _).
  exists m'. split; [exact Hm'|]. split; [exact Hfind|].
  rewrite Hother; [reflexivity | discriminate].
Defined.

Section PauseEffects.

Local Open Scope list_scope.

Lemma prefix_app (a b : string) : prefix a (a ++ b)%string = true.
Proof.
  induction a as [|c a IH]; [now destruct b|]. cbn.
  destruct (ascii_dec c c); [exact IH | congruence].
Qed.

(** A loop that ran to its end is a map over the stored jobs; it runs to
    its end exactly when no request about a job of the campaign raises. *)
Lemma sweep_complete (r : string -> bool) (pfx : string) (f : Job.t -> Job.t)
      (js : list Job.t) :
  (snd (sweep r pfx f js) = true <->
   forall j, In j js -> prefix pfx (Job.id j) = true -> r (Job.id j) = false)
  /\ (snd (sweep r pfx f js) = true ->
      fst (sweep r pfx f js)
      = map (fun j => if prefix pfx (Job.id j) then f j else j) js).
Proof.
  induction js as [|k rest [IH1 IH2]]; cbn [sweep map].
  - split; [split; [intros _ j [] | reflexivity] | reflexivity].
  - destruct (prefix pfx (Job.id k)) eqn:Hp.
    + destruct (r (Job.id k)) eqn:Hr; cbn [fst snd].
      * split; [split; [discriminate|] | discriminate].
        intros H. rewrite (H k (or_introl eq_refl) Hp) in Hr. discriminate.
      * destruct (sweep r pfx f rest) as [rest' ok]. cbn [fst snd] in *.
        split.
        -- rewrite IH1. split.
           ++ intros H j [<-|Hin] Hj; [exact Hr | now apply H].
           ++ intros H j Hin Hj. apply H; [now right | exact Hj].
        -- intros Hok. now rewrite (IH2 Hok).
    + destruct (sweep r pfx f rest) as [rest' ok]. cbn [fst snd] in *.
      split.
      * rewrite IH1. split.
        -- intros H j [<-|Hin] Hj; [congruence | now apply H].
        -- intros H j Hin Hj. apply H; [now right | exact Hj].
      * intros Hok. now rewrite (IH2 Hok).
Qed.

(** The service after [pause_campaign] or [resume_campaign], with a store
    that answers. *)
Lemma pause_campaign_state (n : string) (now : datetime)
      (s : WorkflowService) (m : Mongo.t) :
  mongodb_client s = Some m ->
  Mongo.lookup_raises m = false ->
  Mongo.server_down m = false ->
  NoDup (job_ids (Scheduler.jobs (scheduler s))) ->
  let sw := sweep (Scheduler.raises (scheduler s)) (n ++ "_")%string Job.pause
                  (Scheduler.jobs (scheduler s)) in
  pause_campaign n now s =
  (Ok (snd sw),
   set_scheduler (Scheduler.mk (Scheduler.jobstore (scheduler s)) (fst sw))
     (set_client (Mongo.set_campaigns
                    (updated n (Campaign.set_status PAUSED now) (Mongo.campaigns m)) m)
                 s)).
Proof.
  intros Hm Hl Hd Hnd sw. subst sw.
  pose proof (status_then_sweep_run (n ++ "_")%string Job.pause (fun _ => eq_refl)
                n PAUSED now s Hnd) as H.
  cbv zeta in H. rewrite (writable_of_flags s m Hm Hl Hd) in H.
  rewrite (set_campaign_status_run n PAUSED now s m Hm Hl Hd) in H.
  exact H.
Qed.

Lemma resume_campaign_state (n : string) (now : datetime)
      (s : WorkflowService) (m : Mongo.t) :
  mongodb_client s = Some m ->
  Mongo.lookup_raises m = false ->
  Mongo.server_down m = false ->
  NoDup (job_ids (Scheduler.jobs (scheduler s))) ->
  let sw := sweep (Scheduler.raises (scheduler s)) (n ++ "_")%string Job.resume
                  (Scheduler.jobs (scheduler s)) in
  resume_campaign n now s =
  (Ok (snd sw),
   set_scheduler (Scheduler.mk (Scheduler.jobstore (scheduler s)) (fst sw))
     (set_client (Mongo.set_campaigns
                    (updated n (Campaign.set_status ACTIVE now) (Mongo.campaigns m)) m)
                 s)).
Proof.
  intros Hm Hl Hd Hnd sw. subst sw.
  pose proof (status_then_sweep_run (n ++ "_")%string Job.resume (fun _ => eq_refl)
                n ACTIVE now s Hnd) as H.
  cbv zeta in H. rewrite (writable_of_flags s m Hm Hl Hd) in H.
  rewrite (set_campaign_status_run n ACTIVE now s m Hm Hl Hd) in H.
  exact H.
Qed.

End PauseEffects.

(** X5, [pause_campaign] and [resume_campaign]: with a store that answers,
    pausing sets the status of the campaign's record to [paused] and
    resuming sets it to [active], each with the time of the call as
    [updated_at]; records of other names, the number of records and the
    email logs are unchanged.  For a name without record nothing is
    created or changed, and the call is not an error for that. *)
Theorem pause_and_resume_write_status
        (n : string) (now : datetime) (s : WorkflowService) (m : Mongo.t) :
  mongodb_client s = Some m ->
  Mongo.lookup_raises m = false ->
  Mongo.server_down m = false ->
  NoDup (job_ids (Scheduler.jobs (scheduler s))) ->
  (exists m1,
     mongodb_client (snd (pause_campaign n now s)) = Some m1
     /\ find (Mongo.named n) (Mongo.campaigns m1)
        = option_map (Campaign.set_status PAUSED now)
                     (find (Mongo.named n) (Mongo.campaigns m))
     /\ (forall n', n' <> n -> find (Mongo.named n') (Mongo.campaigns m1)
                               = find (Mongo.named n') (Mongo.campaigns m))
     /\ (find (Mongo.named n) (Mongo.campaigns m) = None ->
         Mongo.campaigns m1 = Mongo.campaigns m)
     /\ length (Mongo.campaigns m1) = length (Mongo.campaigns m)
     /\ Mongo.email_logs m1 = Mongo.email_logs m)
  /\ (exists m1,
        mongodb_client (snd (resume_campaign n now s)) = Some m1
        /\ find (Mongo.named n) (Mongo.campaigns m1)
           = option_map (Campaign.set_status ACTIVE now)
                        (find (Mongo.named n) (Mongo.campaigns m))
        /\ (forall n', n' <> n -> find (Mongo.named n') (Mongo.campaigns m1)
                                  = find (Mongo.named n') (Mongo.campaigns m))
        /\ (find (Mongo.named n) (Mongo.campaigns m) = None ->
            Mongo.campaigns m1 = Mongo.campaigns m)
        /\ length (Mongo.campaigns m1) = length (Mongo.campaigns m)
        /\ Mongo.email_logs m1 = Mongo.email_logs m)
  /\ (find (Mongo.named n) (Mongo.campaigns m) = None ->
      (forall j, In j (Scheduler.jobs (scheduler s)) ->
                 prefix (n ++ "_") (Job.id j) = true ->
                 Scheduler.raises (scheduler s) (Job.id j) = false) ->
      fst (pause_campaign n now s) = Ok true).
Proof.
  intros Hm Hl Hd Hnd.
  rewrite (pause_campaign_state n now s m Hm Hl Hd Hnd).
  rewrite (resume_campaign_state n now s m Hm Hl Hd Hnd). cbv zeta. cbn [fst snd].
  split; [|split].
  - eexists. split; [reflexivity|]. cbn [Mongo.campaigns Mongo.set_campaigns Mongo.email_logs].
    destruct (updated_find n (Campaign.set_status PAUSED now) (Mongo.campaigns m)
                (fun c => eq_refl)) as (H1 & H2 & H3 & H4).
    repeat split; auto.
  - eexists. split; [reflexivity|]. cbn [Mongo.campaigns Mongo.set_campaigns Mongo.email_logs].
    destruct (updated_find n (Campaign.set_status ACTIVE now) (Mongo.campaigns m)
                (fun c => eq_refl)) as (H1 & H2 & H3 & H4).
    repeat split; auto.
  - intros _ Hjobs. f_equal. now apply sweep_complete.
Qed.

Lemma pause_and_resume_write_status_witness :
  exists m1,
    mongodb_client (snd (pause_campaign "Launch" 10 launch_service)) = Some m1
    /\ option_map Campaign.status (find (Mongo.named "Launch") (Mongo.campaigns m1))
       = Some PAUSED
    /\ fst (pause_campaign "Ghost" 10 launch_service) = Ok true.
Proof.
  destruct (pause_and_resume_write_status "Launch" 10 launch_service
              (up_store [sample_campaign "Launch" sample_targets] [])
              eq_refl eq_refl eq_refl) as ((m1 & Hm1 & Hfind & _) & _ & _).
  - repeat constructor. intros [].
  - exists m1. split; [exact Hm1|]. split; [now rewrite Hfind|].
    destruct (pause_and_resume_write_status "Ghost" 10 launch_service
                (up_store [sample_campaign "Launch" sample_targets] [])
                eq_refl eq_refl eq_refl) as (_ & _ & Hghost).
    + repeat constructor. intros [].
    + apply Hghost; [reflexivity|]. intros j Hin _. reflexivity.
Defined.

(** X6, [pause_campaign] then [resume_campaign]: with a store that
    answers, the record of a known campaign ends with status [active] and
    the time of the resume as [updated_at], all its other fields as they
    were; the status it had before the pause is not brought back. *)
Theorem pause_then_resume_leaves_active
        (n : string) (now1 now2 : datetime) (s : WorkflowService)
        (m : Mongo.t) (c : Campaign.t) :
  mongodb_client s = Some m ->
  Mongo.lookup_raises m = false ->
  Mongo.server_down m = false ->
  NoDup (job_ids (Scheduler.jobs (scheduler s))) ->
  find (Mongo.named n) (Mongo.campaigns m) = Some c ->
  let s2 := snd (resume_campaign n now2 (snd (pause_campaign n now1 s))) in
  exists m2,
    mongodb_client s2 = Some m2
    /\ find (Mongo.named n) (Mongo.campaigns m2)
       = Some (Campaign.mk (Campaign.name c) (Campaign.title c) ACTIVE
                           (Campaign.workflow_plan c) (Campaign.targets c)
                           (Campaign.created_at c) now2 (Campaign.created_by c)).
Proof.
  intros Hm Hl Hd Hnd Hc s2. subst s2.
  rewrite (pause_campaign_state n now1 s m Hm Hl Hd Hnd). cbv zeta. cbn [snd].
  set (m1 := Mongo.set_campaigns
               (updated n (Campaign.set_status PAUSED now1) (Mongo.campaigns m)) m).
  set (sw := sweep _ _ Job.pause _).
  set (s1 := set_scheduler _ _).
  assert (Hnd1 : NoDup (job_ids (Scheduler.jobs (scheduler s1)))).
  { subst s1. cbn [scheduler set_scheduler Scheduler.jobs]. subst sw.
    rewrite sweep_ids; [exact Hnd | reflexivity]. }
  rewrite (resume_campaign_state n now2 s1 m1 eq_refl Hl Hd Hnd1).
  cbv zeta. cbn [snd].
  eexists. split; [reflexivity|]. cbn [Mongo.campaigns Mongo.set_campaigns].
  destruct (updated_find n (Campaign.set_status ACTIVE now2) (Mongo.campaigns m1)
              (fun c => eq_refl)) as (H1 & _).
  rewrite H1. subst m1. cbn [Mongo.campaigns Mongo.set_campaigns].
  destruct (updated_find n (Campaign.set_status PAUSED now1) (Mongo.campaigns m)
              (fun c => eq_refl)) as (H2 & _).
  rewrite H2, Hc. reflexivity.
Qed.

Lemma pause_then_resume_leaves_active_witness :
  let s2 := snd (resume_campaign "Launch" 11 (snd (pause_campaign "Launch" 10 launch_service))) in
  exists m2,
    mongodb_client s2 = Some m2
    /\ option_map Campaign.status (find (Mongo.named "Launch") (Mongo.campaigns m2))
       = Some ACTIVE
    /\ Campaign.status (sample_campaign "Launch" sample_targets) = SCHEDULED.
Proof.
  intros s2.
  destruct (pause_then_resume_leaves_active "Launch" 10 11 launch_service
              (up_store [sample_campaign "Launch" sample_targets] [])
              (sample_campaign "Launch" sample_targets)
              eq_refl eq_refl eq_refl) as (m2 & Hm2 & Hfind).
  - repeat constructor. intros [].
  - reflexivity.
  - exists m2. split; [exact Hm2|]. split; [now rewrite Hfind | reflexivity].
Defined.

Section PauseJobs.

(** Which answer [pause_campaign] and [resume_campaign] give, and what a
    [True] means for the jobs. *)
Lemma pause_campaign_jobs (n : string) (now : datetime) (s : WorkflowService) :
  NoDup (job_ids (Scheduler.jobs (scheduler s))) ->
  (fst (pause_campaign n now s) = Ok true <->
   registry_writable s = true
   /\ forall j, In j (Scheduler.jobs (scheduler s)) ->
                prefix (n ++ "_") (Job.id j) = true ->
                Scheduler.raises (scheduler s) (Job.id j) = false)
  /\ (fst (pause_campaign n now s) = Ok true ->
      Scheduler.jobs (scheduler (snd (pause_campaign n now s)))
      = map (fun j => if prefix (n ++ "_") (Job.id j) then Job.pause j else j)
            (Scheduler.jobs (scheduler s))).
Proof.
  intros Hnd.
  destruct (pause_campaign_outcome n now s Hnd) as (Hr & _ & Hs).
  rewrite Hr, Hs.
  destruct (sweep_complete (Scheduler.raises (scheduler s)) (n ++ "_") Job.pause
              (Scheduler.jobs (scheduler s))) as [Hiff Hmap].
  destruct (registry_writable s); cbn [andb].
  - split.
    + split.
      * intros H. injection H as H. split; [reflexivity | now apply Hiff].
      * intros [_ H]. f_equal. now apply Hiff.
    + intros H. injection H as H. cbn [Scheduler.jobs]. now apply Hmap.
  - split; [split; [discriminate | intros [H _]; discriminate] | discriminate].
Qed.

Lemma resume_campaign_jobs (n : string) (now : datetime) (s : WorkflowService) :
  NoDup (job_ids (Scheduler.jobs (scheduler s))) ->
  (fst (resume_campaign n now s) = Ok true <->
   registry_writable s = true
   /\ forall j, In j (Scheduler.jobs (scheduler s)) ->
                prefix (n ++ "_") (Job.id j) = true ->
                Scheduler.raises (scheduler s) (Job.id j) = false)
  /\ (fst (resume_campaign n now s) = Ok true ->
      Scheduler.jobs (scheduler (snd (resume_campaign n now s)))
      = map (fun j => if prefix (n ++ "_") (Job.id j) then Job.resume j else j)
            (Scheduler.jobs (scheduler s))).
Proof.
  intros Hnd.
  destruct (resume_campaign_outcome n now s Hnd) as (Hr & _ & Hs).
  rewrite Hr, Hs.
  destruct (sweep_complete (Scheduler.raises (scheduler s)) (n ++ "_") Job.resume
              (Scheduler.jobs (scheduler s))) as [Hiff Hmap].
  destruct (registry_writable s); cbn [andb].
  - split.
    + split.
      * intros H. injection H as H. split; [reflexivity | now apply Hiff].
      * intros [_ H]. f_equal. now apply Hiff.
    + intros H. injection H as H. cbn [Scheduler.jobs]. now apply Hmap.
  - split; [split; [discriminate | intros [H _]; discriminate] | discriminate].
Qed.

Lemma append_assoc (a b c : string) : ((a ++ b) ++ c = a ++ b ++ c)%string.
Proof. induction a as [|x a IH]; cbn; [reflexivity | now rewrite IH]. Qed.

End PauseJobs.

(** X7, [pause_campaign] and [resume_campaign]: on a store whose ids are
    single, the call answers [True] exactly when the campaigns collection
    can be written and no request about a job whose id starts with
    ["{campaign_name}_"] raises; it then has paused (resumed) exactly those
    jobs, every other job being left as it was, and a resumed job gets its
    run date as next run time whether or not it had been paused. *)
Theorem pause_and_resume_touch_prefixed_jobs
        (n : string) (now : datetime) (s : WorkflowService) :
  NoDup (job_ids (Scheduler.jobs (scheduler s))) ->
  let writable_and_reachable :=
    registry_writable s = true
    /\ forall j, In j (Scheduler.jobs (scheduler s)) ->
                 prefix (n ++ "_") (Job.id j) = true ->
                 Scheduler.raises (scheduler s) (Job.id j) = false in
  (fst (pause_campaign n now s) = Ok true <-> writable_and_reachable)
  /\ (fst (resume_campaign n now s) = Ok true <-> writable_and_reachable)
  /\ (fst (pause_campaign n now s) = Ok true ->
      Scheduler.jobs (scheduler (snd (pause_campaign n now s)))
      = map (fun j => if prefix (n ++ "_") (Job.id j)
                      then Job.mk (Job.id j) (Job.run_date j) None (Job.args j)
                      else j)
            (Scheduler.jobs (scheduler s)))
  /\ (fst (resume_campaign n now s) = Ok true ->
      Scheduler.jobs (scheduler (snd (resume_campaign n now s)))
      = map (fun j => if prefix (n ++ "_") (Job.id j)
                      then Job.mk (Job.id j) (Job.run_date j)
                                  (Some (Job.run_date j)) (Job.args j)
                      else j)
            (Scheduler.jobs (scheduler s))).
Proof.
  intros Hnd w.
  destruct (pause_campaign_jobs n now s Hnd) as [Hp1 Hp2].
  destruct (resume_campaign_jobs n now s Hnd) as [Hr1 Hr2].
  split; [exact Hp1|]. split; [exact Hr1|]. split.
  - intros H. exact (Hp2 H).
  - intros H. exact (Hr2 H).
Qed.

Lemma pause_and_resume_touch_prefixed_jobs_witness :
  Scheduler.jobs (scheduler (snd (pause_campaign "Launch" 10
    (service_on (up_store [] [])
       [launch_invite; Job.mk "Other_invite" 80 (Some 80) ("Other", "invite", None)]))))
  = [Job.pause launch_invite;
     Job.mk "Other_invite" 80 (Some 80) ("Other", "invite", None)].
Proof.
  destruct (pause_and_resume_touch_prefixed_jobs "Launch" 10
    (service_on (up_store [] [])
       [launch_invite; Job.mk "Other_invite" 80 (Some 80) ("Other", "invite", None)]))
    as (_ & _ & Hjobs & _).
  - repeat constructor; cbn; intuition discriminate.
  - rewrite Hjobs; reflexivity.
Defined.

(** X8, [pause_campaign]: the jobs are picked by id prefix, so pausing a
    campaign named [n] also pauses every job of a campaign whose name
    starts with [n] followed by an underscore. *)
Theorem pause_reaches_campaigns_sharing_prefix
        (n x stage : string) (a : option (list string)) (d : datetime)
        (now : datetime) (s : WorkflowService) :
  NoDup (job_ids (Scheduler.jobs (scheduler s))) ->
  fst (pause_campaign n now s) = Ok true ->
  In (stage_job (n ++ "_" ++ x) a stage d) (Scheduler.jobs (scheduler s)) ->
  In (Job.pause (stage_job (n ++ "_" ++ x) a stage d))
     (Scheduler.jobs (scheduler (snd (pause_campaign n now s)))).
Proof.
  intros Hnd Hok Hin.
  destruct (pause_campaign_jobs n now s Hnd) as [_ Hmap].
  rewrite (Hmap Hok).
  apply in_map_iff. exists (stage_job (n ++ "_" ++ x) a stage d).
  split; [|exact Hin].
  assert (Hp : prefix (n ++ "_") (Job.id (stage_job (n ++ "_" ++ x) a stage d)) = true).
  { cbn [stage_job Job.id]. unfold job_id.
    replace ((n ++ "_" ++ x) ++ "_" ++ stage)%string
      with ((n ++ "_") ++ (x ++ "_" ++ stage))%string.
    - apply prefix_app.
    - now rewrite !append_assoc. }
  now rewrite Hp.
Qed.

Lemma pause_reaches_campaigns_sharing_prefix_witness :
  In (Job.pause (stage_job "Launch_2026" None "invite" 80))
     (Scheduler.jobs (scheduler (snd (pause_campaign "Launch" 10
        (service_on (up_store [] [])
           [launch_invite; stage_job "Launch_2026" None "invite" 80]))))).
Proof.
  apply (pause_reaches_campaigns_sharing_prefix "Launch" "2026" "invite" None 80 10
           (service_on (up_store [] [])
              [launch_invite; stage_job "Launch_2026" None "invite" 80])).
  - repeat constructor; cbn; intuition discriminate.
  - reflexivity.
  - right. now left.
Defined.

Section TargetsEffects.

(** The state [update_campaign_targets] leaves with a store that answers. *)
Lemma update_campaign_targets_state (n : string) (t : CampaignTargets.t)
      (now : datetime) (s : WorkflowService) (m : Mongo.t) :
  mongodb_client s = Some m ->
  Mongo.lookup_raises m = false ->
  Mongo.server_down m = false ->
  snd (update_campaign_targets n t now s)
  = set_client (Mongo.set_campaigns
                  (updated n (Campaign.set_targets t now) (Mongo.campaigns m)) m) s.
Proof.
  intros Hm Hl Hd.
  destruct s as [cl cs sch]. cbn [mongodb_client] in Hm. subst cl.
  unfold update_campaign_targets, try_except, mbind, get_collection, command,
    ret, Mongo.get_collection, Mongo.update_one, Mongo.request, bind, updated.
  cbn [mongodb_client]. rewrite Hl, Hd. cbv beta iota.
  destruct (Mongo.update_first n (Campaign.set_targets t now) (Mongo.campaigns m))
    as [[cs' matched] modified].
  now destruct modified.
Qed.

End TargetsEffects.

(** X9, [update_campaign_targets] then [get_campaign_status]: with a store
    that answers, after a target update for a known campaign, whatever the
    update answered, the status reports the targets just given, the status
    the campaign had, and measures progress against the new target. *)
Theorem status_reports_updated_targets
        (n : string) (t : CampaignTargets.t) (now : datetime)
        (s : WorkflowService) (m : Mongo.t) (c : Campaign.t) :
  mongodb_client s = Some m ->
  Mongo.lookup_raises m = false ->
  Mongo.server_down m = false ->
  find (Mongo.named n) (Mongo.campaigns m) = Some c ->
  let s' := snd (update_campaign_targets n t now s) in
  exists r,
    get_campaign_status n s' = (Ok (Some r), s')
    /\ CampaignStatusResponse.targets r = t
    /\ CampaignStatusResponse.status r = Campaign.status c
    /\ CampaignStatusResponse.progress_percentage r
       = (if CampaignTargets.total_emails_sent t >? 0
          then Qred (Qred (inject_Z (CampaignStatusResponse.total_emails_sent r)
                           / inject_Z (CampaignTargets.total_emails_sent t)) * 100)
          else 0%Q).
Proof.
  intros Hm Hl Hd Hc s'. subst s'.
  rewrite (update_campaign_targets_state n t now s m Hm Hl Hd).
  set (m' := Mongo.set_campaigns _ m).
  assert (Hfind : find (Mongo.named n) (Mongo.campaigns m')
                  = Some (Campaign.set_targets t now c)).
  { subst m'. destruct m; cbn [Mongo.campaigns Mongo.set_campaigns] in *.
    destruct (updated_find n (Campaign.set_targets t now) campaigns
                (fun c => eq_refl)) as [H _].
    now rewrite H, Hc. }
  eexists. split.
  - apply (get_campaign_status_run n (set_client m' s) m'
             (Campaign.set_targets t now c));
      [now destruct s | subst m'; now destruct m | subst m'; now destruct m
      | exact Hfind].
  - repeat split.
Qed.

Lemma status_reports_updated_targets_witness :
  let s := service_on (up_store [sample_campaign "Launch" negative_targets]
                                [sent_log "Launch" true]) [] in
  let s' := snd (update_campaign_targets "Launch" sample_targets 9 s) in
  exists r,
    get_campaign_status "Launch" s' = (Ok (Some r), s')
    /\ CampaignStatusResponse.targets r = sample_targets.
Proof.
  intros s s'.
  destruct (status_reports_updated_targets "Launch" sample_targets 9 s
              (up_store [sample_campaign "Launch" negative_targets]
                        [sent_log "Launch" true])
              (sample_campaign "Launch" negative_targets)
              eq_refl eq_refl eq_refl eq_refl) as (r & Hrun & Ht & _).
  exists r. split; [exact Hrun | exact Ht].
Defined.

Section UriFacts.

Lemma has_query_app (a b : string) :
  has_query (a ++ b) = has_query a || has_query b.
Proof.
  induction a as [|c a IH]; [reflexivity|]. cbn [append has_query].
  now destruct (Ascii.eqb c "?").
Qed.

Lemma has_query_before (uri : string) : has_query (before_query uri) = false.
Proof.
  induction uri as [|c uri IH]; [reflexivity|]. cbn [before_query].
  destruct (Ascii.eqb c "?") eqn:E; [reflexivity|].
  cbn [has_query]. now rewrite E.
Qed.

Lemma before_query_plain (a b : string) :
  has_query a = false -> before_query (a ++ "?" ++ b) = a.
Proof.
  induction a as [|c a IH]; [reflexivity|]. cbn [append has_query before_query].
  destruct (Ascii.eqb c "?"); [discriminate|]. intros H. f_equal. now apply IH.
Qed.

Lemma before_query_none (a : string) : has_query a = false -> before_query a = a.
Proof.
  induction a as [|c a IH]; [reflexivity|]. cbn [has_query before_query].
  destruct (Ascii.eqb c "?"); [discriminate|]. intros H. now rewrite IH.
Qed.

End UriFacts.

(** X10, [_connect_without_ssl_verification]: for a URI without query the
    options are appended after a ['?'], so the URI given comes back as the
    part before the query.  For a URI that has a query, everything from the
    first ['?'] on is dropped and the options are joined with ['&']: the
    URI built has no ['?'] at all, and the parameters the caller gave are
    lost. *)
Theorem ssl_uri_query (mongodb_uri : string) :
  has_query (ssl_uri mongodb_uri) = negb (has_query mongodb_uri)
  /\ before_query (ssl_uri mongodb_uri)
     = (if has_query mongodb_uri then ssl_uri mongodb_uri else mongodb_uri)
  /\ ssl_uri mongodb_uri
     = (before_query mongodb_uri
        ++ (if has_query mongodb_uri then "&" else "?") ++ tls_options)%string.
Proof.
  unfold ssl_uri. destruct (has_query mongodb_uri) eqn:E; cbn [negb].
  - assert (H : has_query (before_query mongodb_uri ++ "&" ++ tls_options) = false).
    { rewrite has_query_app, has_query_before. reflexivity. }
    split; [exact H|]. split; [|reflexivity]. now apply before_query_none.
  - split; [|split].
    + rewrite has_query_app, E. reflexivity.
    + now apply before_query_plain.
    + now rewrite before_query_none.
Qed.

Section ServerTrace.

Local Open Scope list_scope.

Variable server : Type.
Variable session : server -> string * string * string * string -> bool * server.
Variable sender_email : string.
Variable stamp : string -> string.

(** The server after one pass of the loop. *)
Lemma try_send_server (email_data : Dict.t) (srv : server) :
  snd (SMTPService.try_send server session sender_email stamp email_data srv)
  = serve session srv (messages_of sender_email [email_data]).
Proof.
  unfold SMTPService.try_send, messages_of, message_of, Dict.item, serve.
  cbn [flat_map]. rewrite app_nil_r.
  destruct (Dict.get email_data "to") as [to|]; [|reflexivity].
  destruct (Dict.get email_data "subject") as [subject|]; [|reflexivity].
  destruct (Dict.get email_data "body") as [body|]; [|reflexivity].
  unfold SMTPService.send_email. cbn [fold_left].
  destruct (session srv _) as [[|] srv']; reflexivity.
Qed.

Lemma serve_app (srv : server) (a b : list (string * string * string * string)) :
  serve session srv (a ++ b) = serve session (serve session srv a) b.
Proof. apply fold_left_app. Qed.

Lemma send_from_server (email_list : list Dict.t) (logs : list EmailLog.t)
      (srv : server) :
  Forall (fun d => Dict.get d "to" <> None) email_list ->
  snd (SMTPService.send_bulk_emails_from server session sender_email stamp
         logs email_list srv)
  = serve session srv (messages_of sender_email email_list).
Proof.
  revert logs srv. induction email_list as [|d rest IH]; intros logs srv Hall;
    [reflexivity|].
  inversion Hall as [|? ? Hd Hrest]; subst.
  replace (messages_of sender_email (d :: rest))
    with (messages_of sender_email [d] ++ messages_of sender_email rest)
    by (unfold messages_of; cbn [flat_map]; now rewrite app_nil_r).
  rewrite serve_app, <- try_send_server.
  cbn [SMTPService.send_bulk_emails_from].
  destruct (SMTPService.try_send server session sender_email stamp d srv)
    as [[entry|e] srv'] eqn:E; cbn [snd].
  - now apply IH.
  - unfold SMTPService.log_failure, Dict.item.
    destruct (Dict.get d "to") as [to|]; [|congruence]. now apply IH.
Qed.

End ServerTrace.

(** X11, [send_bulk_emails]: on a batch whose entries all name their
    recipient the mail server gets one session for each entry that also
    carries subject and body, in the order of the batch, with the entry's
    sender or else the service's own; an entry that lacks subject or body
    reaches no server.  A refused message does not stop the later
    sessions. *)
Theorem send_bulk_emails_sessions
        (server : Type)
        (session : server -> string * string * string * string -> bool * server)
        (sender_email : string) (stamp : string -> string)
        (email_list : list Dict.t) (srv : server) :
  Forall (fun d => Dict.get d "to" <> None) email_list ->
  snd (SMTPService.send_bulk_emails server session sender_email stamp email_list srv)
  = serve session srv (messages_of sender_email email_list).
Proof. apply send_from_server. Qed.

Lemma send_bulk_emails_sessions_witness :
  snd (SMTPService.send_bulk_emails (list string)
         (fun seen msg => (negb (fst (fst (fst msg)) =? "bad@school.example")%string,
                           (seen ++ [fst (fst (fst msg))])%list))
         "agent@sender.example" (fun to => to)
         [mail_to "bad@school.example"; [("to", "nobody@school.example")];
          mail_to "head@school.example"] [])
  = ["bad@school.example"; "head@school.example"].
Proof.
  rewrite send_bulk_emails_sessions.
  - reflexivity.
  - repeat constructor; discriminate.
Defined.

Section DispatchFacts.

Local Open Scope list_scope.

Variable server : Type.
Variable session : server -> string * string * string * string -> bool * server.
Variable sender_email : string.
Variable stamp : string -> string.
Variable generate_email_content :
  string -> string -> string -> result (option EmailContent.t).

(** The loop that stores the logs, on a store that answers. *)
Lemma store_logs_run (logs : list EmailLog.t) (m : Mongo.t)
      (cs : ContactService.t) (sch : Scheduler.t) :
  Mongo.server_down m = false ->
  for_each logs (fun log =>
    command (fun m => bind (Mongo.insert_log (LogDoc.of_log log) m)
                           (fun m' => Ok (m', tt))))
    (mkWorkflowService (Some m) cs sch)
  = (Ok tt, mkWorkflowService
              (Some (Mongo.set_email_logs
                       (Mongo.email_logs m ++ map LogDoc.of_log logs) m)) cs sch).
Proof.
  revert m. induction logs as [|l rest IH]; intros m Hd.
  - cbn [for_each map]. unfold ret. rewrite app_nil_r. now destruct m.
  - cbn [for_each map]. unfold mbind at 1. unfold command at 1.
    cbn [mongodb_client]. unfold Mongo.insert_log, Mongo.request, bind.
    rewrite Hd. cbv beta iota. unfold set_client.
    cbn [contact_service scheduler].
    rewrite IH by (now destruct m).
    destruct m as [lr sd cmp lg]. unfold Mongo.set_email_logs.
    cbn [Mongo.lookup_raises Mongo.server_down Mongo.campaigns Mongo.email_logs].
    now rewrite <- app_assoc.
Qed.

Lemma batch_entry_campaign (campaign : Campaign.t) (n ty : string)
      (contacts : list Contact.t) :
  Forall (fun d => Dict.get_default d "campaign_name" "" = n)
         (email_batches_of generate_email_content campaign n ty contacts).
Proof.
  unfold email_batches_of. induction contacts as [|c rest IH]; [constructor|].
  cbn [flat_map]. apply Forall_app. split; [|exact IH].
  unfold batch_entry.
  destruct (generate_email_content _ _ _) as [[content|]|];
    constructor; [reflexivity|constructor].
Qed.

(** What a dispatch comes to when the campaign is found. *)
Lemma send_campaign_emails_run (n ty : string) (a : option (list string))
      (srv : server) (s : WorkflowService) (m : Mongo.t) (c : Campaign.t)
      (contacts : list Contact.t) :
  mongodb_client s = Some m ->
  Mongo.lookup_raises m = false ->
  Mongo.server_down m = false ->
  find (Mongo.named n) (Mongo.campaigns m) = Some c ->
  resolve_contacts a (contact_service s) = Ok contacts ->
  let email_batches :=
    email_batches_of generate_email_content c n ty contacts in
  exists logs,
    Forall2 logged_for email_batches logs
    /\ Forall2 logged_answer (answers session sender_email srv email_batches) logs
    /\ _send_campaign_emails server session sender_email stamp
         generate_email_content n ty a srv s
       = (serve session srv (messages_of sender_email email_batches),
          set_client (Mongo.set_email_logs
                        (Mongo.email_logs m ++ map LogDoc.of_log logs) m) s).
Proof.
  intros Hm Hl Hd Hc Hres email_batches.
  destruct s as [cl cs sch]. cbn [mongodb_client contact_service] in *. subst cl.
  assert (Hsame : mkWorkflowService (Some m) cs sch
                  = set_client (Mongo.set_email_logs
                                  (Mongo.email_logs m ++ map LogDoc.of_log []) m)
                               (mkWorkflowService (Some m) cs sch)).
  { unfold set_client, Mongo.set_email_logs. cbn [map contact_service scheduler].
    rewrite app_nil_r. now destruct m. }
  unfold _send_campaign_emails.
  unfold mbind at 1. unfold get_collection at 1, query at 1, Mongo.get_collection,
    Mongo.find_one, Mongo.request.
  cbn [mongodb_client contact_service]. rewrite Hl, Hd, Hc.
  cbv beta iota. cbn [contact_service]. rewrite Hres.
  subst email_batches.
  destruct contacts as [|c0 rest].
  { exists []. split; [apply Forall2_nil|]. split; [apply Forall2_nil|].
    now rewrite <- Hsame. }
  destruct (email_batches_of generate_email_content c n ty (c0 :: rest))
    as [|b bs] eqn:Eb.
  { exists []. split; [apply Forall2_nil|]. split; [apply Forall2_nil|].
    now rewrite <- Hsame. }
  assert (Hall : Forall (fun d => Dict.get d "to" <> None) (b :: bs)).
  { rewrite <- Eb. apply email_batches_name_recipient. }
  destruct (send_bulk_emails_logs server session sender_email stamp (b :: bs) srv Hall)
    as (logs & srv' & Hrun & _ & Hlogs & Hanswers).
  pose proof (send_from_server server session sender_email stamp (b :: bs) [] srv Hall)
    as Hsrv.
  fold (SMTPService.send_bulk_emails server session sender_email stamp (b :: bs) srv)
    in Hsrv.
  rewrite Hrun in *. cbn [snd] in Hsrv. subst srv'.
  exists logs. split; [exact Hlogs|]. split; [exact Hanswers|]. f_equal.
  unfold mbind at 1. unfold get_collection at 1, Mongo.get_collection.
  cbn [mongodb_client]. rewrite Hl.
  now rewrite (store_logs_run logs m cs sch Hd).
Qed.

(** A dispatch that finds no campaign, or cannot read the campaigns. *)
Lemma send_campaign_emails_idle (n ty : string) (a : option (list string))
      (srv : server) (s : WorkflowService) :
  (registry_writable s = false
   \/ exists m, mongodb_client s = Some m
                /\ find (Mongo.named n) (Mongo.campaigns m) = None) ->
  _send_campaign_emails server session sender_email stamp
    generate_email_content n ty a srv s = (srv, s).
Proof.
  intros H. destruct s as [[m|] cs sch]; unfold _send_campaign_emails, mbind,
    get_collection, query, Mongo.get_collection, Mongo.find_one, Mongo.request;
    cbn [mongodb_client]; [|reflexivity].
  destruct (Mongo.lookup_raises m) eqn:Hl; [reflexivity|].
  destruct (Mongo.server_down m) eqn:Hd; [reflexivity|].
  destruct H as [H | (m' & Hm & Hf)].
  - unfold registry_writable in H. cbn [mongodb_client] in H.
    rewrite Hl, Hd in H. discriminate.
  - cbn [mongodb_client] in Hm. injection Hm as <-. now rewrite Hf.
Qed.

End DispatchFacts.

(** X12, [_send_campaign_emails]: a dispatch that cannot read the
    campaigns, finds no campaign of that name, or whose recipients cannot
    be resolved or come out empty, sends nothing and leaves the service as
    it was.  With a store that answers, the campaign found and an absent or
    empty list of segments, the recipients are those of
    [get_all_contacts()]; the mail server gets the sessions of the batch
    built for them, and the only change to the service is that one log per
    batch entry, saying what the server answered to it, is put after the
    email logs already stored: campaigns, contacts and jobs stay as they
    were. *)
Theorem dispatch_sends_and_logs
        (server : Type)
        (session : server -> string * string * string * string -> bool * server)
        (sender_email : string) (stamp : string -> string)
        (generate_email_content :
           string -> string -> string -> result (option EmailContent.t))
        (n ty : string) (a : option (list string))
        (srv : server) (s : WorkflowService) :
  let dispatch :=
    _send_campaign_emails server session sender_email stamp
      generate_email_content n ty a srv s in
  (registry_writable s = false -> dispatch = (srv, s))
  /\ (forall m,
        mongodb_client s = Some m ->
        find (Mongo.named n) (Mongo.campaigns m) = None ->
        dispatch = (srv, s))
  /\ (resolve_contacts a (contact_service s) = Ok []
      \/ (exists e, resolve_contacts a (contact_service s) = Raise e) ->
      dispatch = (srv, s))
  /\ (forall m c,
        mongodb_client s = Some m ->
        Mongo.lookup_raises m = false ->
        Mongo.server_down m = false ->
        find (Mongo.named n) (Mongo.campaigns m) = Some c ->
        a = None \/ a = Some [] ->
        let email_batches :=
          email_batches_of generate_email_content c n ty
            (ContactService.get_all_contacts (contact_service s) 100) in
        exists logs,
          Forall2 logged_for email_batches logs
          /\ Forall2 logged_answer
                     (answers session sender_email srv email_batches) logs
          /\ dispatch
             = (serve session srv (messages_of sender_email email_batches),
                mkWorkflowService
                  (Some (Mongo.mk false false (Mongo.campaigns m)
                           (Mongo.email_logs m ++ map LogDoc.of_log logs)%list))
                  (contact_service s) (scheduler s))).
Proof.
  intros dispatch. split; [|split; [|split]].
  - intros H. apply send_campaign_emails_idle. now left.
  - intros m Hm Hf. apply send_campaign_emails_idle. right. now exists m.
  - apply send_campaign_emails_unresolved.
  - intros m c Hm Hl Hd Hc Ha email_batches.
    assert (Hres : resolve_contacts a (contact_service s)
                   = Ok (ContactService.get_all_contacts (contact_service s) 100)).
    { destruct Ha as [-> | ->]; reflexivity. }
    destruct (send_campaign_emails_run server session sender_email stamp
                generate_email_content n ty a srv s m c _ Hm Hl Hd Hc Hres)
      as (logs & Hlogs & Hanswers & Hrun).
    exists logs. split; [exact Hlogs|]. split; [exact Hanswers|].
    subst dispatch. rewrite Hrun.
    unfold set_client, Mongo.set_email_logs. now rewrite Hl, Hd.
Qed.

Lemma dispatch_sends_and_logs_witness :
  let dispatch :=
    _send_campaign_emails nat (refusing "office@school.example")
      "agent@sender.example" (fun to => to) fixed_content
      "Launch" "invite" None 0%nat launch_with_contacts in
  fst dispatch = 2%nat
  /\ scheduler (snd dispatch) = scheduler launch_with_contacts
  /\ contact_service (snd dispatch) = two_contacts.
Proof.
  intros dispatch.
  destruct (dispatch_sends_and_logs nat (refusing "office@school.example")
              "agent@sender.example" (fun to => to) fixed_content
              "Launch" "invite" None 0%nat
              launch_with_contacts) as (_ & _ & _ & H).
  destruct (H (up_store [sample_campaign "Launch" sample_targets] [])
              (sample_campaign "Launch" sample_targets)
              eq_refl eq_refl eq_refl eq_refl (or_introl eq_refl))
    as (logs & _ & _ & Hrun).
  subst dispatch. rewrite Hrun. repeat split.
Defined.

Section DispatchCounts.

Local Open Scope list_scope.

Lemma count_where_cons {A : Type} (p : A -> bool) (x : A) (xs : list A) :
  count_where p (x :: xs) = (if p x then 1 else 0) + count_where p xs.
Proof.
  unfold count_where. cbn [filter]. destruct (p x); [|lia].
  cbn [length]. lia.
Qed.

Lemma count_where_app {A : Type} (p : A -> bool) (xs ys : list A) :
  count_where p (xs ++ ys) = count_where p xs + count_where p ys.
Proof.
  unfold count_where. rewrite filter_app, length_app. lia.
Qed.

(** The logs of a batch made for campaign [n], as the status counts them. *)
Lemma fresh_logs_counts (n : string) (batches : list Dict.t)
      (logs : list EmailLog.t) :
  Forall (fun d => Dict.get_default d "campaign_name" "" = n) batches ->
  Forall2 logged_for batches logs ->
  let docs := map LogDoc.of_log logs in
  filter (of_campaign n) docs = docs
  /\ count_where (has_status SENT) docs + count_where (has_status FAILED) docs
     = Z.of_nat (length batches)
  /\ count_where (has_status PENDING) docs = 0
  /\ count_where LogDoc.opened docs = 0
  /\ count_where LogDoc.clicked docs = 0.
Proof.
  intros Hn Hlogs. induction Hlogs as [|d l batches logs Hd Hrest IH].
  - cbn. repeat split; reflexivity.
  - inversion Hn as [|? ? Hdn Hn']; subst.
    destruct (IH Hn') as (Hf & Hc & Hp & Ho & Hk). clear IH.
    destruct Hd as (_ & Hname & _ & Hstatus).
    cbn zeta. cbn [map filter]. rewrite !count_where_cons.
    assert (Hof : of_campaign (Dict.get_default d "campaign_name" "")
                              (LogDoc.of_log l) = true).
    { unfold of_campaign. cbn [LogDoc.of_log LogDoc.log].
      rewrite Hname. apply String.eqb_refl. }
    rewrite Hof, Hf, Hp, Ho, Hk.
    unfold has_status at 1 3 5. cbn [LogDoc.of_log LogDoc.log LogDoc.opened
                                      LogDoc.clicked length].
    rewrite Nat2Z.inj_succ.
    repeat split; try reflexivity;
      destruct Hstatus as [(-> & _) | (-> & _)]; cbv [EmailStatus_eqb]; lia.
Qed.

(** The sent logs among them are those of the messages the server took. *)
Lemma fresh_logs_sent (given : list (option bool)) (logs : list EmailLog.t) :
  Forall2 logged_answer given logs ->
  count_where (has_status SENT) (map LogDoc.of_log logs)
  = count_where accepted given.
Proof.
  induction 1 as [|answer l given logs Hl Hrest IH]; [reflexivity|].
  cbn [map]. rewrite !count_where_cons, IH. f_equal.
  unfold has_status. cbn [LogDoc.of_log LogDoc.log].
  destruct answer as [[|]|]; cbn [logged_answer accepted] in *;
    destruct Hl as (-> & _); reflexivity.
Qed.

End DispatchCounts.

(** X13, [_send_campaign_emails] then [get_campaign_status]: with a store
    that answers, the emails of a dispatch for a stored campaign with an
    absent or empty list of segments show in that campaign's status: the
    sent count grows by the number of messages the mail server took, sent
    and failed together grow by the number of batch entries, while the
    pending, opened and clicked counts, the targets and the next scheduled
    action are as before. *)
Theorem dispatch_shows_in_status
        (server : Type)
        (session : server -> string * string * string * string -> bool * server)
        (sender_email : string) (stamp : string -> string)
        (generate_email_content :
           string -> string -> string -> result (option EmailContent.t))
        (n ty : string) (a : option (list string))
        (srv : server) (s : WorkflowService) (m : Mongo.t) (c : Campaign.t) :
  mongodb_client s = Some m ->
  Mongo.lookup_raises m = false ->
  Mongo.server_down m = false ->
  find (Mongo.named n) (Mongo.campaigns m) = Some c ->
  a = None \/ a = Some [] ->
  let email_batches :=
    email_batches_of generate_email_content c n ty
      (ContactService.get_all_contacts (contact_service s) 100) in
  let s' := snd (_send_campaign_emails server session sender_email stamp
                   generate_email_content n ty a srv s) in
  exists r r',
    get_campaign_status n s = (Ok (Some r), s)
    /\ get_campaign_status n s' = (Ok (Some r'), s')
    /\ CampaignStatusResponse.total_emails_sent r'
       = CampaignStatusResponse.total_emails_sent r
         + count_where accepted (answers session sender_email srv email_batches)
    /\ CampaignStatusResponse.total_emails_sent r'
       + CampaignStatusResponse.total_failed r'
       = CampaignStatusResponse.total_emails_sent r
         + CampaignStatusResponse.total_failed r
         + Z.of_nat (length email_batches)
    /\ CampaignStatusResponse.total_emails_pending r'
       = CampaignStatusResponse.total_emails_pending r
    /\ CampaignStatusResponse.opened_count r' = CampaignStatusResponse.opened_count r
    /\ CampaignStatusResponse.clicked_count r' = CampaignStatusResponse.clicked_count r
    /\ CampaignStatusResponse.targets r' = CampaignStatusResponse.targets r
    /\ CampaignStatusResponse.status r' = CampaignStatusResponse.status r
    /\ CampaignStatusResponse.next_scheduled_action r'
       = CampaignStatusResponse.next_scheduled_action r.
Proof.
  intros Hm Hl Hd Hc Ha email_batches s'.
  assert (Hres : resolve_contacts a (contact_service s)
                 = Ok (ContactService.get_all_contacts (contact_service s) 100)).
  { destruct Ha as [-> | ->]; reflexivity. }
  destruct (send_campaign_emails_run server session sender_email stamp
              generate_email_content n ty a srv s m c _ Hm Hl Hd Hc Hres)
    as (logs & Hlogs & Hanswers & Hrun).
  subst s'. rewrite Hrun. cbn [snd].
  set (m' := Mongo.set_email_logs _ m).
  pose proof (get_campaign_status_run n s m c Hm Hl Hd Hc) as Hr.
  assert (Hr' := get_campaign_status_run n (set_client m' s) m' c eq_refl Hl Hd Hc).
  cbv zeta in Hr, Hr'.
  eexists. eexists. split; [exact Hr|]. split; [exact Hr'|].
  cbn [CampaignStatusResponse.total_emails_sent CampaignStatusResponse.total_failed
       CampaignStatusResponse.total_emails_pending CampaignStatusResponse.opened_count
       CampaignStatusResponse.clicked_count CampaignStatusResponse.targets
       CampaignStatusResponse.status CampaignStatusResponse.next_scheduled_action].
  destruct (fresh_logs_counts n email_batches logs
              (batch_entry_campaign generate_email_content c n ty _) Hlogs)
    as (Hf & Hcount & Hp & Ho & Hk).
  pose proof (fresh_logs_sent _ _ Hanswers) as Hsent.
  subst m'. cbn [Mongo.set_email_logs Mongo.email_logs scheduler set_client].
  rewrite filter_app, Hf, !count_where_app, Hp, Ho, Hk.
  fold email_batches in Hsent. rewrite <- Hsent.
  repeat split; lia.
Qed.

Lemma dispatch_shows_in_status_witness :
  let s' := snd (_send_campaign_emails nat (refusing "office@school.example")
                   "agent@sender.example" (fun to => to) fixed_content
                   "Launch" "invite" None 0%nat launch_with_contacts) in
  exists r r',
    get_campaign_status "Launch" launch_with_contacts
    = (Ok (Some r), launch_with_contacts)
    /\ get_campaign_status "Launch" s' = (Ok (Some r'), s')
    /\ CampaignStatusResponse.total_emails_sent r'
       = CampaignStatusResponse.total_emails_sent r + 1.
Proof.
  intros s'.
  destruct (dispatch_shows_in_status nat (refusing "office@school.example")
              "agent@sender.example" (fun to => to) fixed_content
              "Launch" "invite" None 0%nat launch_with_contacts
              (up_store [sample_campaign "Launch" sample_targets] [])
              (sample_campaign "Launch" sample_targets)
              eq_refl eq_refl eq_refl eq_refl (or_introl eq_refl))
    as (r & r' & Hr & Hr' & Hsent & _).
  exists r, r'. split; [exact Hr|]. split; [exact Hr'|]. exact Hsent.
Defined.

Section EngagementFacts.

Local Open Scope list_scope.

Let email_of (d : ContactDoc.t) : string := Contact.email (ContactDoc.contact d).

(** [update_one] on the contacts: the first document with the address is
    rewritten, when there is one. *)
Lemma update_contact_spec (e : string) (f : ContactDoc.t -> ContactDoc.t)
      (ds : list ContactDoc.t) :
  (snd (update_contact e f ds) = true <-> In e (map email_of ds))
  /\ (snd (update_contact e f ds) = false -> fst (update_contact e f ds) = ds)
  /\ (snd (update_contact e f ds) = true ->
      exists pre d post,
        ds = pre ++ d :: post
        /\ fst (update_contact e f ds) = pre ++ f d :: post
        /\ email_of d = e
        /\ ~ In e (map email_of pre)).
Proof.
  induction ds as [|d rest (IHin & IHsame & IHsplit)].
  - cbn. split; [split; [discriminate | tauto]|]. split; [reflexivity | discriminate].
  - cbn [update_contact map]. fold (email_of d).
    destruct (email_of d =? e)%string eqn:E.
    + apply String.eqb_eq in E. cbn [fst snd]. split; [|split].
      * split; [intros _; now left | reflexivity].
      * discriminate.
      * intros _. exists [], d, rest. cbn. tauto.
    + apply String.eqb_neq in E.
      destruct (update_contact e f rest) as [rest' matched]. cbn [fst snd] in *.
      split; [|split].
      * rewrite IHin. cbn [In]. tauto.
      * intros H. now rewrite (IHsame H).
      * intros H. destruct (IHsplit H) as (pre & x & post & -> & -> & Hx & Hpre).
        exists (d :: pre), x, post. cbn [app map In]. tauto.
Qed.

Lemma find_email_split (e : string) (pre post : list ContactDoc.t)
      (d : ContactDoc.t) :
  email_of d = e ->
  ~ In e (map email_of pre) ->
  find (fun x => (Contact.email (ContactDoc.contact x) =? e)%string)
       (pre ++ d :: post) = Some d.
Proof.
  intros Hd. induction pre as [|x pre IH]; intros Hpre.
  - cbn [app find]. fold (email_of d). rewrite Hd, String.eqb_refl. reflexivity.
  - cbn [app find map In] in *. fold (email_of x).
    destruct (email_of x =? e)%string eqn:E.
    + apply String.eqb_eq in E. tauto.
    + apply IH. tauto.
Qed.

Lemma add_to_set_has (tag : string) (tags : list string) :
  existsb (fun x => (x =? tag)%string) (add_to_set tag tags) = true.
Proof.
  unfold add_to_set.
  destruct (existsb (fun x => (x =? tag)%string) tags) eqn:E; [exact E|].
  rewrite existsb_app. cbn. rewrite String.eqb_refl. now rewrite orb_true_r.
Qed.

Lemma add_to_set_nodup (tag : string) (tags : list string) :
  NoDup tags -> NoDup (add_to_set tag tags).
Proof.
  intros H. unfold add_to_set.
  destruct (existsb (fun x => (x =? tag)%string) tags) eqn:E; [exact H|].
  apply NoDup_app; [exact H | repeat constructor; intros [] |].
  intros x Hx [Heq|[]]. subst x.
  assert (Hex : existsb (fun y => (y =? tag)%string) tags = true).
  { apply existsb_exists. exists tag. split; [exact Hx | apply String.eqb_refl]. }
  congruence.
Qed.

End EngagementFacts.

Section EngagementRun.

(** What one call of [update_contact_engagement] comes to. *)
Lemma update_contact_engagement_run
        (lower : string -> string) (collection : option ContactStore.t)
        (email event_type : string) (now : datetime) :
  let outcome := update_contact_engagement lower collection email event_type now in
  (forall st, collection = Some st ->
              ContactStore.truth_test_raises st = true ->
              outcome = (Raise NotImplementedError, collection))
  /\ (forall e, fst outcome = Raise e ->
                exists st, collection = Some st
                           /\ ContactStore.truth_test_raises st = true)
  /\ (fst outcome = Ok true <->
      exists st tag,
        collection = Some st
        /\ ContactStore.truth_test_raises st = false
        /\ ContactStore.unreachable st = false
        /\ tag_mapping event_type = Some tag
        /\ In (lower email) (ContactStore.emails st))
  /\ (fst outcome = Ok false -> snd outcome = collection)
  /\ (fst outcome = Ok true ->
      exists st tag pre d post,
        collection = Some st
        /\ tag_mapping event_type = Some tag
        /\ ContactStore.docs st = (pre ++ d :: post)%list
        /\ Contact.email (ContactDoc.contact d) = lower email
        /\ ~ In (lower email)
                (map (fun x => Contact.email (ContactDoc.contact x)) pre)
        /\ snd outcome
           = Some (ContactStore.mk
                     (pre ++ engage event_type tag now d :: post)%list
                     false false)).
Proof.
  intros outcome. subst outcome. unfold update_contact_engagement,
    ContactStore.not_collection.
  destruct collection as [st|]; cbn [fst snd].
  2: { split; [intros st H; discriminate|]. split; [intros e H; discriminate|].
       split; [split; [discriminate | intros (st & tag & H & _); discriminate]|].
       split; [reflexivity | discriminate]. }
  destruct (ContactStore.truth_test_raises st) eqn:Et; cbn [fst snd].
  { split; [reflexivity|]. split; [intros e _; now exists st|].
    split; [split; [discriminate|]|].
    - intros (st0 & tag & H & Ht & _). injection H as <-. congruence.
    - split; discriminate. }
  split; [intros st0 H Ht; injection H as <-; congruence|].
  destruct (tag_mapping event_type) as [tag|] eqn:Etag; cbn [fst snd].
  2: { split; [intros e H; discriminate|].
       split; [split; [discriminate
                      | intros (st0 & tag & _ & _ & _ & H & _); discriminate]|].
       split; [reflexivity | discriminate]. }
  destruct (ContactStore.unreachable st) eqn:Eu; cbn [fst snd].
  { split; [intros e H; discriminate|]. split; [split; [discriminate|]|].
    - intros (st0 & tag0 & H & _ & Hu & _). injection H as <-. congruence.
    - split; [reflexivity | discriminate]. }
  destruct (update_contact_spec (lower email) (engage event_type tag now)
              (ContactStore.docs st)) as (Hin & Hsame & Hsplit).
  destruct (update_contact (lower email) (engage event_type tag now)
              (ContactStore.docs st)) as [ds matched]. cbn [fst snd] in *.
  split; [intros e H; discriminate|]. split; [|split].
  - split.
    + intros H. injection H as H. exists st, tag.
      repeat split; try assumption. now apply Hin.
    + intros (st0 & tag0 & H & _ & _ & _ & Hmem). injection H as <-.
      f_equal. now apply Hin.
  - intros H. injection H as H. rewrite (Hsame H). destruct st. cbn in *.
    now subst.
  - intros H. injection H as H.
    destruct (Hsplit H) as (pre & d & post & Hds & -> & Hd & Hpre).
    exists st, tag, pre, d, post. tauto.
Qed.

End EngagementRun.

(** X14, [update_contact_engagement]: on a pymongo collection the test
    [if not self.collection], which stands before the [try], raises
    [NotImplementedError], and nothing is updated; the call raises in no
    other case.  The answer is [True] exactly when the service has a
    collection whose handle tests true and which answers, the event is one
    of opened, clicked and replied, and a contact is stored under the
    lowered address.  A [False] leaves the collection as it was; a [True]
    has rewritten the first contact with that address, and no other. *)
Theorem engagement_update_answer
        (lower : string -> string) (collection : option ContactStore.t)
        (email event_type : string) (now : datetime) :
  let outcome := update_contact_engagement lower collection email event_type now in
  (forall st, collection = Some st ->
              ContactStore.truth_test_raises st = true ->
              outcome = (Raise NotImplementedError, collection))
  /\ (forall e, fst outcome = Raise e ->
                exists st, collection = Some st
                           /\ ContactStore.truth_test_raises st = true)
  /\ (fst outcome = Ok true <->
      exists st tag,
        collection = Some st
        /\ ContactStore.truth_test_raises st = false
        /\ ContactStore.unreachable st = false
        /\ tag_mapping event_type = Some tag
        /\ In (lower email) (ContactStore.emails st))
  /\ (fst outcome = Ok false -> snd outcome = collection)
  /\ (fst outcome = Ok true ->
      exists st tag pre d post,
        collection = Some st
        /\ tag_mapping event_type = Some tag
        /\ ContactStore.docs st = (pre ++ d :: post)%list
        /\ Contact.email (ContactDoc.contact d) = lower email
        /\ ~ In (lower email)
                (map (fun x => Contact.email (ContactDoc.contact x)) pre)
        /\ snd outcome
           = Some (ContactStore.mk
                     (pre ++ engage event_type tag now d :: post)%list
                     false false)).
Proof. apply update_contact_engagement_run. Qed.

Lemma engagement_update_answer_witness :
  fst (update_contact_engagement (fun x => x) (Some two_docs)
         "office@school.example" "clicked" 7) = Raise NotImplementedError
  /\ fst (update_contact_engagement (fun x => x) (Some two_docs_tested)
            "office@school.example" "clicked" 7) = Ok true
  /\ snd (update_contact_engagement (fun x => x) (Some two_docs_tested)
            "nobody@school.example" "clicked" 7) = Some two_docs_tested.
Proof.
  destruct (engagement_update_answer (fun x => x) (Some two_docs)
              "office@school.example" "clicked" 7) as (Hraise & _).
  destruct (engagement_update_answer (fun x => x) (Some two_docs_tested)
              "office@school.example" "clicked" 7) as (_ & _ & Hyes & _).
  destruct (engagement_update_answer (fun x => x) (Some two_docs_tested)
              "nobody@school.example" "clicked" 7) as (_ & _ & _ & Hno & _).
  split; [|split].
  - now rewrite (Hraise two_docs eq_refl eq_refl).
  - apply Hyes. exists two_docs_tested, "high-interest".
    repeat split. right. now left.
  - apply Hno. reflexivity.
Defined.

(** X15, [update_contact_engagement] then [get_contact_by_email] and
    [get_contacts_by_tag]: an update that answered [True], which it only
    does on a collection whose handle tests true, leaves under the address
    the contact found before with the event recorded, and
    [get_contacts_by_tag] returns it among the contacts carrying the
    event's tag.  The addresses stored are the same, and a tag list without
    repetition stays without repetition: the tag is added once however
    often the event comes, while each event is counted. *)
Theorem engaged_contact_is_tagged
        (lower : string -> string) (collection after : option ContactStore.t)
        (email event_type : string) (now : datetime) :
  update_contact_engagement lower collection email event_type now
  = (Ok true, after) ->
  exists d tag st st',
    collection = Some st /\ after = Some st'
    /\ ContactStore.truth_test_raises st = false
    /\ tag_mapping event_type = Some tag
    /\ get_contact_by_email lower collection email = Some d
    /\ get_contact_by_email lower after email
       = Some (engage event_type tag now d)
    /\ (exists tagged,
          ContactService.get_contacts_by_tag
            (ContactService.mk (Some (ContactStore.view st'))) tag = Ok tagged
          /\ In (ContactDoc.contact (engage event_type tag now d)) tagged)
    /\ ContactStore.emails st' = ContactStore.emails st
    /\ (NoDup (Contact.tags (ContactDoc.contact d)) ->
        NoDup (Contact.tags (ContactDoc.contact (engage event_type tag now d))))
    /\ Engagement.opened (ContactDoc.engagement (engage event_type tag now d))
       + Engagement.clicked (ContactDoc.engagement (engage event_type tag now d))
       + Engagement.replied (ContactDoc.engagement (engage event_type tag now d))
       = Engagement.opened (ContactDoc.engagement d)
         + Engagement.clicked (ContactDoc.engagement d)
         + Engagement.replied (ContactDoc.engagement d) + 1.
Proof.
  intros Hrun.
  destruct (update_contact_engagement_run lower collection email event_type now)
    as (_ & _ & Hyes & _ & Hsplit).
  rewrite Hrun in Hsplit, Hyes. cbn [fst snd] in Hsplit, Hyes.
  destruct (Hsplit eq_refl)
    as (st & tag & pre & d & post & -> & Htag & Hds & Hd & Hpre & ->).
  destruct (proj1 Hyes eq_refl) as (st0 & tag0 & Hst0 & Ht & Hu & _).
  injection Hst0 as <-.
  exists d, tag, st,
    (ContactStore.mk (pre ++ engage event_type tag now d :: post)%list false false).
  split; [reflexivity|]. split; [reflexivity|]. split; [exact Ht|].
  split; [exact Htag|].
  unfold get_contact_by_email. rewrite Hu, Hds.
  cbn [ContactStore.unreachable ContactStore.docs].
  split; [now apply find_email_split|].
  split; [now apply find_email_split|].
  split.
  { unfold ContactService.get_contacts_by_tag, ContactService.not_collection,
      ContactStore.view.
    cbn [ContactService.collection ContactService.unreachable ContactService.docs
         ContactService.truth_test_raises bind
         ContactStore.docs ContactStore.unreachable ContactStore.truth_test_raises].
    eexists. split; [reflexivity|].
    apply filter_In. split.
    - apply in_map. apply in_or_app. right. now left.
    - unfold ContactService.has_tag. cbn [engage ContactDoc.contact Contact.tags].
      apply add_to_set_has. }
  split.
  { unfold ContactStore.emails. rewrite Hds.
    cbn [ContactStore.docs]. rewrite !map_app. reflexivity. }
  split.
  { cbn [engage ContactDoc.contact Contact.tags]. apply add_to_set_nodup. }
  cbn [engage ContactDoc.engagement record_event Engagement.opened
       Engagement.clicked Engagement.replied].
  unfold tag_mapping in Htag.
  destruct (event_type =? "opened")%string eqn:E1.
  { apply String.eqb_eq in E1. subst. cbn. lia. }
  destruct (event_type =? "clicked")%string eqn:E2.
  { apply String.eqb_eq in E2. subst. cbn. lia. }
  destruct (event_type =? "replied")%string eqn:E3; [lia | discriminate].
Qed.

Lemma engaged_contact_is_tagged_witness :
  exists d,
    get_contact_by_email (fun x => x)
      (snd (update_contact_engagement (fun x => x) (Some two_docs_tested)
              "office@school.example" "clicked" 7))
      "office@school.example" = Some d
    /\ Contact.tags (ContactDoc.contact d) = ["engaged"; "high-interest"].
Proof.
  destruct (engaged_contact_is_tagged (fun x => x) (Some two_docs_tested)
              (snd (update_contact_engagement (fun x => x) (Some two_docs_tested)
                      "office@school.example" "clicked" 7))
              "office@school.example" "clicked" 7 eq_refl)
    as (d & tag & st & st' & Hst & _ & _ & Htag & Hbefore & Hafter & _).
  exists (engage "clicked" tag 7 d). split; [exact Hafter|].
  injection Htag as <-. injection Hbefore as <-. reflexivity.
Defined.

Section TagCountFacts.

Local Open Scope list_scope.

Lemma count_of_bump (tag t : string) (counts : list (string * Z)) :
  count_of (bump tag counts) t
  = if (t =? tag)%string
    then Some (match count_of counts t with Some k => k + 1 | None => 1 end)
    else count_of counts t.
Proof.
  induction counts as [|[x k] rest IH].
  - cbn [bump count_of]. rewrite (String.eqb_sym tag t).
    now destruct (t =? tag)%string.
  - cbn [bump count_of]. destruct (x =? tag)%string eqn:Ex.
    + apply String.eqb_eq in Ex. subst x. cbn [count_of].
      rewrite (String.eqb_sym tag t). now destruct (t =? tag)%string.
    + cbn [count_of]. destruct (x =? t)%string eqn:Et.
      * apply String.eqb_eq in Et. subst x.
        now rewrite Ex.
      * exact IH.
Qed.

Lemma count_of_group (tags : list string) (counts : list (string * Z)) (t : string) :
  count_of (fold_left (fun counts tag => bump tag counts) tags counts) t
  = match count_of counts t with
    | Some c => Some (c + Z.of_nat (count_occ string_dec tags t))
    | None => match count_occ string_dec tags t with
              | O => None
              | S k => Some (Z.of_nat (S k))
              end
    end.
Proof.
  revert counts. induction tags as [|tag rest IH]; intros counts.
  - cbn [fold_left count_occ]. destruct (count_of counts t); [f_equal; cbn; lia | reflexivity].
  - cbn [fold_left count_occ]. rewrite IH, count_of_bump.
    destruct (string_dec tag t) as [->|Hne].
    + rewrite String.eqb_refl.
      destruct (count_of counts t) as [c|]; f_equal; lia.
    + assert (E : (t =? tag)%string = false)
        by (apply String.eqb_neq; congruence).
      now rewrite E.
Qed.

Lemma count_of_snoc (counts : list (string * Z)) (tag t : string) (k : Z) :
  count_of (counts ++ [(tag, k)]) t
  = match count_of counts t with
    | Some c => Some c
    | None => if (tag =? t)%string then Some k else None
    end.
Proof.
  induction counts as [|[x c] rest IH]; [reflexivity|].
  cbn [app count_of]. now destruct (x =? t)%string.
Qed.

Lemma count_of_with_expected (counts : list (string * Z)) (t : string) :
  count_of (with_expected counts) t
  = match count_of counts t with
    | Some c => Some c
    | None => if mem t expected_tags then Some 0 else None
    end.
Proof.
  unfold with_expected, expected_tags, mem.
  set (step := fun acc tag =>
                 match count_of acc tag with
                 | Some _ => acc
                 | None => acc ++ [(tag, 0)]
                 end).
  cbn [fold_left existsb].
  assert (Hstep : forall acc tag,
             count_of (step acc tag) t
             = match count_of acc t with
               | Some c => Some c
               | None => if (tag =? t)%string then Some 0 else None
               end).
  { intros acc tag. unfold step.
    destruct (count_of acc tag) as [c|] eqn:E.
    - destruct (count_of acc t) as [c'|] eqn:E'; [reflexivity|].
      destruct (tag =? t)%string eqn:Et; [|reflexivity].
      apply String.eqb_eq in Et. congruence.
    - apply count_of_snoc. }
  rewrite !Hstep.
  destruct (count_of counts t); [reflexivity|].
  destruct ("engaged" =? t)%string; [reflexivity|].
  destruct ("high-interest" =? t)%string; [reflexivity|].
  destruct ("priority" =? t)%string; reflexivity.
Qed.

Lemma count_occ_nodup (l : list string) (t : string) :
  NoDup l ->
  count_occ string_dec l t
  = if existsb (fun x => (x =? t)%string) l then 1%nat else 0%nat.
Proof.
  induction 1 as [|x l Hx Hl IH]; [reflexivity|].
  cbn [count_occ existsb]. destruct (string_dec x t) as [->|Hne].
  - rewrite String.eqb_refl. cbn [orb].
    now rewrite (proj1 (count_occ_not_In string_dec l t) Hx).
  - assert (E : (x =? t)%string = false) by now apply String.eqb_neq.
    now rewrite E.
Qed.

Lemma tagged_count (ds : list ContactDoc.t) (t : string) :
  (forall d, In d ds -> NoDup (Contact.tags (ContactDoc.contact d))) ->
  count_occ string_dec (unwind_tags ds) t
  = length (filter (ContactService.has_tag t) (map ContactDoc.contact ds)).
Proof.
  unfold unwind_tags. induction ds as [|d rest IH]; intros Hnd; [reflexivity|].
  cbn [flat_map map filter]. rewrite count_occ_app, IH
    by (intros x Hx; apply Hnd; now right).
  rewrite count_occ_nodup by (apply Hnd; now left).
  unfold ContactService.has_tag at 2.
  now destruct (existsb _ (Contact.tags (ContactDoc.contact d))).
Qed.

End TagCountFacts.

(** X16, [get_contact_counts_by_tag]: on a pymongo collection the test
    [if not self.collection], which stands before the [try], raises
    [NotImplementedError].  Whenever the method returns, the answer has a
    count for engaged, high-interest and priority, which is zero when the
    service has no collection or the collection cannot be reached.  With a
    collection whose handle tests true and which answers, the count of a tag
    is the number of times it stands in the contacts' tag lists, a tag
    outside the three expected ones being listed only when it occurs; when
    no contact carries a tag twice this is the number of contacts
    [get_contacts_by_tag] returns for it. *)
Theorem tag_counts_match_tagged_contacts (collection : option ContactStore.t) :
  (forall st, collection = Some st ->
              ContactStore.truth_test_raises st = true ->
              get_contact_counts_by_tag collection = Raise NotImplementedError)
  /\ (forall counts tag,
        get_contact_counts_by_tag collection = Ok counts ->
        In tag expected_tags ->
        exists k, count_of counts tag = Some k /\ 0 <= k)
  /\ ((collection = None
       \/ exists st, collection = Some st
                     /\ ContactStore.truth_test_raises st = false
                     /\ ContactStore.unreachable st = true) ->
      get_contact_counts_by_tag collection
      = Ok [("engaged", 0); ("high-interest", 0); ("priority", 0)])
  /\ (forall st tag,
        collection = Some st ->
        ContactStore.truth_test_raises st = false ->
        ContactStore.unreachable st = false ->
        let k := count_occ string_dec (unwind_tags (ContactStore.docs st)) tag in
        (exists counts,
           get_contact_counts_by_tag collection = Ok counts
           /\ count_of counts tag
              = (if (0 <? k)%nat || mem tag expected_tags
                 then Some (Z.of_nat k) else None))
        /\ ((forall d, In d (ContactStore.docs st) ->
                       NoDup (Contact.tags (ContactDoc.contact d))) ->
            exists tagged,
              ContactService.get_contacts_by_tag
                (ContactService.mk (Some (ContactStore.view st))) tag = Ok tagged
              /\ k = length tagged)).
Proof.
  assert (Hzero : forall tag, In tag expected_tags ->
            count_of (map (fun tag => (tag, 0)) expected_tags) tag = Some 0).
  { intros tag [<-|[<-|[<-|[]]]]; reflexivity. }
  assert (Hup : forall st tag,
            count_of (with_expected (group_tags (ContactStore.docs st))) tag
            = (if (0 <? count_occ string_dec (unwind_tags (ContactStore.docs st)) tag)%nat
                  || mem tag expected_tags
               then Some (Z.of_nat (count_occ string_dec
                                      (unwind_tags (ContactStore.docs st)) tag))
               else None)).
  { intros st tag.
    rewrite count_of_with_expected. unfold group_tags. rewrite count_of_group.
    cbn [count_of].
    destruct (count_occ string_dec (unwind_tags (ContactStore.docs st)) tag);
      [|reflexivity].
    cbn [Nat.ltb Nat.leb orb]. now destruct (mem tag expected_tags). }
  unfold get_contact_counts_by_tag, ContactStore.not_collection.
  split; [|split; [|split]].
  - intros st -> Ht. now rewrite Ht.
  - intros counts tag Hrun Htag. destruct collection as [st|].
    + destruct (ContactStore.truth_test_raises st); [discriminate|].
      cbn [bind] in Hrun.
      destruct (ContactStore.unreachable st).
      * injection Hrun as <-. exists 0. split; [now apply Hzero | lia].
      * injection Hrun as <-. rewrite Hup.
        assert (Hmem : mem tag expected_tags = true).
        { destruct Htag as [<-|[<-|[<-|[]]]]; reflexivity. }
        rewrite Hmem, orb_true_r. eexists. split; [reflexivity | lia].
    + injection Hrun as <-. exists 0. split; [now apply Hzero | lia].
  - intros [-> | (st & -> & Ht & Hu)]; [reflexivity|].
    now rewrite Ht, Hu.
  - intros st tag -> Ht Hu. rewrite Ht, Hu. cbn [bind]. split.
    + eexists. split; [reflexivity | apply Hup].
    + intros Hnd. rewrite (tagged_count _ tag Hnd).
      unfold ContactService.get_contacts_by_tag, ContactService.not_collection,
        ContactStore.view.
      cbn [ContactService.collection ContactService.unreachable ContactService.docs
           ContactService.truth_test_raises].
      rewrite Ht, Hu. cbn [bind]. eexists. split; reflexivity.
Qed.

Lemma tag_counts_match_tagged_contacts_witness :
  get_contact_counts_by_tag (Some two_docs) = Raise NotImplementedError
  /\ (exists counts,
        get_contact_counts_by_tag (Some two_docs_tested) = Ok counts
        /\ count_of counts "engaged" = Some 2
        /\ count_of counts "high-interest" = Some 0)
  /\ get_contact_counts_by_tag None
     = Ok [("engaged", 0); ("high-interest", 0); ("priority", 0)].
Proof.
  destruct (tag_counts_match_tagged_contacts (Some two_docs)) as (Hraise & _).
  destruct (tag_counts_match_tagged_contacts (Some two_docs_tested))
    as (_ & _ & _ & Hup).
  destruct (tag_counts_match_tagged_contacts None) as (_ & _ & Hnone & _).
  split; [|split].
  - exact (Hraise two_docs eq_refl eq_refl).
  - destruct (Hup two_docs_tested "engaged" eq_refl eq_refl eq_refl)
      as ((counts & Hrun & Hc) & _).
    exists counts. split; [exact Hrun|]. split; [exact Hc|].
    injection Hrun as <-. reflexivity.
  - apply Hnone. now left.
Defined.

Section ColumnFacts.

Variable lower : string -> string.
Variable strip : string -> string.

Lemma mem_In (x : string) (l : list string) : mem x l = true <-> In x l.
Proof.
  unfold mem. rewrite existsb_exists. split.
  - intros (y & Hy & E). apply String.eqb_eq in E. now subst.
  - intros H. exists x. split; [exact H | apply String.eqb_refl].
Qed.

(** No header is an alias of two fields. *)
Lemma aliases_disjoint (x : string) :
  (mem x name_columns = true ->
   mem x email_columns = false /\ mem x role_columns = false
   /\ mem x location_columns = false)
  /\ (mem x email_columns = true ->
      mem x role_columns = false /\ mem x location_columns = false)
  /\ (mem x role_columns = true -> mem x location_columns = false).
Proof.
  split; [|split]; intros H; apply mem_In in H; cbn in H;
    repeat (destruct H as [<-|H]; [repeat split; reflexivity|]); destruct H.
Qed.

Let first_alias (aliases : list string) (field : option string) (col : string)
  : option string :=
  match field with
  | Some c => Some c
  | None => if mem (strip (lower col)) aliases then Some col else None
  end.

Lemma map_column_fields (m : ColumnMapping.t) (col : string) :
  ColumnMapping.name (map_column lower strip m col)
  = first_alias name_columns (ColumnMapping.name m) col
  /\ ColumnMapping.email (map_column lower strip m col)
     = first_alias email_columns (ColumnMapping.email m) col
  /\ ColumnMapping.role (map_column lower strip m col)
     = first_alias role_columns (ColumnMapping.role m) col
  /\ ColumnMapping.location (map_column lower strip m col)
     = first_alias location_columns (ColumnMapping.location m) col.
Proof.
  unfold map_column, first_alias.
  destruct (aliases_disjoint (strip (lower col))) as (Hn & He & Hr).
  destruct (mem (strip (lower col)) name_columns).
  - destruct (Hn eq_refl) as (-> & -> & ->).
    destruct m as [[a|] [b|] [c|] [d|]]; cbn; repeat split.
  - destruct (mem (strip (lower col)) email_columns).
    + destruct (He eq_refl) as (-> & ->).
      destruct m as [[a|] [b|] [c|] [d|]]; cbn; repeat split.
    + destruct (mem (strip (lower col)) role_columns).
      * rewrite (Hr eq_refl).
        destruct m as [[a|] [b|] [c|] [d|]]; cbn; repeat split.
      * destruct (mem (strip (lower col)) location_columns);
          destruct m as [[a|] [b|] [c|] [d|]]; cbn; repeat split.
Qed.

Lemma fold_first_alias (aliases : list string) (field : ColumnMapping.t -> option string)
      (cols : list string) (m : ColumnMapping.t) :
  (forall m col, field (map_column lower strip m col)
                 = first_alias aliases (field m) col) ->
  field (fold_left (map_column lower strip) cols m)
  = match field m with
    | Some c => Some c
    | None => find (fun col => mem (strip (lower col)) aliases) cols
    end.
Proof.
  intros Hstep. revert m. induction cols as [|col rest IH]; intros m.
  - cbn [fold_left find]. now destruct (field m).
  - cbn [fold_left find]. rewrite IH, Hstep. unfold first_alias.
    destruct (field m); [reflexivity|].
    now destruct (mem (strip (lower col)) aliases).
Qed.

End ColumnFacts.

(** X17, [_map_csv_columns]: each of the four fields is mapped to the first
    column of the frame whose header, lowered and stripped, is one of the
    field's aliases, and is left out when there is no such column; a later
    column with an alias of the same field is ignored. *)
Theorem csv_columns_first_alias
        (lower strip : string -> string) (df : DataFrame.t) :
  let first_of aliases :=
    find (fun col => mem (strip (lower col)) aliases) (DataFrame.columns df) in
  let column_mapping := _map_csv_columns lower strip df in
  ColumnMapping.name column_mapping = first_of name_columns
  /\ ColumnMapping.email column_mapping = first_of email_columns
  /\ ColumnMapping.role column_mapping = first_of role_columns
  /\ ColumnMapping.location column_mapping = first_of location_columns.
Proof.
  intros first_of column_mapping. subst first_of column_mapping.
  unfold _map_csv_columns.
  repeat split.
  - apply (fold_first_alias lower strip name_columns ColumnMapping.name).
    intros m col. apply map_column_fields.
  - apply (fold_first_alias lower strip email_columns ColumnMapping.email).
    intros m col. apply map_column_fields.
  - apply (fold_first_alias lower strip role_columns ColumnMapping.role).
    intros m col. apply map_column_fields.
  - apply (fold_first_alias lower strip location_columns ColumnMapping.location).
    intros m col. apply map_column_fields.
Qed.

Section IngestFacts.

Local Open Scope list_scope.

Variable lower : string -> string.
Variable strip : string -> string.
Variable validate_email : string -> option string.

Let one_row := ingest_row lower strip validate_email.
Let all_rows := ingest_rows lower strip validate_email.

Lemma ingest_row_added (email_col name_col : string)
      (role_col location_col : option string) (now : datetime)
      (st : ContactStore.t) (row : string -> cell) (d : ContactDoc.t) :
  one_row email_col name_col role_col location_col now st row = Added d ->
  ContactStore.unreachable st = false
  /\ ~ In (Contact.email (ContactDoc.contact d)) (ContactStore.emails st)
  /\ fresh now d.
Proof.
  unfold one_row, ingest_row.
  destruct (_normalize_email lower strip validate_email (row email_col)) as [e|];
    [|discriminate].
  destruct (negb (truthy e) || negb (truthy (strip (cell_str (row name_col)))));
    [discriminate|].
  destruct (ContactStore.unreachable st); [discriminate|].
  destruct (mem e (ContactStore.emails st)) eqn:Emem; [discriminate|].
  intros H. injection H as <-. cbn. split; [reflexivity|]. split.
  - intros Hin. apply mem_In in Hin. congruence.
  - repeat split.
Qed.

Lemma ingest_rows_invariant (email_col name_col : string)
      (role_col location_col : option string) (now : datetime)
      (rows : list (string -> cell)) (index : nat)
      (result : IngestionResult.t) (st : ContactStore.t) :
  let out := all_rows email_col name_col role_col location_col now
               index rows (result, st) in
  IngestionResult.total_processed (fst out) = IngestionResult.total_processed result
  /\ accounted (fst out) = accounted result + Z.of_nat (length rows)
  /\ ContactStore.unreachable (snd out) = ContactStore.unreachable st
  /\ (exists new,
        ContactStore.docs (snd out) = ContactStore.docs st ++ new
        /\ Z.of_nat (length new)
           = IngestionResult.contacts_added (fst out)
             - IngestionResult.contacts_added result
        /\ Forall (fresh now) new)
  /\ (NoDup (ContactStore.emails st) -> NoDup (ContactStore.emails (snd out))).
Proof.
  revert index result st. induction rows as [|row rest IH]; intros index result st.
  - cbn [ingest_rows fst snd length]. unfold all_rows.
    cbn [ingest_rows fst snd].
    split; [reflexivity|]. split; [cbn; lia|]. split; [reflexivity|].
    split; [|tauto].
    exists []. rewrite app_nil_r. split; [reflexivity|].
    split; [cbn [length]; lia | constructor].
  - cbn zeta. unfold all_rows. cbn [ingest_rows].
    fold all_rows. fold one_row.
    destruct (one_row email_col name_col role_col location_col now st row)
      as [d| | |e] eqn:Erow.
    + destruct (ingest_row_added _ _ _ _ _ _ _ _ Erow) as (Hu & Hnew & Hfresh).
      match goal with
      | |- context [all_rows _ _ _ _ _ _ _ (?r, ?s)] =>
          destruct (IH (S index) r s) as (Ht & Ha & Hun & (new & Hdocs & Hlen & Hall) & Hnd)
      end.
      cbn [IngestionResult.total_processed IngestionResult.contacts_added
           ContactStore.docs ContactStore.unreachable] in *.
      split; [exact Ht|]. split.
      { rewrite Ha. unfold accounted. cbn [IngestionResult.contacts_added
          IngestionResult.duplicates_skipped IngestionResult.invalid_emails
          IngestionResult.errors length]. lia. }
      split; [exact Hun|]. split.
      { exists (d :: new). rewrite Hdocs, <- app_assoc. split; [reflexivity|].
        split; [cbn [length]; lia | now constructor]. }
      intros Hst. apply Hnd. unfold ContactStore.emails. cbn [ContactStore.docs].
      rewrite map_app. apply NoDup_app; [exact Hst | repeat constructor; intros [] |].
      intros x Hx [Heq|[]]. subst x. exact (Hnew Hx).
    + match goal with
      | |- context [all_rows _ _ _ _ _ _ _ (?r, ?s)] =>
          destruct (IH (S index) r s) as (Ht & Ha & Hun & Hdocs & Hnd)
      end.
      cbn [IngestionResult.total_processed IngestionResult.contacts_added] in *.
      split; [exact Ht|]. split.
      { rewrite Ha. unfold accounted. cbn [IngestionResult.contacts_added
          IngestionResult.duplicates_skipped IngestionResult.invalid_emails
          IngestionResult.errors length]. lia. }
      split; [exact Hun|]. split; [exact Hdocs | exact Hnd].
    + match goal with
      | |- context [all_rows _ _ _ _ _ _ _ (?r, ?s)] =>
          destruct (IH (S index) r s) as (Ht & Ha & Hun & Hdocs & Hnd)
      end.
      cbn [IngestionResult.total_processed IngestionResult.contacts_added] in *.
      split; [exact Ht|]. split.
      { rewrite Ha. unfold accounted. cbn [IngestionResult.contacts_added
          IngestionResult.duplicates_skipped IngestionResult.invalid_emails
          IngestionResult.errors length]. lia. }
      split; [exact Hun|]. split; [exact Hdocs | exact Hnd].
    + match goal with
      | |- context [all_rows _ _ _ _ _ _ _ (?r, ?s)] =>
          destruct (IH (S index) r s) as (Ht & Ha & Hun & Hdocs & Hnd)
      end.
      cbn [IngestionResult.total_processed IngestionResult.contacts_added] in *.
      split; [exact Ht|]. split.
      { rewrite Ha. unfold accounted. cbn [IngestionResult.contacts_added
          IngestionResult.duplicates_skipped IngestionResult.invalid_emails
          IngestionResult.errors]. rewrite length_app. cbn [length]. lia. }
      split; [exact Hun|]. split; [exact Hdocs | exact Hnd].
Qed.

Lemma ingest_rows_nonneg (email_col name_col : string)
      (role_col location_col : option string) (now : datetime)
      (rows : list (string -> cell)) (index : nat)
      (result : IngestionResult.t) (st : ContactStore.t) :
  let out := all_rows email_col name_col role_col location_col now
               index rows (result, st) in
  IngestionResult.contacts_added result <= IngestionResult.contacts_added (fst out)
  /\ IngestionResult.duplicates_skipped result
     <= IngestionResult.duplicates_skipped (fst out)
  /\ IngestionResult.invalid_emails result
     <= IngestionResult.invalid_emails (fst out)
  /\ (ContactStore.unreachable st = true ->
      ContactStore.docs (snd out) = ContactStore.docs st).
Proof.
  revert index result st. induction rows as [|row rest IH]; intros index result st.
  - unfold all_rows. cbn [ingest_rows fst snd].
    repeat split; try lia.
  - cbn zeta. unfold all_rows. cbn [ingest_rows].
    fold all_rows. fold one_row.
    destruct (one_row email_col name_col role_col location_col now st row)
      as [d| | |e] eqn:Erow;
      match goal with
      | |- context [all_rows _ _ _ _ _ _ _ (?r, ?s)] =>
          destruct (IH (S index) r s) as (Ha & Hdup & Hi & Hdocs)
      end;
      cbn [IngestionResult.contacts_added IngestionResult.duplicates_skipped
           IngestionResult.invalid_emails ContactStore.unreachable] in *;
      repeat split; try lia; try exact Hdocs.
    intros Hu. destruct (ingest_row_added _ _ _ _ _ _ _ _ Erow) as (Hup & _).
    congruence.
Qed.

Lemma ingest_rows_handle (email_col name_col : string)
      (role_col location_col : option string) (now : datetime)
      (rows : list (string -> cell)) (index : nat)
      (result : IngestionResult.t) (st : ContactStore.t) :
  ContactStore.truth_test_raises
    (snd (all_rows email_col name_col role_col location_col now
            index rows (result, st)))
  = ContactStore.truth_test_raises st.
Proof.
  revert index result st. induction rows as [|row rest IH]; intros index result st;
    [reflexivity|].
  unfold all_rows. cbn [ingest_rows]. fold all_rows. fold one_row.
  destruct (one_row email_col name_col role_col location_col now st row);
    now rewrite IH.
Qed.

End IngestFacts.

(** X18, [ingest_csv]: without a collection nothing is read and every
    counter is zero; on a pymongo collection the test
    [if not self.collection], which stands before the [try], raises
    [NotImplementedError] before the file is read.  On a collection whose
    handle tests true: a file that cannot be read gives its error as the
    one message and no count; for a frame that was read,
    [total_processed] is its number of rows; when the email or the name
    column is missing no row is looked at and the one message is
    "No email column found in CSV" or "No name column found in CSV";
    otherwise every row is counted exactly once, as added, as duplicate, as
    invalid or by an error message. *)
Theorem ingest_accounts_for_every_row
        (lower strip : string -> string) (validate_email : string -> option string)
        (collection : option ContactStore.t) (frame : result DataFrame.t)
        (now : datetime) :
  let out := ingest_csv lower strip validate_email collection frame now in
  (collection = None -> out = (Ok IngestionResult.zero, None))
  /\ (forall st,
        collection = Some st -> ContactStore.truth_test_raises st = true ->
        out = (Raise NotImplementedError, collection))
  /\ (forall st e,
        collection = Some st -> ContactStore.truth_test_raises st = false ->
        frame = Raise e ->
        out = (Ok (IngestionResult.mk 0 0 0 0 [str e]), collection))
  /\ (forall st df,
        collection = Some st -> ContactStore.truth_test_raises st = false ->
        frame = Ok df ->
        let column_mapping := _map_csv_columns lower strip df in
        let total := Z.of_nat (length (DataFrame.rows df)) in
        (ColumnMapping.email column_mapping = None ->
         out = (Ok (IngestionResult.mk total 0 0 0
                      ["No email column found in CSV"]), collection))
        /\ (ColumnMapping.email column_mapping <> None ->
            ColumnMapping.name column_mapping = None ->
            out = (Ok (IngestionResult.mk total 0 0 0
                         ["No name column found in CSV"]), collection))
        /\ (ColumnMapping.email column_mapping <> None ->
            ColumnMapping.name column_mapping <> None ->
            exists result,
              fst out = Ok result
              /\ IngestionResult.total_processed result = total
              /\ accounted result = total
              /\ 0 <= IngestionResult.contacts_added result
              /\ 0 <= IngestionResult.duplicates_skipped result
              /\ 0 <= IngestionResult.invalid_emails result)).
Proof.
  intros out. subst out. unfold ingest_csv, ContactStore.not_collection.
  split; [|split; [|split]].
  - intros ->. reflexivity.
  - intros st -> Ht. now rewrite Ht.
  - intros st e -> Ht ->. now rewrite Ht.
  - intros st df -> Ht ->. rewrite Ht.
    destruct (ColumnMapping.email (_map_csv_columns lower strip df)) as [ec|].
    2: { split; [reflexivity|]. split; congruence. }
    destruct (ColumnMapping.name (_map_csv_columns lower strip df)) as [nc|].
    2: { split; [discriminate|]. split; [reflexivity | congruence]. }
    split; [discriminate|]. split; [discriminate|]. intros _ _.
    pose proof (ingest_rows_invariant lower strip validate_email ec nc
                  (ColumnMapping.role (_map_csv_columns lower strip df))
                  (ColumnMapping.location (_map_csv_columns lower strip df)) now
                  (DataFrame.rows df) 0%nat
                  (IngestionResult.mk (Z.of_nat (length (DataFrame.rows df))) 0 0 0 [])
                  st) as H.
    cbv zeta in H.
    pose proof (ingest_rows_nonneg lower strip validate_email ec nc
                  (ColumnMapping.role (_map_csv_columns lower strip df))
                  (ColumnMapping.location (_map_csv_columns lower strip df)) now
                  (DataFrame.rows df) 0%nat
                  (IngestionResult.mk (Z.of_nat (length (DataFrame.rows df))) 0 0 0 [])
                  st) as Hpos.
    cbv zeta in Hpos.
    destruct (ingest_rows lower strip validate_email ec nc _ _ now 0 _ _)
      as [result st'].
    cbn [fst snd] in *.
    destruct H as (Ht' & Ha & _).
    cbn [IngestionResult.total_processed IngestionResult.contacts_added
         IngestionResult.duplicates_skipped IngestionResult.invalid_emails] in *.
    exists result. split; [reflexivity|]. split; [exact Ht'|].
    destruct Hpos as (Hp1 & Hp2 & Hp3 & _).
    split; [|repeat split; lia].
    rewrite Ha. unfold accounted. cbn. lia.
Qed.

Lemma ingest_accounts_for_every_row_witness :
  fst (ingest_csv sample_lower (fun x => x) sample_validate
         (Some two_docs) (Ok sample_frame) 9)
  = Raise NotImplementedError
  /\ fst (ingest_csv sample_lower (fun x => x) sample_validate
            (Some two_docs_tested) (Ok sample_frame) 9)
     = Ok (IngestionResult.mk 4 1 1 2 []).
Proof.
  destruct (ingest_accounts_for_every_row sample_lower (fun x => x) sample_validate
              (Some two_docs) (Ok sample_frame) 9) as (_ & Hraise & _).
  destruct (ingest_accounts_for_every_row sample_lower (fun x => x) sample_validate
              (Some two_docs_tested) (Ok sample_frame) 9) as (_ & _ & _ & H).
  split.
  - now rewrite (Hraise two_docs eq_refl eq_refl).
  - destruct (H two_docs_tested sample_frame eq_refl eq_refl eq_refl)
      as (_ & _ & Hall).
    destruct Hall as (result & Hrun & _); [discriminate | discriminate |].
    rewrite Hrun. injection Hrun as <-. reflexivity.
Defined.

(** X19, [ingest_csv]: ingestion only adds, and adds nothing when it
    raises.  The contacts stored before are kept as they were and in their
    order; when the call returns, as many documents are added after them as
    [contacts_added] says, each without tag and without engagement;
    nothing is added on a pymongo collection, where the call raises, nor on
    a collection that cannot be reached; addresses that were distinct stay
    distinct, and [get_contacts_by_tag] gives for every tag what it gave
    before. *)
Theorem ingest_keeps_stored_contacts
        (lower strip : string -> string) (validate_email : string -> option string)
        (st : ContactStore.t) (frame : result DataFrame.t) (now : datetime) :
  let out := ingest_csv lower strip validate_email (Some st) frame now in
  exists st' new,
    snd out = Some st'
    /\ ContactStore.docs st' = (ContactStore.docs st ++ new)%list
    /\ (forall result, fst out = Ok result ->
          Z.of_nat (length new) = IngestionResult.contacts_added result)
    /\ Forall (fresh now) new
    /\ (NoDup (ContactStore.emails st) -> NoDup (ContactStore.emails st'))
    /\ (ContactStore.truth_test_raises st = true
        \/ ContactStore.unreachable st = true -> new = [])
    /\ forall tag,
         ContactService.get_contacts_by_tag
           (ContactService.mk (Some (ContactStore.view st'))) tag
         = ContactService.get_contacts_by_tag
             (ContactService.mk (Some (ContactStore.view st))) tag.
Proof.
  intros out. subst out.
  assert (Hidle : forall r,
            (forall result, r = Ok result ->
                            IngestionResult.contacts_added result = 0) ->
            exists st' new,
              Some st = Some st'
              /\ ContactStore.docs st' = (ContactStore.docs st ++ new)%list
              /\ (forall result, r = Ok result ->
                    Z.of_nat (length new) = IngestionResult.contacts_added result)
              /\ Forall (fresh now) new
              /\ (NoDup (ContactStore.emails st) -> NoDup (ContactStore.emails st'))
              /\ (ContactStore.truth_test_raises st = true
                  \/ ContactStore.unreachable st = true -> new = [])
              /\ forall tag,
                   ContactService.get_contacts_by_tag
                     (ContactService.mk (Some (ContactStore.view st'))) tag
                   = ContactService.get_contacts_by_tag
                       (ContactService.mk (Some (ContactStore.view st))) tag).
  { intros r Hr. exists st, []. rewrite app_nil_r. repeat split; auto.
    intros result H. now rewrite (Hr result H). }
  unfold ingest_csv, ContactStore.not_collection.
  destruct (ContactStore.truth_test_raises st) eqn:Ht.
  { apply (Hidle (Raise NotImplementedError)). intros result H. discriminate. }
  destruct frame as [df|e].
  2: { apply (Hidle (Ok (IngestionResult.mk 0 0 0 0 [str e]))).
       intros result H. injection H as <-. reflexivity. }
  destruct (ColumnMapping.email (_map_csv_columns lower strip df)) as [ec|].
  2: { apply (Hidle (Ok (IngestionResult.mk _ 0 0 0 _))).
       intros result H. injection H as <-. reflexivity. }
  destruct (ColumnMapping.name (_map_csv_columns lower strip df)) as [nc|].
  2: { apply (Hidle (Ok (IngestionResult.mk _ 0 0 0 _))).
       intros result H. injection H as <-. reflexivity. }
  clear Hidle.
  pose proof (ingest_rows_invariant lower strip validate_email ec nc
                (ColumnMapping.role (_map_csv_columns lower strip df))
                (ColumnMapping.location (_map_csv_columns lower strip df)) now
                (DataFrame.rows df) 0%nat
                (IngestionResult.mk (Z.of_nat (length (DataFrame.rows df))) 0 0 0 [])
                st) as H.
  cbv zeta in H.
  pose proof (ingest_rows_nonneg lower strip validate_email ec nc
                (ColumnMapping.role (_map_csv_columns lower strip df))
                (ColumnMapping.location (_map_csv_columns lower strip df)) now
                (DataFrame.rows df) 0%nat
                (IngestionResult.mk (Z.of_nat (length (DataFrame.rows df))) 0 0 0 [])
                st) as Hpos.
  cbv zeta in Hpos.
  pose proof (ingest_rows_handle lower strip validate_email ec nc
                (ColumnMapping.role (_map_csv_columns lower strip df))
                (ColumnMapping.location (_map_csv_columns lower strip df)) now
                (DataFrame.rows df) 0%nat
                (IngestionResult.mk (Z.of_nat (length (DataFrame.rows df))) 0 0 0 [])
                st) as Hhandle.
  destruct (ingest_rows lower strip validate_email ec nc _ _ now 0 _ _)
    as [result st'].
  cbn [fst snd] in *.
  destruct H as (_ & _ & Hun & (new & Hdocs & Hlen & Hfresh) & Hnd).
  destruct Hpos as (_ & _ & _ & Hdown).
  cbn [IngestionResult.contacts_added] in Hlen.
  exists st', new. split; [reflexivity|]. split; [exact Hdocs|].
  split; [intros r Hr; injection Hr as <-; lia|].
  split; [exact Hfresh|]. split; [exact Hnd|]. split.
  - intros [Hraises | Hu]; [congruence|]. rewrite (Hdown Hu) in Hdocs.
    apply (f_equal (@length ContactDoc.t)) in Hdocs. rewrite length_app in Hdocs.
    destruct new; [reflexivity | cbn [length] in Hdocs; lia].
  - intros tag. unfold ContactService.get_contacts_by_tag,
      ContactService.not_collection, ContactStore.view.
    cbn [ContactService.collection ContactService.unreachable ContactService.docs
         ContactService.truth_test_raises].
    rewrite Hun, Hhandle, Ht, Hdocs, map_app, filter_app. cbn [bind].
    replace (filter (ContactService.has_tag tag) (map ContactDoc.contact new))
      with (@nil Contact.t); [now rewrite app_nil_r|].
    clear Hdocs Hlen. induction Hfresh as [|d rest (Htags & _) _ IH]; [reflexivity|].
    cbn [map filter]. unfold ContactService.has_tag at 1. now rewrite Htags.
Qed.

Lemma ingest_keeps_stored_contacts_witness :
  ContactStore.emails
    (match snd (ingest_csv sample_lower (fun x => x) sample_validate
                  (Some two_docs_tested) (Ok sample_frame) 9) with
     | Some st' => st'
     | None => two_docs_tested
     end)
  = ["head@school.example"; "office@school.example"; "dean@school.example"].
Proof.
  destruct (ingest_keeps_stored_contacts sample_lower (fun x => x) sample_validate
              two_docs_tested (Ok sample_frame) 9) as (st' & new & Hout & _).
  rewrite Hout. injection Hout as <-. reflexivity.
Defined.

Section WorkflowListFacts.

Local Open Scope list_scope.

Lemma get_all_campaigns_run (s : WorkflowService) :
  get_all_campaigns s
  = (Ok (match mongodb_client s with
         | Some m => if registry_writable s then Mongo.campaigns m else []
         | None => []
         end), s).
Proof.
  destruct s as [[m|] cs sch];
    unfold get_all_campaigns, try_except, mbind, get_collection, query,
      Mongo.get_collection, Mongo.request, registry_writable, ret;
    cbn [mongodb_client]; [|reflexivity].
  destruct (Mongo.lookup_raises m); [reflexivity|].
  now destruct (Mongo.server_down m).
Qed.

Lemma find_named_in (c : Campaign.t) (cs : list Campaign.t) :
  In c cs -> exists c', find (Mongo.named (Campaign.name c)) cs = Some c'.
Proof.
  induction cs as [|x rest IH]; [intros []|].
  intros Hin. cbn [find].
  destruct (Mongo.named (Campaign.name c) x) eqn:E; [now exists x|].
  destruct Hin as [->|Hin]; [|now apply IH].
  unfold Mongo.named in E. now rewrite String.eqb_refl in E.
Qed.

Lemma collect_workflows_run (s : WorkflowService) (m : Mongo.t)
      (cs : list Campaign.t) :
  mongodb_client s = Some m ->
  Mongo.lookup_raises m = false ->
  Mongo.server_down m = false ->
  (forall c, In c cs -> In c (Mongo.campaigns m)) ->
  collect_workflows cs s
  = (Ok (map (fun c => (Campaign.name c, Campaign.status c,
                        earliest_run (Campaign.name c ++ "_")
                                     (Scheduler.jobs (scheduler s)))) cs), s).
Proof.
  intros Hm Hl Hd. induction cs as [|c rest IH]; intros Hsub; [reflexivity|].
  cbn [collect_workflows map].
  destruct (find_named_in c (Mongo.campaigns m) (Hsub c (or_introl eq_refl)))
    as (c' & Hfind).
  unfold mbind at 1.
  rewrite (get_campaign_status_run (Campaign.name c) s m c' Hm Hl Hd Hfind).
  unfold mbind at 1. rewrite IH by (intros x Hx; apply Hsub; now right).
  reflexivity.
Qed.

End WorkflowListFacts.

(** X20, [get_workflows]: with a campaigns collection that answers, the
    list has one entry per stored campaign, in the order of the store, with
    the campaign's stored status and, as next run, the earliest time among
    the pending jobs whose id starts with the campaign's name and an
    underscore.  When the campaigns cannot be read the list is empty.  The
    service is left as it was. *)
Theorem workflows_list_stored_campaigns (s : WorkflowService) :
  (registry_writable s = false -> get_workflows s = (Ok [], s))
  /\ (forall m,
        mongodb_client s = Some m ->
        Mongo.lookup_raises m = false ->
        Mongo.server_down m = false ->
        get_workflows s
        = (Ok (map (fun c => (Campaign.name c, Campaign.status c,
                              earliest_run (Campaign.name c ++ "_")
                                           (Scheduler.jobs (scheduler s))))
                   (Mongo.campaigns m)), s)).
Proof.
  unfold get_workflows, mbind. rewrite get_all_campaigns_run. split.
  - intros H. rewrite H. now destruct (mongodb_client s).
  - intros m Hm Hl Hd. rewrite Hm, (writable_of_flags s m Hm Hl Hd).
    now apply (collect_workflows_run s m).
Qed.

Lemma workflows_list_stored_campaigns_witness :
  get_workflows launch_service
  = (Ok [("Launch", SCHEDULED, Some 60)], launch_service)
  /\ get_workflows service_with_store_down = (Ok [], service_with_store_down).
Proof.
  destruct (workflows_list_stored_campaigns launch_service) as (_ & Hup).
  destruct (workflows_list_stored_campaigns service_with_store_down) as (Hdown & _).
  split.
  - rewrite (Hup _ eq_refl eq_refl eq_refl). reflexivity.
  - apply Hdown. reflexivity.
Defined.

Section RegistryNames.

Local Open Scope list_scope.

Lemma find_named_none (n : string) (cs : list Campaign.t) :
  find (Mongo.named n) cs = None -> ~ In n (map Campaign.name cs).
Proof.
  induction cs as [|c rest IH]; [intros _ []|].
  cbn [find map In]. destruct (Mongo.named n c) eqn:E; [discriminate|].
  intros H [Hn|Hin]; [|now apply IH].
  unfold Mongo.named in E. rewrite Hn, String.eqb_refl in E. discriminate.
Qed.

(** An upsert under the document's own name keeps the names and their
    order, and puts a new name last. *)
Lemma upserted_names (n : string) (doc : Campaign.t) (cs : list Campaign.t) :
  Campaign.name doc = n ->
  map Campaign.name (upserted n doc cs)
  = match find (Mongo.named n) cs with
    | Some _ => map Campaign.name cs
    | None => map Campaign.name cs ++ [n]
    end.
Proof.
  intros Hdoc. unfold upserted.
  induction cs as [|c rest IH]; cbn [Mongo.update_first find app map].
  - now rewrite Hdoc.
  - destruct (Mongo.named n c) eqn:E.
    + cbn [map]. unfold Mongo.named in E. apply String.eqb_eq in E. congruence.
    + destruct (Mongo.update_first n (fun _ => doc) rest) as [[rest' matched] modified].
      destruct (find (Mongo.named n) rest); destruct matched;
        cbn [map app] in *; now rewrite IH.
Qed.

End RegistryNames.

(** X21, [schedule_campaign] then [get_dashboard_metrics]: with a store
    that answers, scheduling under a name that has a record replaces that
    record, and under a new name adds one record after the others: the
    dashboard's number of campaigns grows by one for a new name and not at
    all for a known one, so names that were distinct stay distinct.  The
    email figures of the dashboard are as before. *)
Theorem schedule_keeps_one_record_per_name
        (n : string) (p : WorkflowPlan.t) (t : CampaignTargets.t)
        (a : option (list string)) (now : datetime)
        (s : WorkflowService) (m : Mongo.t) :
  mongodb_client s = Some m ->
  Mongo.lookup_raises m = false ->
  Mongo.server_down m = false ->
  let s' := snd (schedule_campaign n p t a now s) in
  exists m' d d',
    mongodb_client s' = Some m'
    /\ map Campaign.name (Mongo.campaigns m')
       = (match find (Mongo.named n) (Mongo.campaigns m) with
          | Some _ => map Campaign.name (Mongo.campaigns m)
          | None => map Campaign.name (Mongo.campaigns m) ++ [n]
          end)%list
    /\ (NoDup (map Campaign.name (Mongo.campaigns m)) ->
        NoDup (map Campaign.name (Mongo.campaigns m')))
    /\ get_dashboard_metrics s = (Ok d, s)
    /\ get_dashboard_metrics s' = (Ok d', s')
    /\ DashboardMetrics.total_campaigns d'
       = DashboardMetrics.total_campaigns d
         + (match find (Mongo.named n) (Mongo.campaigns m) with
            | Some _ => 0
            | None => 1
            end)
    /\ DashboardMetrics.total_emails_sent d' = DashboardMetrics.total_emails_sent d
    /\ DashboardMetrics.total_emails_pending d'
       = DashboardMetrics.total_emails_pending d
    /\ DashboardMetrics.average_open_rate d' = DashboardMetrics.average_open_rate d
    /\ DashboardMetrics.average_click_rate d' = DashboardMetrics.average_click_rate d.
Proof.
  intros Hm Hl Hd s'. subst s'. rewrite schedule_campaign_run. cbv zeta.
  rewrite (save_campaign_run _ s m Hm Hl Hd). cbn [Campaign.name snd].
  fold (scheduled_record n p t now).
  set (m' := Mongo.set_campaigns
               (upserted n (scheduled_record n p t now) (Mongo.campaigns m)) m).
  pose proof (upserted_names n (scheduled_record n p t now) (Mongo.campaigns m)
                eq_refl) as Hnames.
  exists m'. eexists. eexists.
  split; [reflexivity|]. split; [exact Hnames|]. split.
  { intros Hnd. subst m'. cbn [Mongo.campaigns Mongo.set_campaigns].
    rewrite Hnames.
    destruct (find (Mongo.named n) (Mongo.campaigns m)) eqn:E; [exact Hnd|].
    apply NoDup_app; [exact Hnd | repeat constructor; intros [] |].
    intros x Hx [Heq|[]]. subst x. exact (find_named_none n _ E Hx). }
  split; [exact (get_dashboard_metrics_run s m Hm Hl Hd)|].
  split.
  { apply (get_dashboard_metrics_run _ m'); [reflexivity | exact Hl | exact Hd]. }
  cbn [DashboardMetrics.total_campaigns DashboardMetrics.total_emails_sent
       DashboardMetrics.total_emails_pending DashboardMetrics.average_open_rate
       DashboardMetrics.average_click_rate].
  split; [|repeat split].
  apply (f_equal (@length string)) in Hnames. rewrite length_map in Hnames.
  subst m'. cbn [Mongo.campaigns Mongo.set_campaigns]. rewrite Hnames.
  destruct (find (Mongo.named n) (Mongo.campaigns m)).
  - rewrite length_map. lia.
  - rewrite length_app, length_map. cbn [length]. lia.
Qed.

Lemma schedule_keeps_one_record_per_name_witness :
  exists d d',
    get_dashboard_metrics (snd (schedule_campaign "Launch" (invite_only 70)
                                  sample_targets None 5 launch_service))
    = (Ok d, snd (schedule_campaign "Launch" (invite_only 70)
                    sample_targets None 5 launch_service))
    /\ get_dashboard_metrics (snd (schedule_campaign "Autumn" (invite_only 70)
                                     sample_targets None 5 launch_service))
       = (Ok d', snd (schedule_campaign "Autumn" (invite_only 70)
                        sample_targets None 5 launch_service))
    /\ DashboardMetrics.total_campaigns d = 1
    /\ DashboardMetrics.total_campaigns d' = 2.
Proof.
  destruct (schedule_keeps_one_record_per_name "Launch" (invite_only 70)
              sample_targets None 5 launch_service
              (up_store [sample_campaign "Launch" sample_targets] [])
              eq_refl eq_refl eq_refl)
    as (m1 & d0 & d & _ & _ & _ & H0 & Hd & Htotal & _).
  destruct (schedule_keeps_one_record_per_name "Autumn" (invite_only 70)
              sample_targets None 5 launch_service
              (up_store [sample_campaign "Launch" sample_targets] [])
              eq_refl eq_refl eq_refl)
    as (m2 & d0' & d' & _ & _ & _ & H0' & Hd' & Htotal' & _).
  exists d, d'. split; [exact Hd|]. split; [exact Hd'|].
  rewrite Htotal, Htotal'.
  injection H0 as <-. injection H0' as <-. split; reflexivity.
Defined.

Section PausedStatus.

(** Once every job of the prefix is paused, none has a next run time. *)
Lemma earliest_run_paused (pfx : string) (jobs : list Job.t) :
  earliest_run pfx
    (map (fun j => if prefix pfx (Job.id j) then Job.pause j else j) jobs) = None.
Proof.
  pose proof (earliest_run_spec pfx
                (map (fun j => if prefix pfx (Job.id j) then Job.pause j else j) jobs))
    as H.
  destruct (earliest_run pfx _) as [t|]; [|reflexivity].
  destruct H as [(j' & Hin & Hp & Ht) _].
  apply in_map_iff in Hin. destruct Hin as (j & <- & _).
  destruct (prefix pfx (Job.id j)) eqn:E.
  - cbn [Job.pause Job.next_run_time] in Ht. discriminate.
  - congruence.
Qed.

End PausedStatus.

(** X22, [pause_campaign] then [get_campaign_status]: with a store that
    answers, after a pause of a known campaign that answered [True] the
    status of the campaign is [paused] and it has no next scheduled action,
    whatever jobs it has; the counts of its emails are not touched by the
    pause. *)
Theorem paused_campaign_has_no_next_action
        (n : string) (now : datetime) (s : WorkflowService)
        (m : Mongo.t) (c : Campaign.t) :
  mongodb_client s = Some m ->
  Mongo.lookup_raises m = false ->
  Mongo.server_down m = false ->
  NoDup (job_ids (Scheduler.jobs (scheduler s))) ->
  find (Mongo.named n) (Mongo.campaigns m) = Some c ->
  fst (pause_campaign n now s) = Ok true ->
  let s' := snd (pause_campaign n now s) in
  exists r r',
    get_campaign_status n s = (Ok (Some r), s)
    /\ get_campaign_status n s' = (Ok (Some r'), s')
    /\ CampaignStatusResponse.status r' = PAUSED
    /\ CampaignStatusResponse.next_scheduled_action r' = None
    /\ CampaignStatusResponse.targets r' = CampaignStatusResponse.targets r
    /\ CampaignStatusResponse.total_emails_sent r'
       = CampaignStatusResponse.total_emails_sent r
    /\ CampaignStatusResponse.progress_percentage r'
       = CampaignStatusResponse.progress_percentage r.
Proof.
  intros Hm Hl Hd Hnd Hc Hok s'. subst s'.
  pose proof (pause_campaign_state n now s m Hm Hl Hd Hnd) as Hrun.
  cbv zeta in Hrun. rewrite Hrun in *. cbn [fst snd] in *.
  injection Hok as Hsw.
  destruct (sweep_complete (Scheduler.raises (scheduler s)) (n ++ "_") Job.pause
              (Scheduler.jobs (scheduler s))) as [_ Hmap].
  rewrite (Hmap Hsw).
  set (m' := Mongo.set_campaigns _ m).
  set (s' := set_scheduler _ _).
  assert (Hfind : find (Mongo.named n) (Mongo.campaigns m')
                  = Some (Campaign.set_status PAUSED now c)).
  { subst m'. cbn [Mongo.campaigns Mongo.set_campaigns].
    destruct (updated_find n (Campaign.set_status PAUSED now) (Mongo.campaigns m)
                (fun c => eq_refl)) as [H _].
    now rewrite H, Hc. }
  pose proof (get_campaign_status_run n s m c Hm Hl Hd Hc) as Hr.
  pose proof (get_campaign_status_run n s' m' (Campaign.set_status PAUSED now c)
                eq_refl Hl Hd Hfind) as Hr'.
  cbv zeta in Hr, Hr'.
  eexists. eexists. split; [exact Hr|]. split; [exact Hr'|].
  cbn [CampaignStatusResponse.status CampaignStatusResponse.next_scheduled_action
       CampaignStatusResponse.targets CampaignStatusResponse.total_emails_sent
       CampaignStatusResponse.progress_percentage].
  split; [reflexivity|]. split; [|repeat split].
  subst s'. cbn [scheduler set_scheduler Scheduler.jobs].
  apply earliest_run_paused.
Qed.

Lemma paused_campaign_has_no_next_action_witness :
  exists r r',
    get_campaign_status "Launch" launch_service = (Ok (Some r), launch_service)
    /\ CampaignStatusResponse.next_scheduled_action r = Some 60
    /\ get_campaign_status "Launch" (snd (pause_campaign "Launch" 10 launch_service))
       = (Ok (Some r'), snd (pause_campaign "Launch" 10 launch_service))
    /\ CampaignStatusResponse.next_scheduled_action r' = None.
Proof.
  destruct (paused_campaign_has_no_next_action "Launch" 10 launch_service
              (up_store [sample_campaign "Launch" sample_targets] [])
              (sample_campaign "Launch" sample_targets)
              eq_refl eq_refl eq_refl)
    as (r & r' & Hr & Hr' & _ & Hnone & _).
  - repeat constructor; cbn; intuition discriminate.
  - reflexivity.
  - reflexivity.
  - exists r, r'. split; [exact Hr|]. split; [|split; [exact Hr' | exact Hnone]].
    injection Hr as <-. reflexivity.
Defined.

(** X23, [schedule_campaign] then [get_campaign_status]: with a store that
    answers, after a scheduling that answered [True] the status of the
    campaign has a next scheduled action as soon as the plan sets one stage,
    and that action is not later than any date of the plan. *)
Theorem scheduled_campaign_reports_next_action
        (n : string) (p : WorkflowPlan.t) (t : CampaignTargets.t)
        (a : option (list string)) (now : datetime)
        (s : WorkflowService) (m : Mongo.t) :
  mongodb_client s = Some m ->
  Mongo.lookup_raises m = false ->
  Mongo.server_down m = false ->
  fst (schedule_campaign n p t a now s) = Ok true ->
  let s' := snd (schedule_campaign n p t a now s) in
  exists r,
    get_campaign_status n s' = (Ok (Some r), s')
    /\ CampaignStatusResponse.status r = SCHEDULED
    /\ forall stage d,
         In (stage, Some d) (stages_of p) ->
         exists next,
           CampaignStatusResponse.next_scheduled_action r = Some next
           /\ next <= d.
Proof.
  intros Hm Hl Hd Hok s'. subst s'.
  assert (Hblocked : fst (run_stages n a (stages_of p) (scheduler s)) = true).
  { rewrite run_stages_flag. rewrite schedule_campaign_answer in Hok. congruence. }
  clear Hok.
  rewrite schedule_campaign_run. cbv zeta.
  rewrite (save_campaign_run _ s m Hm Hl Hd). cbn [Campaign.name snd].
  fold (scheduled_record n p t now).
  set (m' := Mongo.set_campaigns _ m).
  set (s' := set_scheduler _ _).
  destruct (upserted_find n (scheduled_record n p t now) (Mongo.campaigns m))
    as [Hfind _]; [apply String.eqb_refl|].
  pose proof (get_campaign_status_run n s' m' (scheduled_record n p t now)
                eq_refl Hl Hd Hfind) as Hr.
  cbv zeta in Hr.
  eexists. split; [exact Hr|].
  cbn [CampaignStatusResponse.status CampaignStatusResponse.next_scheduled_action].
  split; [reflexivity|].
  intros stage d Hin.
  destruct (run_stages_some n a (stages_of p) (scheduler s) stage d
              (stages_of_nodup p) Hblocked Hin) as [Hlookup _].
  apply find_some in Hlookup. destruct Hlookup as [Hjob _].
  subst s'. cbn [scheduler set_scheduler].
  assert (Hp : prefix (n ++ "_") (Job.id (stage_job n a stage d)) = true).
  { cbn [stage_job Job.id]. unfold job_id.
    rewrite <- append_assoc. apply prefix_app. }
  pose proof (earliest_run_spec (n ++ "_")
                (Scheduler.jobs (snd (run_stages n a (stages_of p) (scheduler s)))))
    as Hspec.
  destruct (earliest_run (n ++ "_") _) as [next|].
  - exists next. split; [reflexivity|].
    destruct Hspec as [_ Hmin]. exact (Hmin _ d Hjob Hp eq_refl).
  - specialize (Hspec _ Hjob Hp). discriminate.
Qed.

Lemma scheduled_campaign_reports_next_action_witness :
  exists r,
    get_campaign_status "Autumn"
      (snd (schedule_campaign "Autumn" (WorkflowPlan.mk (Some 90) (Some 70) None None)
              sample_targets None 5 launch_service))
    = (Ok (Some r),
       snd (schedule_campaign "Autumn" (WorkflowPlan.mk (Some 90) (Some 70) None None)
              sample_targets None 5 launch_service))
    /\ CampaignStatusResponse.next_scheduled_action r = Some 70.
Proof.
  destruct (scheduled_campaign_reports_next_action "Autumn"
              (WorkflowPlan.mk (Some 90) (Some 70) None None)
              sample_targets None 5 launch_service
              (up_store [sample_campaign "Launch" sample_targets] [])
              eq_refl eq_refl eq_refl eq_refl) as (r & Hr & _ & _).
  exists r. split; [exact Hr|]. injection Hr as <-. reflexivity.
Defined.

(** ** The methods on a store that answers *)

(** X25, [get_campaign_status] with a store that answers, the lookup by
    name included: on a known campaign it returns a response and raises nothing;
    [open_rate] is [opened_count / sent_count], and [0] when no log is sent;
    [progress_percentage] is [sent_count / target * 100] when the target is
    positive and [0] when the target is zero or negative; a campaign without
    any log gets [open_rate = 0] and [progress_percentage = 0]. *)
Theorem campaign_status_rates_are_guarded
        (n : string) (s : WorkflowService) (m : Mongo.t) (c : Campaign.t) :
  mongodb_client s = Some m ->
  Mongo.lookup_raises m = false ->
  Mongo.server_down m = false ->
  find (Mongo.named n) (Mongo.campaigns m) = Some c ->
  let logs := filter (of_campaign n) (Mongo.email_logs m) in
  let sent := count_where (has_status SENT) logs in
  let opened := count_where LogDoc.opened logs in
  let target := CampaignTargets.total_emails_sent (Campaign.targets c) in
  exists r,
    get_campaign_status n s = (Ok (Some r), s)
    /\ CampaignStatusResponse.open_rate r
       = (if sent >? 0 then Qred (inject_Z opened / inject_Z sent) else 0%Q)
    /\ CampaignStatusResponse.progress_percentage r
       = (if target >? 0
          then Qred (Qred (inject_Z sent / inject_Z target) * 100)
          else 0%Q)
    /\ (logs = [] ->
        CampaignStatusResponse.open_rate r = 0%Q
        /\ CampaignStatusResponse.progress_percentage r = 0%Q).
Proof.
  intros Hm Hl Hd Hc logs sent opened target.
  eexists. split; [exact (get_campaign_status_run n s m c Hm Hl Hd Hc)|].
  cbn [CampaignStatusResponse.open_rate CampaignStatusResponse.progress_percentage].
  fold logs. fold sent. fold target.
  split; [reflexivity|]. split; [reflexivity|].
  intros Hnil. unfold sent. rewrite Hnil, count_where_nil. split; [reflexivity|].
  destruct (target >? 0); [|reflexivity].
  now rewrite Qred_zero_over.
Qed.

Lemma campaign_status_rates_are_guarded_witness :
  exists r,
    get_campaign_status "Launch"
      (service_on (up_store [sample_campaign "Launch" sample_targets] []) [])
    = (Ok (Some r),
       service_on (up_store [sample_campaign "Launch" sample_targets] []) [])
    /\ CampaignStatusResponse.open_rate r = 0%Q
    /\ CampaignStatusResponse.progress_percentage r = 0%Q.
Proof.
  destruct (campaign_status_rates_are_guarded "Launch"
              (service_on (up_store [sample_campaign "Launch" sample_targets] []) [])
              (up_store [sample_campaign "Launch" sample_targets] [])
              (sample_campaign "Launch" sample_targets)
              eq_refl eq_refl eq_refl eq_refl)
    as (r & Hrun & _ & _ & Hzero).
  exists r. split; [exact Hrun | exact (Hzero eq_refl)].
Defined.

(** The guard is [> 0]: one sent log against a goal of [-5] gives
    [progress_percentage = 0], not [1 / (-5) * 100]. *)
Lemma progress_is_zero_for_negative_target :
  let s := service_on (up_store [sample_campaign "Launch" negative_targets]
                                [sent_log "Launch" false]) [] in
  exists r,
    get_campaign_status "Launch" s = (Ok (Some r), s)
    /\ CampaignStatusResponse.total_emails_sent r = 1
    /\ CampaignTargets.total_emails_sent (CampaignStatusResponse.targets r) = -5
    /\ CampaignStatusResponse.progress_percentage r = 0%Q
    /\ ~ (CampaignStatusResponse.progress_percentage r
          == inject_Z 1 / inject_Z (-5) * 100)%Q.
Proof.
  intros s. eexists. split; [reflexivity|].
  repeat split. intros H. discriminate H.
Qed.

(** X24, [get_dashboard_metrics] with a store that answers, the lookup by
    name included: it reports as [average_open_rate] (and likewise
    [average_click_rate]) the number of sent logs flagged opened over the
    number of sent logs, all campaigns pooled, and [0] when nothing was
    sent; the campaigns collection has no part in it, and a campaign without
    sent mail is left out: dropping its logs changes neither rate. *)
Theorem dashboard_rates_are_pooled (s : WorkflowService) (m : Mongo.t) :
  mongodb_client s = Some m ->
  Mongo.lookup_raises m = false ->
  Mongo.server_down m = false ->
  exists d,
    get_dashboard_metrics s = (Ok d, s)
    /\ DashboardMetrics.average_open_rate d
       = pooled_rate LogDoc.opened (Mongo.email_logs m)
    /\ DashboardMetrics.average_click_rate d
       = pooled_rate LogDoc.clicked (Mongo.email_logs m)
    /\ (forall n flag,
          sent_of (Mongo.email_logs m) n = 0 ->
          pooled_rate flag (filter (fun l => negb (of_campaign n l)) (Mongo.email_logs m))
          = pooled_rate flag (Mongo.email_logs m)).
Proof.
  intros Hm Hl Hd. eexists.
  split; [exact (get_dashboard_metrics_run s m Hm Hl Hd)|].
  split; [reflexivity|]. split; [reflexivity|].
  intros n flag Hz. unfold pooled_rate. now rewrite (sent_logs_without n _ Hz).
Qed.

(** The example of the specification: campaign A with 100 sent and 25
    opened, campaign B with nothing sent. *)
Lemma dashboard_rates_are_pooled_witness :
  let logs := (repeat (sent_log "A" true) 25 ++ repeat (sent_log "A" false) 75)%list in
  let s := service_on (up_store [sample_campaign "A" sample_targets;
                                 sample_campaign "B" sample_targets] logs) [] in
  exists d,
    get_dashboard_metrics s = (Ok d, s)
    /\ DashboardMetrics.average_open_rate d = (1 # 4)%Q.
Proof.
  intros logs s.
  destruct (dashboard_rates_are_pooled s
              (up_store [sample_campaign "A" sample_targets;
                         sample_campaign "B" sample_targets] logs)
              eq_refl eq_refl eq_refl) as (d & Hrun & Hopen & _).
  exists d. split; [exact Hrun|]. rewrite Hopen. reflexivity.
Defined.

(** The pooled rate is not the average of the campaigns' rates: campaign A
    with one sent log, opened, and campaign B with three sent logs, none
    opened, have rates 1 and 0, whose average is 1/2; on a store that
    answers the dashboard reports 1/4. *)
Lemma dashboard_rate_is_not_mean_of_campaign_rates :
  let logs := [sent_log "A" true; sent_log "B" false; sent_log "B" false;
               sent_log "B" false] in
  let s := service_on (up_store [sample_campaign "A" sample_targets;
                                 sample_campaign "B" sample_targets] logs) [] in
  exists d,
    get_dashboard_metrics s = (Ok d, s)
    /\ DashboardMetrics.average_open_rate d = (1 # 4)%Q
    /\ mean_of_campaign_open_rates ["A"; "B"] logs = (1 # 2)%Q
    /\ ~ (DashboardMetrics.average_open_rate d
          == mean_of_campaign_open_rates ["A"; "B"] logs)%Q.
Proof.
  intros logs s. eexists. split; [reflexivity|].
  repeat split. intros H. discriminate H.
Qed.

(** X26, [update_campaign_targets] with a store that answers, the lookup
    by name included: it answers [False] when no campaign has the
    name, and also when the campaign is there but the targets given and
    the time of the call both equal what is stored, so that the update
    changes nothing; it answers [True] in every other case, the stored
    document then carrying the new targets and the new update time.  Equal
    targets alone do not make it answer [False]: the update time is
    rewritten by the same update. *)
Theorem update_targets_reports_modification
        (n : string) (t : CampaignTargets.t) (now : datetime)
        (s : WorkflowService) (m : Mongo.t) :
  mongodb_client s = Some m ->
  Mongo.lookup_raises m = false ->
  Mongo.server_down m = false ->
  fst (update_campaign_targets n t now s)
  = Ok (match find (Mongo.named n) (Mongo.campaigns m) with
        | None => false
        | Some c => negb (CampaignTargets.eqb (Campaign.targets c) t
                          && (Campaign.updated_at c =? now))
        end)
  /\ (forall c, find (Mongo.named n) (Mongo.campaigns m) = Some c ->
        exists m', mongodb_client (snd (update_campaign_targets n t now s)) = Some m'
                   /\ find (Mongo.named n) (Mongo.campaigns m')
                      = Some (Campaign.set_targets t now c)).
Proof.
  intros Hm Hl Hd.
  pose proof (update_campaign_targets_run n t now s m Hm Hl Hd) as H.
  destruct (find (Mongo.named n) (Mongo.campaigns m)) as [c|].
  - destruct H as (m' & -> & Hfind). split; [reflexivity|].
    intros c' Hc'. injection Hc' as <-. now exists m'.
  - rewrite H. split; [reflexivity | discriminate].
Qed.

Lemma update_targets_reports_modification_witness :
  fst (update_campaign_targets "Launch" sample_targets 0
         (service_on (up_store [sample_campaign "Launch" sample_targets] []) []))
  = Ok false
  /\ fst (update_campaign_targets "Other" sample_targets 7
            (service_on (up_store [sample_campaign "Launch" sample_targets] []) []))
     = Ok false.
Proof.
  split.
  - exact (proj1 (update_targets_reports_modification "Launch" sample_targets 0
             (service_on (up_store [sample_campaign "Launch" sample_targets] []) [])
             (up_store [sample_campaign "Launch" sample_targets] [])
             eq_refl eq_refl eq_refl)).
  - exact (proj1 (update_targets_reports_modification "Other" sample_targets 7
             (service_on (up_store [sample_campaign "Launch" sample_targets] []) [])
             (up_store [sample_campaign "Launch" sample_targets] [])
             eq_refl eq_refl eq_refl)).
Defined.

(** On a store that answers, setting the same targets twice, at two
    different times, is reported as a success both times. *)
Lemma same_targets_twice_both_succeed :
  let s0 := service_on (up_store [sample_campaign "Launch" negative_targets] []) [] in
  let first := update_campaign_targets "Launch" sample_targets 7 s0 in
  let second := update_campaign_targets "Launch" sample_targets 9 (snd first) in
  fst first = Ok true /\ fst second = Ok true.
Proof. split; reflexivity. Qed.

(** X27, the recipients of a dispatch on a contacts collection that
    answers: for an absent or empty list of segments they are
    [get_all_contacts()], that is the first 100 contacts of the collection,
    hence all of them when there are at most 100.  For a non-empty list,
    and a handle that tests true (a pymongo handle raises instead), they
    are the contacts tagged with the first segment, followed by those tagged
    with the second, and so on: a contact is a recipient exactly when it
    carries one of the segments' tags, but nothing is removed, so a contact
    carrying several of them is a recipient once per such segment. *)
Theorem recipients_are_concatenated_segments
        (contacts : ContactService.t) (coll : ContactService.Collection)
        (segments : list string) :
  ContactService.collection contacts = Some coll ->
  ContactService.unreachable coll = false ->
  (ContactService.truth_test_raises coll = false ->
   segments <> [] ->
   resolve_contacts (Some segments) contacts
   = Ok (flat_map (fun seg => filter (ContactService.has_tag seg)
                                     (ContactService.docs coll)) segments)
   /\ (forall c,
         In c (flat_map (fun seg => filter (ContactService.has_tag seg)
                                           (ContactService.docs coll)) segments)
         <-> In c (ContactService.docs coll)
             /\ exists seg, In seg segments /\ ContactService.has_tag seg c = true)
   /\ length (flat_map (fun seg => filter (ContactService.has_tag seg)
                                          (ContactService.docs coll)) segments)
      = list_sum (map (fun seg =>
                         length (filter (ContactService.has_tag seg)
                                        (ContactService.docs coll)))
                      segments))
  /\ resolve_contacts (Some []) contacts = Ok (firstn 100 (ContactService.docs coll))
  /\ resolve_contacts None contacts = Ok (firstn 100 (ContactService.docs coll))
  /\ ((length (ContactService.docs coll) <= 100)%nat ->
      resolve_contacts None contacts = Ok (ContactService.docs coll)).
Proof.
  intros Hc Hu.
  assert (Hall : ContactService.get_all_contacts contacts 100
                 = firstn 100 (ContactService.docs coll)).
  { unfold ContactService.get_all_contacts. now rewrite Hc, Hu. }
  split; [|split; [|split]].
  - intros Ht Hne. destruct segments as [|seg rest]; [congruence|].
    cbn [resolve_contacts].
    rewrite (extend_on_tested_handle contacts coll (seg :: rest) [] Hc Ht), Hu.
    cbn [app]. split; [reflexivity|]. split.
    + intros c. rewrite in_flat_map. split.
      * intros (x & Hx & Hin). apply filter_In in Hin. destruct Hin as [Hd Htag].
        split; [exact Hd | now exists x].
      * intros (Hd & x & Hx & Htag). exists x. split; [exact Hx|].
        apply filter_In. now split.
    + apply length_flat_map.
  - cbn [resolve_contacts]. now rewrite Hall.
  - cbn [resolve_contacts]. now rewrite Hall.
  - intros Hlen. cbn [resolve_contacts]. rewrite Hall. f_equal.
    now apply firstn_all2.
Qed.

Lemma recipients_are_concatenated_segments_witness :
  resolve_contacts (Some ["engaged"; "priority"]) two_contacts_tested
  = Ok [both_tags; one_tag; both_tags]
  /\ resolve_contacts None two_contacts = Ok [both_tags; one_tag].
Proof.
  destruct (recipients_are_concatenated_segments two_contacts_tested
              (ContactService.mkCollection [both_tags; one_tag] false false)
              ["engaged"; "priority"] eq_refl eq_refl) as (Hseg & _).
  destruct (recipients_are_concatenated_segments two_contacts
              (ContactService.pymongo [both_tags; one_tag] false)
              [] eq_refl eq_refl) as (_ & _ & _ & Hfull).
  split.
  - destruct Hseg as (-> & _); [reflexivity | discriminate | reflexivity].
  - rewrite Hfull; [reflexivity | cbn; lia].
Defined.

(** A contact carrying two of the listed tags is a recipient twice, and
    with 101 contacts and no segment only 100 of them are recipients. *)
Lemma recipients_duplicated_and_capped :
  resolve_contacts (Some ["engaged"; "priority"]) two_contacts_tested
  = Ok [both_tags; one_tag; both_tags]
  /\ ~ NoDup [both_tags; one_tag; both_tags]
  /\ length (ContactService.get_all_contacts (directory 101) 1000) = 101%nat
  /\ length (ContactService.get_all_contacts (directory 101) 100) = 100%nat
  /\ length (ContactService.get_all_contacts (directory 101) 0) = 101%nat.
Proof.
  split; [reflexivity|]. split.
  - intros H. inversion H as [|x l Hnotin _]. apply Hnotin. cbn. auto.
  - repeat split; reflexivity.
Qed.
